(** * CDC historical warehouse: change extractor and SCD Type 2 loader

    A shallow embedding of [src/cdc/log_extractor.py] and
    [src/warehouse/scd2_loader.py], and the properties of the
    specification that concern them.

    Conventions of the embedding.
    - Integers (ids, quantities, surrogate keys) are [Z].  The two
      [DECIMAL(10,2)] columns are [Z] numbers of hundredths; Python's
      [float] is injective on such values, so [float(a) != float(b)]
      is [a <> b].
    - Instants (SQL [TIMESTAMP], Python [datetime]) are [Z]
      microseconds.  On the wire (the JSON artifact, the watermark file)
      a timestamp is a [string]; [datetime.fromisoformat],
      [datetime.isoformat] and [str] of a datetime are parameters of the
      development, the first one partial ([None] is [ValueError]).
    - The warehouse connection is explicit state: the rows as of the
      last commit, the rows the open transaction sees, the [BIGSERIAL]
      sequence (which no rollback restores), whether the transaction is
      in the failed state, and a schedule of statement failures, so that
      every [except psycopg2.Error] branch of the source can be reached.
    - [with connection:] commits when its body ends normally and rolls
      back when it ends by an exception.  A connection cannot be entered
      twice (psycopg2 2.9 and later): the block of a transition, when it
      is met inside the block of a batch, raises [ProgrammingError]
      before it sends a statement.
    - A capture timestamp read by [fromisoformat] carries a UTC offset
      or not; the [TIMESTAMP] columns are read back without one, and a
      datetime with an offset is never equal to one without.
    - The table constraints of [_create_dim_orders_history] are part of
      the model: the check on the validity interval fails the statement
      that violates it, the deferred uniqueness of (order_key,
      is_current) fails the commit.
    - Writes to the ledger and to the watermark file succeed; the
      pipeline metadata are kept on a connection of their own and are
      left out, but for the report that the run hands to them. *)

From Stdlib Require Import String Ascii.
From Stdlib Require Import ZArith List Bool Lia Sorted Permutation.
From Stdlib Require Import DecimalString.
Import ListNotations.

Local Open Scope string_scope.
Local Open Scope list_scope.
Local Open Scope Z_scope.

(** ** Text and lists as Python has them *)

Module Py.

(** [str <= str]: comparison by code point, lexicographic. *)
Definition str_le (a b : string) : bool := String.leb a b.

(** [s.split('|', 1)]: the text before the first bar, and the text
    after it when there is a bar. *)
Fixpoint split_bar (s : string) : string * option string :=
  match s with
  | EmptyString => (EmptyString, None)
  | String ch rest =>
      if Ascii.eqb ch "|" then (EmptyString, Some rest)
      else let '(a, b) := split_bar rest in (String ch a, b)
  end.

(** [s.strip()].  A text is the list of its code points, which are
    below 256 here; of these [str.isspace] holds for 9 to 13, 28 to 32,
    133 and 160. *)
Definition is_space (ch : ascii) : bool :=
  let n := nat_of_ascii ch in
  (Nat.leb 9 n && Nat.leb n 13) || (Nat.leb 28 n && Nat.leb n 32)
  || Nat.eqb n 133 || Nat.eqb n 160.

Fixpoint lstrip (s : string) : string :=
  match s with
  | String ch rest => if is_space ch then lstrip rest else s
  | EmptyString => EmptyString
  end.

Fixpoint rstrip (s : string) : string :=
  match s with
  | EmptyString => EmptyString
  | String ch rest =>
      match rstrip rest with
      | EmptyString => if is_space ch then EmptyString else String ch EmptyString
      | r => String ch r
      end
  end.

Definition strip (s : string) : string := rstrip (lstrip s).

(** [list.sort(key=...)] is stable: an element is placed before the
    first element already there whose key is not smaller. *)
Section Sort.
Context {A K : Type} (le : K -> K -> bool) (key : A -> K).

Fixpoint insert_by (x : A) (l : list A) : list A :=
  match l with
  | [] => [x]
  | y :: ys => if le (key x) (key y) then x :: y :: ys
               else y :: insert_by x ys
  end.

Fixpoint sort_by (l : list A) : list A :=
  match l with
  | [] => []
  | x :: xs => insert_by x (sort_by xs)
  end.
End Sort.

(** [json.dumps] of a list of integers. *)
Definition str_of_int (z : Z) : string := NilZero.string_of_int (Z.to_int z).

Fixpoint dumps_items (l : list Z) : string :=
  match l with
  | [] => ""
  | [z] => str_of_int z
  | z :: rest => (str_of_int z ++ ", " ++ dumps_items rest)%string
  end.

Definition json_dumps (l : list Z) : string :=
  ("[" ++ dumps_items l ++ "]")%string.

End Py.

(** ** The dimension table and the change records *)

(** A change record of a batch artifact (the keys of the JSON object
    that the loader reads). *)
Record change := mkChange {
  ch_id : Z;
  ch_customer_id : Z;
  ch_product_id : Z;
  ch_quantity : Z;
  ch_unit_price : Z;
  ch_total_amount : Z;
  ch_order_status : string;
  ch_order_date : string;
  ch_operation_type : string;
  ch_cdc_timestamp : string
}.

(** A row of [dim_orders_history]. *)
Record row := mkRow {
  surrogate_key : Z;
  order_key : Z;
  customer_id : Z;
  product_id : Z;
  quantity : Z;
  unit_price : Z;
  total_amount : Z;
  order_status : string;
  order_date : Z;
  valid_from : Z;
  valid_to : option Z;
  is_current : bool;
  cdc_operation : string;
  cdc_timestamp : Z;
  batch_id : string
}.

(** [WHERE order_key = k AND is_current = TRUE] *)
Definition current_of (k : Z) (r : row) : bool :=
  (order_key r =? k) && is_current r.

Definition current_row (k : Z) (rows : list row) : option row :=
  find (current_of k) rows.

Definition count_current (k : Z) (rows : list row) : nat :=
  length (filter (current_of k) rows).

(** [SET valid_to = ts, is_current = FALSE] *)
Definition close_row (ts : Z) (r : row) : row :=
  mkRow (surrogate_key r) (order_key r) (customer_id r) (product_id r)
        (quantity r) (unit_price r) (total_amount r) (order_status r)
        (order_date r) (valid_from r) (Some ts) false
        (cdc_operation r) (cdc_timestamp r) (batch_id r).

Definition expire_rows (k ts : Z) (rows : list row) : list row :=
  map (fun r => if current_of k r then close_row ts r else r) rows.

(** [CHECK (valid_to IS NULL OR valid_to > valid_from)] on the rows an
    [UPDATE ... SET valid_to = ts] touches. *)
Definition valid_time_check (k ts : Z) (rows : list row) : bool :=
  forallb (fun r => negb (current_of k r) || (valid_from r <? ts)) rows.

(** [UNIQUE (order_key, is_current) DEFERRABLE INITIALLY DEFERRED]:
    checked when the transaction commits. *)
Fixpoint current_unique (rows : list row) : bool :=
  match rows with
  | [] => true
  | r :: rest =>
      negb (existsb (fun r' => (order_key r' =? order_key r)
                               && Bool.eqb (is_current r') (is_current r)) rest)
      && current_unique rest
  end.

(** ** The warehouse connection *)

Inductive exn : Type :=
| Psycopg2Error   (* psycopg2.Error and its subclasses *)
| ValueError      (* datetime.fromisoformat, tuple unpacking *)
| RecursionError  (* the interpreter's recursion limit is reached *)
| PyException.    (* raise Exception("...") *)

Inductive outcome (A : Type) : Type :=
| Ret (a : A)
| Raise (e : exn).
Arguments Ret {A} a.
Arguments Raise {A} e.

Record warehouse := mkWarehouse {
  committed : list row;     (* the table as of the last COMMIT *)
  working : list row;       (* the table as the session sees it *)
  next_key : Z;             (* next value of the BIGSERIAL sequence *)
  aborted : bool;           (* the open transaction has failed *)
  faults : list bool;       (* true: the next statement fails *)
  entered : bool            (* inside a [with connection:] block *)
}.

Definition M (A : Type) : Type := warehouse -> outcome A * warehouse.

Definition ret {A} (a : A) : M A := fun w => (Ret a, w).
Definition raise {A} (e : exn) : M A := fun w => (Raise e, w).

Definition bind {A B} (m : M A) (f : A -> M B) : M B :=
  fun w => match m w with
           | (Ret a, w') => f a w'
           | (Raise e, w') => (Raise e, w')
           end.

Notation "x <- m ;; k" := (bind m (fun x => k))
  (at level 61, m at next level, right associativity).
Notation "m ;;; k" := (bind m (fun _ => k))
  (at level 61, right associativity).

(** Sending one statement: it is refused while the transaction is in
    the failed state, and it fails when the schedule says so, which
    puts the transaction in the failed state. *)
Definition statement : M unit := fun w =>
  if aborted w then (Raise Psycopg2Error, w)
  else match faults w with
       | true :: fs =>
           (Raise Psycopg2Error,
            mkWarehouse (committed w) (working w) (next_key w) true fs
                        (entered w))
       | false :: fs =>
           (Ret tt, mkWarehouse (committed w) (working w) (next_key w) false fs
                                (entered w))
       | [] => (Ret tt, w)
       end.

Definition fail_statement {A} : M A := fun w =>
  (Raise Psycopg2Error,
   mkWarehouse (committed w) (working w) (next_key w) true (faults w)
               (entered w)).

(** [SELECT ... WHERE order_key = %s AND is_current = TRUE FOR UPDATE]
    followed by [fetchone]. *)
Definition sql_select_current (k : Z) : M (option row) :=
  statement ;;; fun w => (Ret (current_row k (working w)), w).

(** [UPDATE dim_orders_history SET valid_to = %s, is_current = FALSE
    WHERE order_key = %s AND is_current = TRUE RETURNING surrogate_key]
    followed by [fetchone]. *)
Definition sql_expire (k ts : Z) : M (option Z) :=
  statement ;;; fun w =>
    if valid_time_check k ts (working w) then
      (Ret (option_map surrogate_key (current_row k (working w))),
       mkWarehouse (committed w) (expire_rows k ts (working w))
                   (next_key w) (aborted w) (faults w) (entered w))
    else fail_statement w.

(** The row that [INSERT INTO dim_orders_history (...) VALUES (...)]
    adds; [valid_to] and [is_current] take their defaults. *)
Definition new_row (key : Z) (c : change) (odate ts : Z) (bid : string) : row :=
  mkRow key (ch_id c) (ch_customer_id c) (ch_product_id c) (ch_quantity c)
        (ch_unit_price c) (ch_total_amount c) (ch_order_status c)
        odate ts None true (ch_operation_type c) ts bid.

(** [connection.commit()].  On a failed transaction the server answers
    COMMIT by rolling back, and no exception is raised. *)
Definition commit : M unit := fun w =>
  if aborted w then
    (Ret tt, mkWarehouse (committed w) (committed w) (next_key w) false
                         (faults w) (entered w))
  else
    let fails := match faults w with true :: _ => true | _ => false end in
    let fs := tl (faults w) in
    if fails || negb (current_unique (working w)) then
      (Raise Psycopg2Error,
       mkWarehouse (committed w) (committed w) (next_key w) false fs
                   (entered w))
    else
      (Ret tt, mkWarehouse (working w) (working w) (next_key w) false fs
                           (entered w)).

(** [connection.rollback()] *)
Definition rollback : M unit := fun w =>
  (Ret tt, mkWarehouse (committed w) (committed w) (next_key w) false (faults w)
                       (entered w)).

(** [connection.__enter__] sets the flag of the connection and
    [connection.__exit__] clears it. *)
Definition set_entered (b : bool) (w : warehouse) : warehouse :=
  mkWarehouse (committed w) (working w) (next_key w) (aborted w) (faults w) b.

(** [with self.warehouse_connection: body].  Entering a connection that
    is entered already raises [ProgrammingError], one of psycopg2's
    errors, and changes nothing; otherwise the block commits when its
    body ends normally and rolls back when it ends by an exception. *)
Definition with_connection {A} (body : M A) : M A := fun w =>
  if entered w then (Raise Psycopg2Error, w)
  else
    match body (set_entered true w) with
    | (Ret a, w') =>
        match commit (set_entered false w') with
        | (Ret _, w'') => (Ret a, w'')
        | (Raise e, w'') => (Raise e, w'')
        end
    | (Raise e, w') => (Raise e, snd (rollback (set_entered false w')))
    end.

(** [try: body except psycopg2.Error: handler] *)
Definition except_psycopg2 {A} (body : M A) (handler : M A) : M A := fun w =>
  match body w with
  | (Raise Psycopg2Error, w') => handler w'
  | r => r
  end.

(** [try: body except Exception: handler] *)
Definition except_any {A} (body : M A) (handler : M A) : M A := fun w =>
  match body w with
  | (Raise _, w') => handler w'
  | r => r
  end.

(** ** The loader, [SCD2Loader] *)

(** A batch artifact found by [glob("changes_*.json")]: its file name
    and the value of its ["changes"] key ([None]: the file is not a JSON
    document). *)
Record batch_file := mkBatchFile {
  file_name : string;
  file_changes : option (list change)
}.

(** What the loader owns: the warehouse connection and the lines of
    [data/cdc_logs/.processed_files]. *)
Record loader := mkLoader {
  db : warehouse;
  processed_log : list string
}.

(** [sys.getrecursionlimit()] *)
Definition recursion_limit : nat := 1000.

Section Pipeline.

(** [hashlib.md5(...).hexdigest()] *)
Variable md5 : string -> string.
(** [datetime.fromisoformat], after ['Z'] is replaced by ['+00:00'];
    [None] is [ValueError]. *)
Variable fromisoformat : string -> option Z.
(** Whether the datetime that [fromisoformat] reads from the text
    carries a UTC offset. *)
Variable tz_aware : string -> bool.
(** [datetime.isoformat] *)
Variable isoformat : Z -> string.
(** The server reading a timestamp literal; [None] is a syntax error. *)
Variable pg_timestamp : string -> option Z.
(** [str] of a [datetime] *)
Variable str_datetime : Z -> string.
(** [strftime("%Y%m%d_%H%M%S_%f")[:-3]] *)
Variable log_stamp : Z -> string.

(** [INSERT INTO dim_orders_history (...) VALUES (...) RETURNING
    surrogate_key] followed by [fetchone()[0]]. *)
Definition sql_insert (c : change) (ts : Z) (bid : string) : M Z :=
  statement ;;; fun w =>
    match pg_timestamp (ch_order_date c) with
    | None => fail_statement w
    | Some odate =>
        (Ret (next_key w),
         mkWarehouse (committed w)
                     (working w ++ [new_row (next_key w) c odate ts bid])
                     (next_key w + 1) (aborted w) (faults w) (entered w))
    end.

Definition _get_processed_files (log : list string) : list string :=
  filter (fun l => negb (String.eqb l "")) (map Py.strip log).

Definition _mark_file_processed (filename bid : string) (log : list string)
  : list string :=
  log ++ [(filename ++ "|" ++ bid)%string].

Definition _generate_batch_id (changes : list change) : string :=
  md5 (Py.json_dumps (Py.sort_by Z.leb (fun z => z) (map ch_id changes))).

Definition _get_current_record (k : Z) : M (option row) :=
  except_psycopg2 (sql_select_current k) (ret None).

Definition _expire_current_record (k ts : Z) : M bool :=
  except_psycopg2
    (r <- sql_expire k ts ;;
     ret (match r with Some _ => true | None => false end))
    (ret false).

(** Here the server reads the capture timestamp from its text; it is
    taken to read what [fromisoformat] reads. *)
Definition _insert_new_record (c : change) (bid : string) : M (option Z) :=
  except_psycopg2
    (match fromisoformat (ch_cdc_timestamp c) with
     | Some ts => k <- sql_insert c ts bid ;; ret (Some k)
     | None => statement ;;; fail_statement
     end)
    (ret None).

(** [if surrogate_key:] *)
Definition truthy (k : option Z) : bool :=
  match k with
  | Some z => negb (z =? 0)
  | None => false
  end.

Definition has_changes (cur : row) (c : change) : bool :=
  negb (customer_id cur =? ch_customer_id c)
  || negb (product_id cur =? ch_product_id c)
  || negb (quantity cur =? ch_quantity c)
  || negb (unit_price cur =? ch_unit_price c)
  || negb (String.eqb (order_status cur) (ch_order_status c))
  || negb (String.eqb (str_datetime (order_date cur)) (ch_order_date c)).

(** Lines 356-407: the [try] block of [_process_update_change]. *)
Definition expire_and_insert (c : change) (ts : Z) (bid : string) : M bool :=
  except_psycopg2
    (with_connection
       (expired <- sql_expire (ch_id c) ts ;;
        match expired with
        | None => ret false
        | Some _ => sql_insert c ts bid ;;; ret true
        end))
    (rollback ;;; ret false).

(** [current_record['cdc_timestamp'] == cdc_timestamp]: the column is
    read back without a UTC offset, and Python holds a datetime without
    an offset different from every datetime with one. *)
Definition same_instant (r : row) (c : change) (ts : Z) : bool :=
  negb (tz_aware (ch_cdc_timestamp c)) && (cdc_timestamp r =? ts).

(** The two transitions call each other; [depth] is the number of
    frames left before the interpreter raises [RecursionError].  Beside
    the Boolean of the source the result counts the redirections made. *)
Fixpoint _process_insert_change (depth : nat) (c : change) (bid : string)
  {struct depth} : M (bool * nat) :=
  match depth with
  | O => raise RecursionError
  | S d =>
      match fromisoformat (ch_cdc_timestamp c) with
      | None => raise ValueError
      | Some ts =>
          cur <- _get_current_record (ch_id c) ;;
          match cur with
          | Some r =>
              if same_instant r c ts && String.eqb (cdc_operation r) "INSERT"
              then ret (true, O)
              else (res <- _process_update_change d c bid ;;
                    ret (fst res, S (snd res)))
          | None =>
              k <- _insert_new_record c bid ;;
              ret (truthy k, O)
          end
      end
  end
with _process_update_change (depth : nat) (c : change) (bid : string)
  {struct depth} : M (bool * nat) :=
  match depth with
  | O => raise RecursionError
  | S d =>
      match fromisoformat (ch_cdc_timestamp c) with
      | None => raise ValueError
      | Some ts =>
          cur <- _get_current_record (ch_id c) ;;
          match cur with
          | None =>
              res <- _process_insert_change d c bid ;;
              ret (fst res, S (snd res))
          | Some r =>
              if has_changes r c
              then (ok <- expire_and_insert c ts bid ;; ret (ok, O))
              else ret (true, O)
          end
      end
  end.

Definition _process_delete_change (c : change) (bid : string) : M bool :=
  match fromisoformat (ch_cdc_timestamp c) with
  | None => raise ValueError
  | Some ts =>
      except_psycopg2
        (with_connection (sql_expire (ch_id c) ts ;;; ret true))
        (rollback ;;; ret false)
  end.

Definition _process_change_record (c : change) (bid : string) : M bool :=
  except_any
    (if String.eqb (ch_operation_type c) "INSERT" then
       res <- _process_insert_change recursion_limit c bid ;; ret (fst res)
     else if String.eqb (ch_operation_type c) "UPDATE" then
       res <- _process_update_change recursion_limit c bid ;; ret (fst res)
     else if String.eqb (ch_operation_type c) "DELETE" then
       _process_delete_change c bid
     else ret false)
    (ret false).

(** Lines 504-510: the ledger is searched for the pair of this file's
    name and batch id; a line without a bar cannot be unpacked.  The
    source walks a set: the list stands for the order in which the
    lines are met. *)
Fixpoint already_processed (lines : list string) (name bid : string)
  : outcome bool :=
  match lines with
  | [] => Ret false
  | line :: rest =>
      match Py.split_bar line with
      | (_, None) => Raise ValueError
      | (filename, Some processed_batch_id) =>
          if String.eqb filename name && String.eqb processed_batch_id bid
          then Ret true
          else already_processed rest name bid
      end
  end.

(** Lines 512-518: [changes_by_order], a dict in insertion order. *)
Fixpoint add_change (c : change) (groups : list (Z * list change))
  : list (Z * list change) :=
  match groups with
  | [] => [(ch_id c, [c])]
  | (k, g) :: rest =>
      if k =? ch_id c then (k, g ++ [c]) :: rest
      else (k, g) :: add_change c rest
  end.

Definition changes_by_order (changes : list change) : list (Z * list change) :=
  fold_left (fun groups c => add_change c groups) changes [].

(** Lines 527-528: [order_changes.sort(key=...)] and [order_changes[-1]]. *)
Definition latest_change (order_changes : list change) : option change :=
  match order_changes with
  | [] => None
  | c :: _ => Some (last (Py.sort_by Py.str_le ch_cdc_timestamp order_changes) c)
  end.

(** The changes that reach the transitions, one per order. *)
Definition effective_changes (changes : list change) : list change :=
  flat_map (fun kg => match latest_change (snd kg) with
                      | Some c => [c]
                      | None => []
                      end)
           (changes_by_order changes).

(** Lines 525-535: the loop inside the batch's [with] block. *)
Fixpoint process_latest (latest : list change) (bid : string) : M nat :=
  match latest with
  | [] => ret O
  | c :: rest =>
      ok <- _process_change_record c bid ;;
      if ok then (n <- process_latest rest bid ;; ret (S n))
      else raise PyException
  end.

Definition _process_batch_file (f : batch_file) (st : loader) : bool * loader :=
  match file_changes f with
  | None => (false, st)
  | Some [] => (true, st)
  | Some changes =>
      let bid := _generate_batch_id changes in
      match already_processed (_get_processed_files (processed_log st))
                              (file_name f) bid with
      | Raise _ => (false, st)
      | Ret true => (true, st)
      | Ret false =>
          match with_connection (process_latest (effective_changes changes) bid)
                                (db st) with
          | (Ret _, w) =>
              (true, mkLoader w (_mark_file_processed (file_name f) bid
                                                      (processed_log st)))
          | (Raise _, w) => (false, mkLoader w (processed_log st))
          end
      end
  end.

(** Lines 569-575 of [load_change_logs]; [dir] is what
    [glob("changes_*.json")] finds. *)
Definition processed_filenames (log : list string) : list string :=
  map (fun line => fst (Py.split_bar line)) (_get_processed_files log).

Definition unprocessed_files (log : list string) (dir : list batch_file)
  : list batch_file :=
  filter (fun f => negb (existsb (String.eqb (file_name f))
                                 (processed_filenames log)))
         (Py.sort_by Py.str_le file_name dir).

(** [_log_summary_statistics]: one SELECT outside any block; its
    failure is logged, and nothing commits or rolls back after it. *)
Definition _log_summary_statistics : M unit :=
  except_psycopg2 statement (ret tt).

(** Lines 577-642 of [load_change_logs] when no shutdown is requested:
    with nothing to process the run returns at once; otherwise the
    batches are processed in turn and the summary is logged. *)
Definition load_change_logs (dir : list batch_file) (st : loader) : loader :=
  match unprocessed_files (processed_log st) dir with
  | [] => st
  | files =>
      let st' := fold_left (fun s f => snd (_process_batch_file f s)) files st in
      mkLoader (snd (_log_summary_statistics (db st'))) (processed_log st')
  end.

(** ** The extractor, [CDCLogExtractor] *)

(** A row of the source relation [orders]. *)
Record order := mkOrder {
  o_id : Z;
  o_customer_id : Z;
  o_product_id : Z;
  o_quantity : Z;
  o_unit_price : Z;
  o_total_amount : Z;
  o_order_status : string;
  o_order_date : Z;
  o_last_updated : Z;
  o_created_at : Z
}.

(** A detected change: the source row with the three keys that
    [_detect_changes] adds to it. *)
Record detected := mkDetected {
  d_order : order;
  d_operation_type : string;
  d_cdc_timestamp : string;
  d_extracted_at : string
}.

(** The source connection: a statement can fail while the connection
    stays open, or the connection can be lost, after which psycopg2
    refuses every call on it, [rollback] included. *)
Inductive link : Type := Healthy | StatementFails | ConnectionLost.

Record source := mkSource {
  orders : list order;
  link_state : link
}.

(** What the extractor owns: the source connection, the content of
    [data/cdc_logs/.watermark] when the file exists, and the batch
    artifacts under [data/cdc_logs]. *)
Record extractor := mkExtractor {
  src : source;
  watermark_file : option string;
  cdc_logs : list (string * list detected)
}.

(** [timedelta(minutes=5)] in microseconds *)
Definition five_minutes : Z := 300000000.

Definition _get_watermark (now : Z) (file : option string) : Z :=
  match file with
  | Some text =>
      match fromisoformat (Py.strip text) with
      | Some ts => ts
      | None => now - five_minutes
      end
  | None => now - five_minutes
  end.

(** [open(self.watermark_file, 'w')] empties the file in place;
    [f.write] then puts the text in it.  The list is what the file
    holds after each of the two steps. *)
Definition open_truncate (file : option string) : option string :=
  Some "".

Definition write_text (text : string) (file : option string) : option string :=
  match file with
  | Some old => Some (old ++ text)%string
  | None => Some text
  end.

Definition _save_watermark_steps (ts : Z) (file : option string)
  : list (option string) :=
  let opened := open_truncate file in
  [opened; write_text (isoformat ts) opened].

Definition _save_watermark (ts : Z) (file : option string) : option string :=
  last (_save_watermark_steps ts file) file.

(** [ORDER BY last_updated, id] *)
Definition snapshot_le (a b : Z * Z) : bool :=
  (fst a <? fst b) || ((fst a =? fst b) && (snd a <=? snd b)).

(** The snapshot query of [_detect_changes]. *)
Definition snapshot (since : Z) (rows : list order) : list order :=
  Py.sort_by snapshot_le (fun o => (o_last_updated o, o_id o))
    (filter (fun o => (since <? o_last_updated o) || (since <? o_created_at o))
            rows).

Definition cursor_execute (since : Z) (s : source) : outcome (list order) :=
  match link_state s with
  | Healthy => Ret (snapshot since (orders s))
  | StatementFails | ConnectionLost => Raise Psycopg2Error
  end.

Definition connection_rollback (s : source) : outcome unit :=
  match link_state s with
  | ConnectionLost => Raise Psycopg2Error
  | Healthy | StatementFails => Ret tt
  end.

Definition classify (since now : Z) (o : order) : detected :=
  mkDetected o
    (if since <? o_created_at o then "INSERT" else "UPDATE")
    (isoformat now) (isoformat now).

Definition _detect_changes (since now : Z) (s : source)
  : outcome (list detected) :=
  match cursor_execute since s with
  | Ret current_snapshot => Ret (map (classify since now) current_snapshot)
  | Raise Psycopg2Error =>
      match connection_rollback s with
      | Ret _ => Ret []
      | Raise e => Raise e
      end
  | Raise e => Raise e
  end.

(** [open(log_file, 'w')] and [json.dump]; the copy of the changes that
    is appended to [running_changes.jsonl] is left out. *)
Definition write_file {A} (name : string) (content : A)
  (files : list (string * A)) : list (string * A) :=
  filter (fun p => negb (String.eqb (fst p) name)) files ++ [(name, content)].

Definition _write_change_logs (now : Z) (changes : list detected)
  (logs : list (string * list detected)) : list (string * list detected) :=
  match changes with
  | [] => logs
  | _ => write_file ("changes_" ++ log_stamp now ++ ".json")%string changes logs
  end.

(** [max(... for change in changes)] over a list that is not empty. *)
Definition latest_timestamp (first : detected) (others : list detected) : Z :=
  fold_left Z.max (map (fun d => o_last_updated (d_order d)) others)
            (o_last_updated (d_order first)).

(** Lines 241-263: one pass of the loop of [extract_changes], at clock
    reading [now].  The removal of artifacts older than a day, which the
    loop runs at random, is left out. *)
Definition extract_once (now : Z) (st : extractor) : outcome unit * extractor :=
  let watermark := _get_watermark now (watermark_file st) in
  match _detect_changes watermark now (src st) with
  | Raise e => (Raise e, st)
  | Ret [] => (Ret tt, st)
  | Ret (first :: others) =>
      let logs := _write_change_logs now (first :: others) (cdc_logs st) in
      (Ret tt,
       mkExtractor (src st)
                   (_save_watermark (latest_timestamp first others)
                                    (watermark_file st))
                   logs)
  end.

(** ** The run and what it reports *)

(** The four counters of the loop of [load_change_logs], lines 597-600. *)
Record counters := mkCounters {
  successful_batches : Z;
  failed_batches : Z;
  total_records : Z;
  successful_records : Z
}.

(** The keyword arguments of the call of [update_pipeline_run] that
    ends a run; the early return of lines 580-592 passes neither
    [files_failed] nor [total_files]. *)
Record run_report := mkRunReport {
  status : string;
  records_processed : Z;
  records_successful : Z;
  records_failed : Z;
  files_processed : Z;
  files_failed : option Z;
  total_files : option Z
}.

(** Lines 610-615: the artifact is read a second time and its records
    are counted; a file that cannot be read counts for nothing. *)
Definition batch_records (f : batch_file) : Z :=
  match file_changes f with
  | Some changes => Z.of_nat (length changes)
  | None => 0
  end.

(** Lines 602-619.  [should_shutdown i] is the flag of the shutdown
    handler as the loop reads it at the start of iteration [i]. *)
Fixpoint process_batches (should_shutdown : nat -> bool) (i : nat)
    (files : list batch_file) (cs : counters) (st : loader)
  : counters * loader :=
  match files with
  | [] => (cs, st)
  | f :: rest =>
      if should_shutdown i then (cs, st)
      else
        match _process_batch_file f st with
        | (true, st') =>
            process_batches should_shutdown (S i) rest
              (mkCounters (successful_batches cs + 1) (failed_batches cs)
                          (total_records cs + batch_records f)
                          (successful_records cs + batch_records f))
              st'
        | (false, st') =>
            process_batches should_shutdown (S i) rest
              (mkCounters (successful_batches cs) (failed_batches cs + 1)
                          (total_records cs) (successful_records cs))
              st'
        end
  end.

(** Lines 568-642 of [load_change_logs], with the report that the run
    hands to the metadata manager before it logs the summary. *)
Definition load_change_logs_report (should_shutdown : nat -> bool)
    (dir : list batch_file) (st : loader) : run_report * loader :=
  match unprocessed_files (processed_log st) dir with
  | [] => (mkRunReport "completed" 0 0 0 0 None None, st)
  | files =>
      let (cs, st') :=
        process_batches should_shutdown O files (mkCounters 0 0 0 0) st in
      (mkRunReport
         (if failed_batches cs =? 0 then "completed"
          else "completed_with_errors")
         (total_records cs) (successful_records cs)
         (total_records cs - successful_records cs)
         (successful_batches cs) (Some (failed_batches cs))
         (Some (Z.of_nat (length files))),
       mkLoader (snd (_log_summary_statistics (db st'))) (processed_log st'))
  end.

(** ** The connection loops, [_connect] *)

(** How a call of [_connect] ends: with the connection of an attempt,
    with an exception, or by leaving the loop with no connection. *)
Inductive connect_exn : Type := OperationalError | NameError.

Inductive connect_end : Type :=
| Connected (attempt : nat)
| ConnectRaise (e : connect_exn)
| LoopEnds.

Definition max_retries : nat := 5.

(** The loop [for attempt in range(max_retries)] of both classes.
    [refused attempt] tells whether [psycopg2.connect] raises
    [OperationalError] at that attempt; [time_imported] tells whether
    the module binds the name [time], which [time.sleep(retry_delay)]
    looks up.  The number counts the calls of [time.sleep] that
    returned. *)
Fixpoint connect_loop (time_imported : bool) (refused : nat -> bool)
    (attempts : list nat) (slept : nat) : connect_end * nat :=
  match attempts with
  | [] => (LoopEnds, slept)
  | attempt :: rest =>
      if refused attempt then
        if Nat.ltb attempt (max_retries - 1) then
          if time_imported
          then connect_loop time_imported refused rest (S slept)
          else (ConnectRaise NameError, slept)
        else (ConnectRaise OperationalError, slept)
      else (Connected attempt, slept)
  end.

(** [CDCLogExtractor._connect]; [log_extractor.py] imports [time]. *)
Definition CDCLogExtractor_connect (refused : nat -> bool) : connect_end * nat :=
  connect_loop true refused (seq 0 max_retries) 0.

(** [SCD2Loader._connect]; [scd2_loader.py] does not import [time]. *)
Definition SCD2Loader_connect (refused : nat -> bool) : connect_end * nat :=
  connect_loop false refused (seq 0 max_retries) 0.

(** ** Vocabulary of the properties *)

(** The data of two connection states agree: the committed rows, the
    rows in sight and the surrogate-key sequence. *)
Definition same_data (w w' : warehouse) : Prop :=
  committed w' = committed w /\ working w' = working w
  /\ next_key w' = next_key w.

(** No failure is scheduled: the transaction is sound and no statement
    to come fails. *)
Definition fault_free (w : warehouse) : Prop :=
  aborted w = false /\ ~ In true (faults w).


(** At most one current row for every natural key. *)
Definition single_current (rows : list row) : Prop :=
  forall k, (count_current k rows <= 1)%nat.

(** What [changes_by_order] holds after the changes [seen]: one group
    per order, in which the changes of that order stand as detected. *)
Definition groups_of (seen : list change) (groups : list (Z * list change))
  : Prop :=
  NoDup (map fst groups)
  /\ (forall k g, In (k, g) groups ->
        g = filter (fun c => ch_id c =? k) seen /\ g <> [])
  /\ (forall c, In c seen -> In (ch_id c) (map fst groups)).

(** The transition table of the loader on the rows of one key: what a
    change that was applied did to the table. *)
Definition is_upsert (c : change) : Prop :=
  ch_operation_type c = "INSERT" \/ ch_operation_type c = "UPDATE".

Inductive upserted (c : change) (bid : string) (rows rows' : list row) : Prop :=
| upserted_unchanged (cur : row) :
    current_row (ch_id c) rows = Some cur -> rows' = rows ->
    upserted c bid rows rows'
| upserted_first (key odate ts : Z) :
    current_row (ch_id c) rows = None ->
    rows' = rows ++ [new_row key c odate ts bid] ->
    upserted c bid rows rows'
| upserted_next (cur : row) (key odate ts : Z) :
    current_row (ch_id c) rows = Some cur ->
    rows' = expire_rows (ch_id c) ts rows ++ [new_row key c odate ts bid] ->
    upserted c bid rows rows'.

Inductive applied (c : change) (bid : string) (rows rows' : list row) : Prop :=
| applied_upsert :
    is_upsert c -> upserted c bid rows rows' -> applied c bid rows rows'
| applied_delete (ts : Z) :
    ch_operation_type c = "DELETE" ->
    rows' = expire_rows (ch_id c) ts rows ->
    applied c bid rows rows'.

(** The INSERT transition takes the change for the INSERT that made the
    current row, delivered again. *)
Definition redelivered_insert (cur : row) (c : change) : Prop :=
  exists ts, fromisoformat (ch_cdc_timestamp c) = Some ts
             /\ same_instant cur c ts = true
             /\ cdc_operation cur = "INSERT".

(** What a change that was applied inside the block of a batch did to
    the table.  There the transitions that close a row cannot enter
    their own block, so the change either found no current row for its
    key and added the first version, or found one and left the table
    alone: it alters no attribute, or it is an INSERT delivered again. *)
Inductive taken (c : change) (bid : string) (rows rows' : list row) : Prop :=
| taken_first (key odate ts : Z) :
    current_row (ch_id c) rows = None ->
    fromisoformat (ch_cdc_timestamp c) = Some ts ->
    pg_timestamp (ch_order_date c) = Some odate ->
    rows' = rows ++ [new_row key c odate ts bid] ->
    taken c bid rows rows'
| taken_unchanged (cur : row) :
    current_row (ch_id c) rows = Some cur ->
    rows' = rows ->
    has_changes cur c = false \/ redelivered_insert cur c ->
    taken c bid rows rows'.

Inductive taken_all (bid : string)
  : list change -> list row -> list row -> Prop :=
| taken_none rows : taken_all bid [] rows rows
| taken_next c cs rows rows1 rows2 :
    is_upsert c -> taken c bid rows rows1 -> taken_all bid cs rows1 rows2 ->
    taken_all bid (c :: cs) rows rows2.


(** Psycopg2's errors are the only ones that the statements raise. *)
Definition only_psycopg2 {A} (m : M A) : Prop :=
  forall w e w', m w = (Raise e, w') -> e = Psycopg2Error.

(** The lookup of the current row fails in this state of the
    connection. *)
Definition lookup_fails (k : Z) (w : warehouse) : Prop :=
  fst (sql_select_current k w) = Raise Psycopg2Error.

(** The ledger records the file name together with the batch id. *)
Definition recorded (log : list string) (name bid : string) : Prop :=
  exists line, In line (_get_processed_files log)
               /\ Py.split_bar line = (name, Some bid).

(** Every line of the ledger has a bar. *)
Definition well_formed_ledger (log : list string) : Prop :=
  forall line, In line (_get_processed_files log) ->
               snd (Py.split_bar line) <> None.

(** The row is a version made from the change: it carries the
    attribute values, the operation and the capture time of the change. *)
Definition materializes (e : change) (r : row) : Prop :=
  order_key r = ch_id e
  /\ customer_id r = ch_customer_id e
  /\ product_id r = ch_product_id e
  /\ quantity r = ch_quantity e
  /\ unit_price r = ch_unit_price e
  /\ total_amount r = ch_total_amount e
  /\ order_status r = ch_order_status e
  /\ cdc_operation r = ch_operation_type e
  /\ fromisoformat (ch_cdc_timestamp e) = Some (cdc_timestamp r)
  /\ pg_timestamp (ch_order_date e) = Some (order_date r).



(** A change that no transition can take: its capture timestamp does
    not parse, or its operation type is none of the three. *)
Definition unusable (c : change) : Prop :=
  fromisoformat (ch_cdc_timestamp c) = None
  \/ (ch_operation_type c <> "INSERT"
      /\ ch_operation_type c <> "UPDATE"
      /\ ch_operation_type c <> "DELETE").

(** At most one current row for every natural key, in the rows the
    session sees and in the rows of the last commit. *)
Definition single_current_table (w : warehouse) : Prop :=
  single_current (working w) /\ single_current (committed w).

(** A property of the committed rows, the rows in sight and the
    sequence holds of the connection, and a computation keeps it. *)
Definition table_holds (I : list row -> list row -> Z -> Prop) (w : warehouse)
  : Prop :=
  I (committed w) (working w) (next_key w).

Definition keeps {A : Type} (I : list row -> list row -> Z -> Prop) (m : M A)
  : Prop :=
  forall w u w', table_holds I w -> m w = (u, w') -> table_holds I w'.

(** Surrogate keys: no two rows share one, every one was drawn from the
    sequence, and the sequence has not gone back below [low]. *)
Definition keys_drawn (nk : Z) (rows : list row) : Prop :=
  NoDup (map surrogate_key rows)
  /\ Forall (fun r => surrogate_key r < nk) rows.

Definition keys_in_order (low : Z) (cm wk : list row) (nk : Z) : Prop :=
  keys_drawn nk cm /\ keys_drawn nk wk /\ low <= nk.

(** The validity interval of a version: open-ended exactly when the
    version is current, and ending after it starts. *)
Definition interval_ok (r : row) : Prop :=
  (is_current r = true <-> valid_to r = None)
  /\ (forall t, valid_to r = Some t -> valid_from r < t).

Definition intervals_ok (cm wk : list row) (nk : Z) : Prop :=
  Forall interval_ok cm /\ Forall interval_ok wk.

(** Every version of [old] is still there, as it was or, when it was
    current, closed. *)
Definition history_kept (old rows : list row) : Prop :=
  forall r, In r old ->
    In r rows \/ (is_current r = true /\ exists ts, In (close_row ts r) rows).

Definition history_of (old : list row) (cm wk : list row) (nk : Z) : Prop :=
  history_kept old cm /\ history_kept old wk.

(** The text has no bar in it. *)
Fixpoint no_bar (s : string) : bool :=
  match s with
  | EmptyString => true
  | String ch rest => negb (Ascii.eqb ch "|") && no_bar rest
  end.

(** * Properties *)

(** ** How the statements act on the connection *)

Lemma same_data_refl w : same_data w w.
Proof. repeat split. Qed.

Lemma same_data_trans w1 w2 w3 :
  same_data w1 w2 -> same_data w2 w3 -> same_data w1 w3.
Proof.
  unfold same_data. intros (A & B & C) (D & E & F).
  repeat split; congruence.
Qed.

Lemma statement_cases w :
  (exists w', statement w = (Ret tt, w') /\ aborted w = false
              /\ aborted w' = false /\ same_data w w'
              /\ faults w' = tl (faults w))
  \/ (exists w', statement w = (Raise Psycopg2Error, w') /\ aborted w' = true
                 /\ same_data w w').
Proof.
  unfold statement. destruct w as [cm wk nk ab fs]; simpl.
  destruct ab.
  - right. eexists. split; [reflexivity|]. simpl. repeat split.
  - destruct fs as [|[|] fs].
    + left. eexists. split; [reflexivity|]. simpl. repeat split.
    + right. eexists. split; [reflexivity|]. simpl. repeat split.
    + left. eexists. split; [reflexivity|]. simpl. repeat split.
Qed.

Lemma statement_aborted w :
  aborted w = true -> statement w = (Raise Psycopg2Error, w).
Proof. unfold statement. intros ->. reflexivity. Qed.

Lemma get_current_record_cases k w :
  (exists w', _get_current_record k w = (Ret (current_row k (working w)), w')
              /\ aborted w = false /\ aborted w' = false /\ same_data w w'
              /\ faults w' = tl (faults w))
  \/ (exists w', _get_current_record k w = (Ret None, w') /\ aborted w' = true
                 /\ same_data w w').
Proof.
  unfold _get_current_record, except_psycopg2, sql_select_current, bind.
  destruct (statement_cases w) as [(w' & E & A & A' & S & F)|(w' & E & A' & S)];
    rewrite E.
  - left. exists w'. destruct S as (S1 & S2 & S3). rewrite S2.
    repeat split; auto.
  - right. exists w'. unfold ret. repeat split; auto; apply S.
Qed.

Lemma get_current_record_aborted k w :
  aborted w = true -> _get_current_record k w = (Ret None, w).
Proof.
  intros A. unfold _get_current_record, except_psycopg2, sql_select_current, bind.
  rewrite (statement_aborted w A). reflexivity.
Qed.

Lemma insert_new_record_aborted c bid w :
  aborted w = true -> _insert_new_record c bid w = (Ret None, w).
Proof.
  intros A. unfold _insert_new_record, except_psycopg2, sql_insert, bind.
  destruct (fromisoformat (ch_cdc_timestamp c));
    rewrite (statement_aborted w A); reflexivity.
Qed.

(** The transitions, one frame at a time. *)
Lemma process_insert_change_eq d c bid w :
  _process_insert_change (S d) c bid w =
  match fromisoformat (ch_cdc_timestamp c) with
  | None => (Raise ValueError, w)
  | Some ts =>
      match _get_current_record (ch_id c) w with
      | (Ret (Some r), w') =>
          if same_instant r c ts && String.eqb (cdc_operation r) "INSERT"
          then (Ret (true, O), w')
          else match _process_update_change d c bid w' with
               | (Ret res, w'') => (Ret (fst res, S (snd res)), w'')
               | (Raise e, w'') => (Raise e, w'')
               end
      | (Ret None, w') =>
          match _insert_new_record c bid w' with
          | (Ret k, w'') => (Ret (truthy k, O), w'')
          | (Raise e, w'') => (Raise e, w'')
          end
      | (Raise e, w') => (Raise e, w')
      end
  end.
Proof.
  simpl. destruct (fromisoformat (ch_cdc_timestamp c)); [|reflexivity].
  unfold bind. destruct (_get_current_record (ch_id c) w) as [[[r|]|e] w'];
    try reflexivity.
  destruct (same_instant r c z && String.eqb (cdc_operation r) "INSERT");
    reflexivity.
Qed.

Lemma process_update_change_eq d c bid w :
  _process_update_change (S d) c bid w =
  match fromisoformat (ch_cdc_timestamp c) with
  | None => (Raise ValueError, w)
  | Some ts =>
      match _get_current_record (ch_id c) w with
      | (Ret None, w') =>
          match _process_insert_change d c bid w' with
          | (Ret res, w'') => (Ret (fst res, S (snd res)), w'')
          | (Raise e, w'') => (Raise e, w'')
          end
      | (Ret (Some r), w') =>
          if has_changes r c
          then match expire_and_insert c ts bid w' with
               | (Ret ok, w'') => (Ret (ok, O), w'')
               | (Raise e, w'') => (Raise e, w'')
               end
          else (Ret (true, O), w')
      | (Raise e, w') => (Raise e, w')
      end
  end.
Proof.
  simpl. destruct (fromisoformat (ch_cdc_timestamp c)); [|reflexivity].
  unfold bind. destruct (_get_current_record (ch_id c) w) as [[[r|]|e] w'];
    try reflexivity.
  destruct (has_changes r c); reflexivity.
Qed.

(** ** The redirections between the two transitions *)

Lemma get_current_record_ret k w :
  exists r w', _get_current_record k w = (Ret r, w').
Proof.
  destruct (get_current_record_cases k w) as [(w' & E & _)|(w' & E & _)];
    rewrite E; eauto.
Qed.

(** A lookup that found nothing finds nothing when it is repeated: the
    row is absent, or the transaction has failed. *)
Lemma lookup_none_stable k w w' :
  _get_current_record k w = (Ret None, w') ->
  exists w'', _get_current_record k w' = (Ret None, w'')
              /\ (aborted w' = true -> w'' = w').
Proof.
  intros E.
  destruct (get_current_record_cases k w') as [(w2 & E2 & A & _ & _)|(w2 & E2 & A2 & _)].
  - destruct (get_current_record_cases k w) as [(w1 & E1 & _ & _ & S & _)|(w1 & E1 & A1 & _)].
    + rewrite E1 in E. injection E as H0 H1. subst w1.
      destruct S as (_ & S & _).
      exists w2. split; [|congruence].
      rewrite E2, S, H0. reflexivity.
    + rewrite E1 in E. injection E as H1. subst w1. congruence.
  - exists w2. split; [exact E2|]. intros A.
    rewrite (get_current_record_aborted k w' A) in E2. congruence.
Qed.

Lemma sql_insert_cases c ts bid w :
  (exists w', sql_insert c ts bid w = (Raise Psycopg2Error, w')
              /\ aborted w' = true /\ same_data w w')
  \/ (exists odate w', sql_insert c ts bid w = (Ret (next_key w), w')
        /\ pg_timestamp (ch_order_date c) = Some odate
        /\ aborted w = false /\ aborted w' = false
        /\ committed w' = committed w
        /\ working w' = working w ++ [new_row (next_key w) c odate ts bid]
        /\ next_key w' = next_key w + 1).
Proof.
  unfold sql_insert, bind.
  destruct (statement_cases w) as [(w1 & E & A & A1 & (S1 & S2 & S3) & F)|(w1 & E & A1 & S)];
    rewrite E.
  - destruct (pg_timestamp (ch_order_date c)) as [odate|] eqn:P.
    + right. exists odate. eexists. rewrite S3, S2. split; [reflexivity|].
      simpl. repeat split; auto.
    + left. eexists. split; [reflexivity|]. simpl. repeat split; auto.
  - left. exists w1. repeat split; auto; apply S.
Qed.

Lemma insert_new_record_ret c bid w :
  exists k w', _insert_new_record c bid w = (Ret k, w').
Proof.
  unfold _insert_new_record, except_psycopg2.
  destruct (fromisoformat (ch_cdc_timestamp c)) as [ts|].
  - unfold bind at 1.
    destruct (sql_insert_cases c ts bid w) as [(w' & E & _)|(od & w' & E & _)];
      rewrite E; unfold ret; eauto.
  - unfold bind, fail_statement.
    destruct (statement_cases w) as [(w' & E & _)|(w' & E & _)];
      rewrite E; unfold ret; eauto.
Qed.

Lemma sql_expire_cases k ts w :
  (exists w', sql_expire k ts w = (Raise Psycopg2Error, w')
              /\ aborted w' = true /\ same_data w w')
  \/ (exists w', sql_expire k ts w
                 = (Ret (option_map surrogate_key (current_row k (working w))), w')
        /\ valid_time_check k ts (working w) = true
        /\ aborted w = false /\ aborted w' = false
        /\ committed w' = committed w
        /\ working w' = expire_rows k ts (working w)
        /\ next_key w' = next_key w).
Proof.
  unfold sql_expire, bind.
  destruct (statement_cases w) as [(w1 & E & A & A1 & (S1 & S2 & S3) & F)|(w1 & E & A1 & S)];
    rewrite E.
  - rewrite S2. destruct (valid_time_check k ts (working w)) eqn:V.
    + right. eexists. split; [reflexivity|]. simpl. repeat split; auto.
    + left. eexists. split; [reflexivity|]. simpl. repeat split; auto.
  - left. exists w1. repeat split; auto; apply S.
Qed.

(** [with connection:] lets out the exceptions of its body and of the
    commit, which are psycopg2's here. *)
Lemma commit_cases w :
  (exists w', commit w = (Ret tt, w') /\ aborted w = false /\ aborted w' = false
              /\ committed w' = working w /\ working w' = working w
              /\ next_key w' = next_key w
              /\ current_unique (working w) = true)
  \/ (exists r w', commit w = (r, w') /\ aborted w' = false
                   /\ committed w' = committed w /\ working w' = committed w
                   /\ next_key w' = next_key w
                   /\ (r = Ret tt \/ r = Raise Psycopg2Error)
                   /\ (r = Ret tt -> aborted w = true)).
Proof.
  unfold commit. destruct (aborted w) eqn:A.
  - right. do 2 eexists. split; [reflexivity|]. simpl. repeat split; auto.
  - destruct ((match faults w with true :: _ => true | _ => false end)
              || negb (current_unique (working w))) eqn:B.
    + right. do 2 eexists. split; [reflexivity|]. simpl. repeat split; auto.
      intros H; discriminate H.
    + left. eexists. split; [reflexivity|]. simpl. repeat split; auto.
      apply orb_false_iff in B. destruct B as [_ B].
      now apply negb_false_iff in B.
Qed.

(** ** Entering the connection *)

Ltac flat :=
  cbn [set_entered committed working next_key aborted faults entered] in *.

Lemma with_connection_refused {A} (body : M A) w :
  entered w = true -> with_connection body w = (Raise Psycopg2Error, w).
Proof. intros E. unfold with_connection. now rewrite E. Qed.

Lemma with_connection_enter {A} (body : M A) w :
  entered w = false ->
  with_connection body w
  = match body (set_entered true w) with
    | (Ret a, w') =>
        match commit (set_entered false w') with
        | (Ret _, w'') => (Ret a, w'')
        | (Raise e, w'') => (Raise e, w'')
        end
    | (Raise e, w') => (Raise e, snd (rollback (set_entered false w')))
    end.
Proof. intros E. unfold with_connection. now rewrite E. Qed.

(** The statements, the commit and the rollback leave the flag alone. *)
Lemma statement_entered w : entered (snd (statement w)) = entered w.
Proof.
  unfold statement. destruct (aborted w); [reflexivity|].
  destruct (faults w) as [|[|] fs]; reflexivity.
Qed.

Lemma sql_insert_entered c ts bid w :
  entered (snd (sql_insert c ts bid w)) = entered w.
Proof.
  unfold sql_insert, bind. pose proof (statement_entered w) as E.
  destruct (statement w) as [[[]|e] w1]; simpl in E; [|exact E].
  destruct (pg_timestamp (ch_order_date c)); exact E.
Qed.

Lemma commit_entered w : entered (snd (commit w)) = entered w.
Proof.
  unfold commit. destruct (aborted w); [reflexivity|].
  destruct ((match faults w with true :: _ => true | _ => false end)
            || negb (current_unique (working w))); reflexivity.
Qed.

Lemma get_current_record_entered k w :
  entered (snd (_get_current_record k w)) = entered w.
Proof.
  unfold _get_current_record, except_psycopg2, sql_select_current, bind.
  pose proof (statement_entered w) as E.
  destruct (statement w) as [[[]|[| | |]] w1]; exact E.
Qed.

Lemma insert_new_record_entered c bid w :
  entered (snd (_insert_new_record c bid w)) = entered w.
Proof.
  unfold _insert_new_record, except_psycopg2.
  destruct (fromisoformat (ch_cdc_timestamp c)) as [ts|].
  - unfold bind at 1. pose proof (sql_insert_entered c ts bid w) as E.
    destruct (sql_insert c ts bid w) as [[k|[| | |]] w1]; exact E.
  - unfold bind, fail_statement. pose proof (statement_entered w) as E.
    destruct (statement w) as [[[]|[| | |]] w1]; exact E.
Qed.

(** What a block that had to be entered leaves behind. *)
Lemma with_connection_cases {A} (body : M A) w :
  entered w = false ->
  exists u1 w1, body (set_entered true w) = (u1, w1)
    /\ ((exists a w', u1 = Ret a
           /\ with_connection body w = (Ret a, w')
           /\ entered w' = false /\ aborted w' = false
           /\ next_key w' = next_key w1
           /\ ((aborted w1 = false /\ current_unique (working w1) = true
                /\ committed w' = working w1 /\ working w' = working w1)
               \/ (aborted w1 = true
                   /\ committed w' = committed w1 /\ working w' = committed w1)))
        \/ (exists e w', with_connection body w = (Raise e, w')
              /\ entered w' = false /\ aborted w' = false
              /\ next_key w' = next_key w1
              /\ committed w' = committed w1 /\ working w' = committed w1
              /\ (u1 = Raise e \/ exists a, u1 = Ret a /\ e = Psycopg2Error))).
Proof.
  intros EN. rewrite (with_connection_enter body w EN).
  destruct (body (set_entered true w)) as [[a|e] w1] eqn:B.
  - exists (Ret a), w1. split; [reflexivity|].
    pose proof (commit_entered (set_entered false w1)) as CE.
    destruct (commit_cases (set_entered false w1))
      as [(w2 & E & A1 & A2 & U1 & U2 & U3 & U4)
         |(r & w2 & E & A2 & U1 & U2 & U3 & [R|R] & RA)];
      rewrite E in *; flat; simpl in CE.
    + left. exists a, w2. do 5 (split; [auto|]). left. repeat split; auto.
    + subst r. left. exists a, w2. do 5 (split; [auto|]). right.
      repeat split; auto.
    + subst r. right. exists Psycopg2Error, w2. do 6 (split; [auto|]).
      right. exists a. auto.
  - exists (Raise e), w1. split; [reflexivity|]. right.
    exists e. eexists. split; [reflexivity|]. simpl.
    do 5 (split; [reflexivity|]). left. reflexivity.
Qed.

Lemma sql_expire_only_psycopg2 k ts : only_psycopg2 (sql_expire k ts).
Proof.
  intros w e w' H.
  destruct (sql_expire_cases k ts w) as [(w1 & E & _)|(w1 & E & _)];
    rewrite E in H; congruence.
Qed.

Lemma sql_insert_only_psycopg2 c ts bid : only_psycopg2 (sql_insert c ts bid).
Proof.
  intros w e w' H.
  destruct (sql_insert_cases c ts bid w) as [(w1 & E & _)|(od & w1 & E & _)];
    rewrite E in H; congruence.
Qed.

Lemma bind_only_psycopg2 {A B} (m : M A) (f : A -> M B) :
  only_psycopg2 m -> (forall a, only_psycopg2 (f a)) -> only_psycopg2 (bind m f).
Proof.
  intros PM PF w e w'. unfold bind.
  destruct (m w) as [[a|e1] w1] eqn:E.
  - apply PF.
  - intros H. inversion H; subst. exact (PM _ _ _ E).
Qed.

Lemma ret_only_psycopg2 {A} (a : A) : only_psycopg2 (ret a).
Proof. intros w e w' H. discriminate H. Qed.

Lemma with_connection_only_psycopg2 {A} (body : M A) :
  only_psycopg2 body -> only_psycopg2 (with_connection body).
Proof.
  intros PB w e w' H. destruct (entered w) eqn:EN.
  - rewrite (with_connection_refused body w EN) in H. congruence.
  - destruct (with_connection_cases body w EN)
      as (u1 & w1 & B & [(a & w2 & _ & E & _)|(e2 & w2 & E & _ & _ & _ & _ & _ & K)]);
      rewrite E in H; [discriminate|].
    inversion H; subst.
    destruct K as [K|(a & _ & K)]; [|exact K].
    subst u1. exact (PB _ _ _ B).
Qed.

Lemma expire_pair_only_psycopg2 c ts bid :
  only_psycopg2
    (expired <- sql_expire (ch_id c) ts ;;
     match expired with
     | None => ret false
     | Some _ => sql_insert c ts bid ;;; ret true
     end).
Proof.
  apply bind_only_psycopg2; [apply sql_expire_only_psycopg2|].
  intros [k|]; [|apply ret_only_psycopg2].
  apply bind_only_psycopg2; [apply sql_insert_only_psycopg2|].
  intros _. apply ret_only_psycopg2.
Qed.

Lemma expire_and_insert_ret c ts bid w :
  exists ok w', expire_and_insert c ts bid w = (Ret ok, w').
Proof.
  unfold expire_and_insert, except_psycopg2.
  destruct (with_connection _ w) as [[ok|e] w1] eqn:W; [eauto|].
  rewrite (with_connection_only_psycopg2 _ (expire_pair_only_psycopg2 c ts bid)
             _ _ _ W).
  unfold bind, rollback, ret. simpl. eauto.
Qed.

(** From a state in which the lookup has just found nothing, the INSERT
    transition inserts without a further redirection. *)
Lemma insert_after_none d c bid ts w0 w :
  fromisoformat (ch_cdc_timestamp c) = Some ts ->
  _get_current_record (ch_id c) w0 = (Ret None, w) ->
  exists k w', _process_insert_change (S d) c bid w = (Ret (truthy k, O), w').
Proof.
  intros T E. rewrite process_insert_change_eq, T.
  destruct (lookup_none_stable _ _ _ E) as (w1 & E1 & _). rewrite E1.
  destruct (insert_new_record_ret c bid w1) as (k & w2 & E2). rewrite E2.
  eauto.
Qed.

Lemma update_depth d c bid w :
  _process_update_change (2 + d) c bid w = _process_update_change 2 c bid w.
Proof.
  change (2 + d)%nat with (S (S d)).
  rewrite !process_update_change_eq.
  destruct (fromisoformat (ch_cdc_timestamp c)) as [ts|] eqn:T; [|reflexivity].
  destruct (_get_current_record (ch_id c) w) as [[[r|]|e] w1] eqn:E; try reflexivity.
  destruct (insert_after_none d c bid ts w w1 T E) as (k & w2 & E2).
  destruct (insert_after_none 0 c bid ts w w1 T E) as (k' & w2' & E2').
  rewrite !process_insert_change_eq in *. rewrite T in *.
  destruct (lookup_none_stable _ _ _ E) as (w3 & E3 & _). rewrite E3 in *.
  reflexivity.
Qed.

Lemma update_redirections c bid w :
  exists u w', _process_update_change 2 c bid w = (u, w')
    /\ u <> Raise RecursionError
    /\ forall b n, u = Ret (b, n) -> (n <= 1)%nat.
Proof.
  rewrite process_update_change_eq.
  destruct (fromisoformat (ch_cdc_timestamp c)) as [ts|] eqn:T.
  2:{ do 2 eexists. split; [reflexivity|]. split; [discriminate|].
      intros b n H; discriminate H. }
  destruct (get_current_record_ret (ch_id c) w) as ([r|] & w1 & E); rewrite E.
  - destruct (has_changes r c).
    + destruct (expire_and_insert_ret c ts bid w1) as (ok & w2 & E2). rewrite E2.
      do 2 eexists. split; [reflexivity|]. split; [discriminate|].
      intros b n H. inversion H. lia.
    + do 2 eexists. split; [reflexivity|]. split; [discriminate|].
      intros b n H. inversion H. lia.
  - destruct (insert_after_none 0 c bid ts w w1 T E) as (k & w2 & E2).
    rewrite E2. do 2 eexists. split; [reflexivity|]. split; [discriminate|].
    intros b n H. inversion H. simpl. lia.
Qed.

Lemma insert_depth d c bid w :
  _process_insert_change (3 + d) c bid w = _process_insert_change 3 c bid w.
Proof.
  change (3 + d)%nat with (S (2 + d)). change 3%nat with (S 2).
  rewrite !process_insert_change_eq.
  destruct (fromisoformat (ch_cdc_timestamp c)) as [ts|]; [|reflexivity].
  destruct (_get_current_record (ch_id c) w) as [[[r|]|e] w1]; try reflexivity.
  rewrite update_depth. reflexivity.
Qed.

Lemma insert_redirections c bid w :
  exists u w', _process_insert_change 3 c bid w = (u, w')
    /\ u <> Raise RecursionError
    /\ forall b n, u = Ret (b, n) -> (n <= 2)%nat.
Proof.
  rewrite process_insert_change_eq.
  destruct (fromisoformat (ch_cdc_timestamp c)) as [ts|] eqn:T.
  2:{ do 2 eexists. split; [reflexivity|]. split; [discriminate|].
      intros b n H; discriminate H. }
  destruct (get_current_record_ret (ch_id c) w) as ([r|] & w1 & E); rewrite E.
  - destruct (same_instant r c ts && String.eqb (cdc_operation r) "INSERT").
    + do 2 eexists. split; [reflexivity|]. split; [discriminate|].
      intros b n H. inversion H. lia.
    + destruct (update_redirections c bid w1) as (u & w2 & E2 & NR & B).
      rewrite E2. destruct u as [[b n]|e].
      * do 2 eexists. split; [reflexivity|]. split; [discriminate|].
        intros b' n' H. inversion H. simpl. specialize (B b n eq_refl). lia.
      * do 2 eexists. split; [reflexivity|]. split; [congruence|].
        intros b' n' H; discriminate H.
  - destruct (insert_new_record_ret c bid w1) as (k & w2 & E2). rewrite E2.
    do 2 eexists. split; [reflexivity|]. split; [discriminate|].
    intros b n H. inversion H. lia.
Qed.

Lemma get_current_record_fault_free k w :
  fault_free w ->
  exists w', _get_current_record k w = (Ret (current_row k (working w)), w')
             /\ fault_free w' /\ same_data w w'.
Proof.
  intros (A & F).
  destruct (get_current_record_cases k w) as [(w' & E & _ & A' & S & F')|(w' & E & A' & S)].
  - exists w'. repeat split; try apply S; auto.
    rewrite F'. intros H. apply F. destruct (faults w); [exact H|right; exact H].
  - exfalso. revert E A'.
    unfold _get_current_record, except_psycopg2, sql_select_current, bind, statement.
    rewrite A. destruct (faults w) as [|[|] fs].
    + intros E; inversion E; subst. congruence.
    + exfalso. apply F. now left.
    + intros E; inversion E; subst. simpl. congruence.
Qed.

Lemma insert_redirections_fault_free c bid w :
  fault_free w ->
  forall b n w', _process_insert_change 3 c bid w = (Ret (b, n), w') ->
                 (n <= 1)%nat.
Proof.
  intros FF b n w'. rewrite process_insert_change_eq.
  destruct (fromisoformat (ch_cdc_timestamp c)) as [ts|] eqn:T; [|discriminate].
  destruct (get_current_record_fault_free (ch_id c) w FF) as (w1 & E & FF1 & S).
  rewrite E. destruct (current_row (ch_id c) (working w)) as [r|] eqn:C.
  - destruct (same_instant r c ts && String.eqb (cdc_operation r) "INSERT").
    + intros H; inversion H. lia.
    + rewrite process_update_change_eq, T.
      destruct (get_current_record_fault_free (ch_id c) w1 FF1) as (w2 & E2 & FF2 & S2).
      rewrite E2. destruct S as (_ & S & _). rewrite S, C.
      destruct (has_changes r c).
      * destruct (expire_and_insert_ret c ts bid w2) as (ok & w3 & E3). rewrite E3.
        intros H; inversion H. simpl. lia.
      * intros H; inversion H. simpl. lia.
  - destruct (insert_new_record_ret c bid w1) as (k & w2 & E2). rewrite E2.
    intros H; inversion H. lia.
Qed.

(** A lookup that answers "no current row" for a key that has one has
    failed. *)
Lemma lookup_none_fails k w w' :
  _get_current_record k w = (Ret None, w') ->
  current_row k (working w) <> None ->
  lookup_fails k w.
Proof.
  unfold lookup_fails, _get_current_record, except_psycopg2,
    sql_select_current, bind.
  destruct (statement_cases w) as [(w1 & E & _ & _ & (_ & S & _) & _)|(w1 & E & _)];
    rewrite E; [|reflexivity].
  rewrite S. intros H N. inversion H. congruence.
Qed.

Lemma lookup_some_found k w r w' :
  _get_current_record k w = (Ret (Some r), w') ->
  current_row k (working w') = Some r.
Proof.
  intros H.
  destruct (get_current_record_cases k w)
    as [(w1 & E & _ & _ & (_ & S & _) & _)|(w1 & E & _)];
    rewrite E in H; inversion H; subst. now rewrite S.
Qed.

Lemma insert_redirected_twice_only c bid w b w' :
  _process_insert_change 3 c bid w = (Ret (b, 2%nat), w') ->
  exists cur w1,
    _get_current_record (ch_id c) w = (Ret (Some cur), w1)
    /\ lookup_fails (ch_id c) w1.
Proof.
  rewrite process_insert_change_eq.
  destruct (fromisoformat (ch_cdc_timestamp c)) as [ts|] eqn:T; [|discriminate].
  destruct (_get_current_record (ch_id c) w) as [[[r|]|e] w1] eqn:E;
    [| |discriminate].
  - destruct (same_instant r c ts && String.eqb (cdc_operation r) "INSERT");
      [discriminate|].
    intros H. exists r, w1. split; [reflexivity|].
    revert H. rewrite process_update_change_eq, T.
    destruct (_get_current_record (ch_id c) w1) as [[[r2|]|e] w2] eqn:E2.
    + destruct (has_changes r2 c).
      * destruct (expire_and_insert_ret c ts bid w2) as (ok & w3 & E3).
        rewrite E3. discriminate.
      * discriminate.
    + intros _. apply (lookup_none_fails _ _ _ E2).
      rewrite (lookup_some_found _ _ _ _ E). discriminate.
    + discriminate.
  - destruct (insert_new_record_ret c bid w1) as (k & w2 & E2). rewrite E2.
    discriminate.
Qed.

(** C10 (as amended).  The redirection between the two transitions
    terminates for every change record and every state of the
    connection: the result at any depth of three frames or more, the
    interpreter's limit included, is the result at depth three, it is
    never a [RecursionError], an INSERT is redirected at most twice and
    an UPDATE at most once.  An INSERT is redirected twice only when the
    lookup of the INSERT transition finds a current row and the lookup
    of the UPDATE transition, in the state that the first one leaves,
    fails; so at most one redirection occurs when no lookup fails. *)
Theorem redirections_bounded (d : nat) (c : change) (bid : string) (w : warehouse) :
  _process_insert_change (3 + d) c bid w = _process_insert_change 3 c bid w
  /\ _process_update_change (2 + d) c bid w = _process_update_change 2 c bid w
  /\ _process_insert_change recursion_limit c bid w = _process_insert_change 3 c bid w
  /\ _process_update_change recursion_limit c bid w = _process_update_change 2 c bid w
  /\ (exists u w', _process_insert_change 3 c bid w = (u, w')
        /\ u <> Raise RecursionError
        /\ forall b n, u = Ret (b, n) ->
             (n <= 2)%nat
             /\ (n = 2%nat ->
                 exists cur w1,
                   _get_current_record (ch_id c) w = (Ret (Some cur), w1)
                   /\ lookup_fails (ch_id c) w1)
             /\ (fault_free w -> (n <= 1)%nat))
  /\ (exists u w', _process_update_change 2 c bid w = (u, w')
        /\ u <> Raise RecursionError
        /\ forall b n, u = Ret (b, n) -> (n <= 1)%nat).
Proof.
  split; [apply insert_depth|].
  split; [apply update_depth|].
  split; [exact (insert_depth 997 c bid w)|].
  split; [exact (update_depth 998 c bid w)|].
  split; [|apply update_redirections].
  destruct (insert_redirections c bid w) as (u & w' & E & NR & B).
  exists u, w'. split; [exact E|]. split; [exact NR|].
  intros b n H. split; [eapply B; eauto|]. split.
  - intros N. subst u n. exact (insert_redirected_twice_only c bid w b w' E).
  - intros FF. subst u. eapply insert_redirections_fault_free; eauto.
Qed.

(** ** Counting current rows *)

Lemma count_current_app k l1 l2 :
  count_current k (l1 ++ l2) = (count_current k l1 + count_current k l2)%nat.
Proof. unfold count_current. now rewrite filter_app, length_app. Qed.

Lemma current_of_close k ts r : current_of k (close_row ts r) = false.
Proof. unfold current_of, close_row. simpl. apply andb_false_r. Qed.

Lemma count_current_expire k ts l : count_current k (expire_rows k ts l) = O.
Proof.
  unfold count_current, expire_rows. induction l as [|r l IH]; simpl; auto.
  destruct (current_of k r) eqn:C.
  - rewrite current_of_close. exact IH.
  - rewrite C. exact IH.
Qed.

Lemma current_of_other k k' r :
  k <> k' -> current_of k r = true -> current_of k' r = false.
Proof.
  unfold current_of. intros N H. apply andb_true_iff in H. destruct H as [H _].
  apply Z.eqb_eq in H. destruct (order_key r =? k') eqn:E; auto.
  apply Z.eqb_eq in E. congruence.
Qed.

Lemma count_current_expire_other k k' ts l :
  k <> k' -> count_current k' (expire_rows k ts l) = count_current k' l.
Proof.
  intros N. unfold count_current, expire_rows.
  induction l as [|r l IH]; simpl; auto.
  destruct (current_of k r) eqn:C.
  - rewrite current_of_close, (current_of_other k k' r N C). exact IH.
  - destruct (current_of k' r); simpl; now rewrite IH.
Qed.

Lemma count_current_new_row k key c od ts bid :
  count_current k [new_row key c od ts bid]
  = if ch_id c =? k then 1%nat else O.
Proof.
  unfold count_current, current_of, new_row. simpl.
  rewrite andb_true_r. destruct (ch_id c =? k); reflexivity.
Qed.

Lemma current_row_none_count k l :
  current_row k l = None <-> count_current k l = O.
Proof.
  unfold current_row, count_current. induction l as [|r l IH]; simpl.
  - split; reflexivity.
  - destruct (current_of k r); simpl; [split; discriminate|exact IH].
Qed.

Lemma current_row_some_count k l r :
  current_row k l = Some r -> (1 <= count_current k l)%nat.
Proof.
  intros H. destruct (count_current k l) eqn:C; [|lia].
  apply current_row_none_count in C. congruence.
Qed.

Lemma current_row_some_current k l r :
  current_row k l = Some r -> order_key r = k /\ is_current r = true /\ In r l.
Proof.
  unfold current_row. intros H. apply find_some in H. destruct H as [I H].
  unfold current_of in H. apply andb_true_iff in H. destruct H as [H1 H2].
  apply Z.eqb_eq in H1. auto.
Qed.

(** ** The UPDATE transition on a key that has a current row *)


(** From a failed transaction both transitions give up and leave the
    data alone. *)
Lemma insert_change_aborted d c bid w :
  aborted w = true ->
  exists u, _process_insert_change d c bid w = (u, w).
Proof.
  intros A. destruct d as [|d]; [simpl; unfold raise; eauto|].
  rewrite process_insert_change_eq.
  destruct (fromisoformat (ch_cdc_timestamp c)); [|eauto].
  rewrite (get_current_record_aborted _ _ A), (insert_new_record_aborted _ _ _ A).
  eauto.
Qed.


(** The body of the [try] block of the UPDATE transition. *)
Lemma expire_pair_cases c ts bid w :
  current_row (ch_id c) (working w) <> None ->
  (exists w1,
     (expired <- sql_expire (ch_id c) ts ;;
      match expired with
      | None => ret false
      | Some _ => sql_insert c ts bid ;;; ret true
      end) w = (Raise Psycopg2Error, w1)
     /\ committed w1 = committed w)
  \/ (exists odate w1,
        (expired <- sql_expire (ch_id c) ts ;;
         match expired with
         | None => ret false
         | Some _ => sql_insert c ts bid ;;; ret true
         end) w = (Ret true, w1)
        /\ pg_timestamp (ch_order_date c) = Some odate
        /\ valid_time_check (ch_id c) ts (working w) = true
        /\ aborted w = false /\ aborted w1 = false
        /\ committed w1 = committed w
        /\ working w1 = expire_rows (ch_id c) ts (working w)
                        ++ [new_row (next_key w) c odate ts bid]
        /\ next_key w1 = next_key w + 1).
Proof.
  intros C. unfold bind at 1 3.
  destruct (sql_expire_cases (ch_id c) ts w)
    as [(w1 & E & A1 & (S1 & S2 & S3))|(w1 & E & V & A & A1 & S1 & S2 & S3)];
    rewrite E.
  - left. exists w1. split; [reflexivity|exact S1].
  - destruct (current_row (ch_id c) (working w)) as [cur|] eqn:CR; [|congruence].
    change (option_map surrogate_key (Some cur)) with (Some (surrogate_key cur)).
    cbv iota. unfold bind.
    destruct (sql_insert_cases c ts bid w1)
      as [(w2 & E2 & A2 & (T1 & T2 & T3))|(od & w2 & E2 & P & _ & A2 & T1 & T2 & T3)];
      rewrite E2.
    + left. exists w2. split; [reflexivity|congruence].
    + right. exists od, w2. unfold ret. split; [reflexivity|].
      split; [exact P|]. split; [exact V|]. split; [exact A|].
      split; [exact A2|]. split; [congruence|]. split; [|lia].
      rewrite T2, S2, S3. reflexivity.
Qed.

(** The two ends of the [try] block of the UPDATE transition. *)
Lemma expire_and_insert_cases (c : change) (ts : Z) (bid : string) (w : warehouse) :
  current_row (ch_id c) (working w) <> None ->
  exists ok w',
    expire_and_insert c ts bid w = (Ret ok, w')
    /\ aborted w' = false
    /\ committed w' = working w'
    /\ ((ok = true
         /\ (exists odate,
               pg_timestamp (ch_order_date c) = Some odate
               /\ working w' = expire_rows (ch_id c) ts (working w)
                               ++ [new_row (next_key w) c odate ts bid])
         /\ count_current (ch_id c) (working w') = 1%nat)
        \/ (ok = false
            /\ working w' = committed w
            /\ forall cur, current_row (ch_id c) (committed w) = Some cur ->
                           current_row (ch_id c) (working w') = Some cur)).
Proof.
  intros C.
  assert (FAIL : forall w1 : warehouse, committed w1 = committed w ->
    exists ok w',
      (Ret false, snd (rollback w1)) = (Ret ok, w')
      /\ aborted w' = false /\ committed w' = working w'
      /\ ((ok = true
           /\ (exists odate,
                 pg_timestamp (ch_order_date c) = Some odate
                 /\ working w' = expire_rows (ch_id c) ts (working w)
                                 ++ [new_row (next_key w) c odate ts bid])
           /\ count_current (ch_id c) (working w') = 1%nat)
          \/ (ok = false /\ working w' = committed w
              /\ forall cur, current_row (ch_id c) (committed w) = Some cur ->
                             current_row (ch_id c) (working w') = Some cur))).
  { intros w1 CM. do 2 eexists. split; [reflexivity|]. simpl.
    split; [reflexivity|]. split; [reflexivity|]. right.
    split; [reflexivity|]. split; [exact CM|]. rewrite CM. auto. }
  unfold expire_and_insert, except_psycopg2.
  destruct (entered w) eqn:EN.
  { rewrite (with_connection_refused _ w EN).
    unfold bind, rollback, ret. apply (FAIL w eq_refl). }
  destruct (with_connection_cases
              (expired <- sql_expire (ch_id c) ts ;;
               match expired with
               | None => ret false
               | Some _ => sql_insert c ts bid ;;; ret true
               end) w EN)
    as (u1 & w1 & B & [(a & w2 & U & E & EN2 & A2 & NK & K)
                      |(e & w2 & E & EN2 & A2 & NK & CM & WK & K)]);
    rewrite E.
  - subst u1.
    destruct (expire_pair_cases c ts bid (set_entered true w) C)
      as [(w3 & B3 & _)|(od & w3 & B3 & P & V & A & A3 & S1 & S2 & S3)];
      rewrite B3 in B; [discriminate|].
    injection B as <- <-. flat.
    destruct K as [(_ & _ & K1 & K2)|(K & _)]; [|congruence].
    exists true, w2. split; [reflexivity|]. split; [exact A2|].
    split; [congruence|]. left. split; [reflexivity|].
    assert (W : working w2 = expire_rows (ch_id c) ts (working w)
                             ++ [new_row (next_key w) c od ts bid])
      by congruence.
    split; [exists od; auto|].
    rewrite W, count_current_app, count_current_expire,
      count_current_new_row, Z.eqb_refl. reflexivity.
  - assert (CW : committed w2 = committed w).
    { destruct (expire_pair_cases c ts bid (set_entered true w) C)
        as [(w3 & B3 & S)|(od & w3 & B3 & _ & _ & _ & _ & S & _)];
        rewrite B3 in B; injection B as <- <-; flat; congruence. }
    assert (EP : e = Psycopg2Error).
    { destruct K as [K|(a & _ & K)]; [|exact K]. subst u1.
      exact (expire_pair_only_psycopg2 c ts bid _ _ _ B). }
    subst e. unfold bind, rollback, ret. apply (FAIL w2 CW).
Qed.

(** C3.  The [try] block of the UPDATE transition, on a key that has a
    current row, ends in one of two ways whatever fails in it.  Either
    it reports success, and both halves are committed together: the
    current row is closed, the new row is inserted and the key has
    exactly one current row.  Or it reports failure, and neither half
    remains: the rows are those of the last commit, so a current row
    that was committed is still the current row. *)
Theorem update_pair_atomic (c : change) (ts : Z) (bid : string) (w : warehouse) :
  current_row (ch_id c) (working w) <> None ->
  exists ok w',
    expire_and_insert c ts bid w = (Ret ok, w')
    /\ aborted w' = false
    /\ committed w' = working w'
    /\ ((ok = true
         /\ (exists odate,
               pg_timestamp (ch_order_date c) = Some odate
               /\ working w' = expire_rows (ch_id c) ts (working w)
                               ++ [new_row (next_key w) c odate ts bid])
         /\ count_current (ch_id c) (working w') = 1%nat)
        \/ (ok = false
            /\ working w' = committed w
            /\ forall cur, current_row (ch_id c) (committed w) = Some cur ->
                           current_row (ch_id c) (working w') = Some cur)).
Proof. exact (expire_and_insert_cases c ts bid w). Qed.

(** ** The order of texts, and the last element of a stable sort *)

Lemma str_le_total a b : Py.str_le a b = true \/ Py.str_le b a = true.
Proof. apply String.leb_total. Qed.

Lemma ascii_compare_lt_trans x y z :
  Ascii.compare x y = Lt -> Ascii.compare y z = Lt -> Ascii.compare x z = Lt.
Proof.
  unfold Ascii.compare. rewrite !N.compare_lt_iff. apply N.lt_trans.
Qed.

Lemma str_compare_trans a : forall b c,
  String.compare a b <> Gt -> String.compare b c <> Gt ->
  String.compare a c <> Gt.
Proof.
  induction a as [|x a IH]; intros [|y b] [|z c]; simpl; try congruence.
  destruct (Ascii.compare x y) eqn:XY; try congruence.
  - apply Ascii.compare_eq_iff in XY. subst y.
    destruct (Ascii.compare x z) eqn:XZ; try congruence. apply IH.
  - destruct (Ascii.compare y z) eqn:YZ; try congruence.
    + apply Ascii.compare_eq_iff in YZ. subst z. rewrite XY. congruence.
    + rewrite (ascii_compare_lt_trans x y z XY YZ). congruence.
Qed.

Lemma str_le_trans a b c :
  Py.str_le a b = true -> Py.str_le b c = true -> Py.str_le a c = true.
Proof.
  unfold Py.str_le, String.leb. intros H1 H2.
  assert (N1 : String.compare a b <> Gt)
    by (destruct (String.compare a b); congruence).
  assert (N2 : String.compare b c <> Gt)
    by (destruct (String.compare b c); congruence).
  pose proof (str_compare_trans a b c N1 N2) as N3.
  destruct (String.compare a c); congruence.
Qed.

Section SortFacts.
Context {A K : Type} (le : K -> K -> bool) (key : A -> K).
Hypothesis le_total : forall a b, le a b = true \/ le b a = true.
Hypothesis le_trans :
  forall a b c, le a b = true -> le b c = true -> le a c = true.

Let below (x y : A) : Prop := le (key x) (key y) = true.

Lemma insert_by_In x y l :
  In y (Py.insert_by le key x l) <-> y = x \/ In y l.
Proof.
  induction l as [|z l IH]; simpl.
  - intuition.
  - destruct (le (key x) (key z)); simpl; [intuition|].
    rewrite IH. intuition.
Qed.

Lemma sort_by_In y l : In y (Py.sort_by le key l) <-> In y l.
Proof.
  induction l as [|x l IH]; simpl; [tauto|].
  rewrite insert_by_In, IH. intuition.
Qed.

Lemma insert_by_sorted x l :
  StronglySorted below l -> StronglySorted below (Py.insert_by le key x l).
Proof.
  induction 1 as [|z l S IH F]; simpl.
  - repeat constructor.
  - destruct (le (key x) (key z)) eqn:E.
    + constructor; [constructor; auto|].
      constructor; [exact E|].
      eapply Forall_impl; [|exact F]. intros a H. unfold below in *.
      eapply le_trans; eauto.
    + constructor; [exact IH|].
      apply Forall_forall. intros a H. apply insert_by_In in H.
      destruct H as [->|H].
      * destruct (le_total (key z) (key x)) as [T|T]; [exact T|congruence].
      * rewrite Forall_forall in F. auto.
Qed.

Lemma sort_by_sorted l : StronglySorted below (Py.sort_by le key l).
Proof.
  induction l; simpl; [constructor|now apply insert_by_sorted].
Qed.

Lemma sorted_head_below_last z l d :
  StronglySorted below (z :: l) -> l <> [] -> below z (last (z :: l) d).
Proof.
  intros S N. inversion S as [|? ? _ F]; subst.
  rewrite Forall_forall in F. apply F.
  assert (L : last (z :: l) d = last l d) by (destruct l; [congruence|reflexivity]).
  rewrite L. destruct l as [|a l]; [congruence|].
  clear. revert a. induction l as [|b l IH]; intros a; simpl.
  - now left.
  - right. apply IH.
Qed.

Lemma last_insert_by x l d :
  l <> [] -> StronglySorted below l ->
  last (Py.insert_by le key x l) d
  = if le (key x) (key (last l d)) then last l d else x.
Proof.
  induction l as [|z l IH]; intros N S; [congruence|].
  destruct l as [|y l].
  - simpl. destruct (le (key x) (key z)); reflexivity.
  - assert (IH' := IH ltac:(discriminate)
                      ltac:(inversion S; assumption)).
    change (Py.insert_by le key x (z :: y :: l))
      with (if le (key x) (key z) then x :: z :: y :: l
            else z :: Py.insert_by le key x (y :: l)).
    destruct (le (key x) (key z)) eqn:E.
    + assert (B : below z (last (z :: y :: l) d))
        by (apply sorted_head_below_last; [exact S|discriminate]).
      unfold below in B. rewrite (le_trans _ _ _ E B). reflexivity.
    + assert (NE : Py.insert_by le key x (y :: l) <> []).
      { simpl. destruct (le (key x) (key y)); discriminate. }
      transitivity (last (Py.insert_by le key x (y :: l)) d).
      * destruct (Py.insert_by le key x (y :: l)); [congruence|reflexivity].
      * rewrite IH'. reflexivity.
Qed.

(** The last element after the sort is the latest element of the
    list by its key, and among equal keys the one that comes last. *)
Lemma last_sort_by_latest x l :
  exists before after,
    x :: l = before ++ last (Py.sort_by le key (x :: l)) x :: after
    /\ Forall (fun a => below a (last (Py.sort_by le key (x :: l)) x)) before
    /\ Forall (fun a => le (key (last (Py.sort_by le key (x :: l)) x)) (key a)
                        = false) after.
Proof.
  revert x. induction l as [|y l IH]; intros x.
  - exists [], []. simpl. repeat split; constructor.
  - destruct (IH y) as (b & a & E & B & F).
    set (m := last (Py.sort_by le key (y :: l)) y) in *.
    assert (NE : Py.sort_by le key (y :: l) <> []).
    { intros H. assert (I : In y (Py.sort_by le key (y :: l)))
        by (apply sort_by_In; now left). rewrite H in I. destruct I. }
    assert (L : last (Py.sort_by le key (x :: y :: l)) x
                = if le (key x) (key m) then m else x).
    { change (Py.sort_by le key (x :: y :: l))
        with (Py.insert_by le key x (Py.sort_by le key (y :: l))).
      rewrite (last_insert_by x _ x NE (sort_by_sorted _)).
      assert (M : last (Py.sort_by le key (y :: l)) x = m).
      { unfold m. destruct (Py.sort_by le key (y :: l)) as [|h t];
          [congruence|]. clear. revert h. induction t as [|h' t IHt]; intros h.
        - reflexivity.
        - change (last (h :: h' :: t) x) with (last (h' :: t) x).
          change (last (h :: h' :: t) y) with (last (h' :: t) y). apply IHt. }
      rewrite M. reflexivity. }
    rewrite L. destruct (le (key x) (key m)) eqn:C.
    + exists (x :: b), a. rewrite E. repeat split; auto.
    + exists [], (y :: l). split; [reflexivity|]. split; [constructor|].
      apply Forall_forall. intros c I.
      destruct (le (key x) (key c)) eqn:XC; [|reflexivity].
      assert (CM : le (key c) (key m) = true).
      { rewrite E in I. apply in_app_or in I. destruct I as [I|[I|I]].
        - rewrite Forall_forall in B. apply B, I.
        - subst c. destruct (le_total (key m) (key m)); assumption.
        - rewrite Forall_forall in F. specialize (F c I).
          destruct (le_total (key c) (key m)); [assumption|congruence]. }
      rewrite (le_trans _ _ _ XC CM) in C. discriminate C.
Qed.
Lemma insert_by_front x l :
  Forall (fun a => below x a) l -> Py.insert_by le key x l = x :: l.
Proof.
  intros F. destruct l as [|y l]; [reflexivity|].
  inversion F as [|? ? B _]; subst. unfold below in B. simpl.
  now rewrite B.
Qed.

Lemma filter_insert_by p x l :
  StronglySorted below l ->
  filter p (Py.insert_by le key x l)
  = if p x then Py.insert_by le key x (filter p l) else filter p l.
Proof.
  induction 1 as [|y l S IH F]; simpl.
  - destruct (p x); reflexivity.
  - destruct (le (key x) (key y)) eqn:E; simpl.
    + destruct (p x) eqn:PX; [|reflexivity].
      destruct (p y) eqn:PY; simpl; [now rewrite E|].
      symmetry. apply insert_by_front. apply Forall_forall.
      intros a I. apply filter_In in I. destruct I as [I _].
      rewrite Forall_forall in F. unfold below in *.
      eapply le_trans; [exact E|]. now apply F.
    + destruct (p y) eqn:PY; rewrite IH.
      * destruct (p x); simpl; [now rewrite E|reflexivity].
      * reflexivity.
Qed.

Lemma filter_sort_by p l :
  filter p (Py.sort_by le key l) = Py.sort_by le key (filter p l).
Proof.
  induction l as [|x l IH]; simpl; [reflexivity|].
  rewrite filter_insert_by by apply sort_by_sorted.
  rewrite IH. destruct (p x); reflexivity.
Qed.
End SortFacts.

(** ** Grouping by order and the effective changes *)

Lemma add_change_keys c gs :
  forall k, In k (map fst (add_change c gs)) <-> k = ch_id c \/ In k (map fst gs).
Proof.
  induction gs as [|[k0 g0] gs IH]; intros k; simpl.
  - split; [intros [H|[]]; left; congruence|intros [H|[]]; left; congruence].
  - destruct (k0 =? ch_id c) eqn:E; simpl.
    + apply Z.eqb_eq in E. split.
      * intros [H|H]; [left; congruence|right; right; exact H].
      * intros [H|[H|H]]; [left; congruence|left; exact H|right; exact H].
    + rewrite IH. split.
      * intros [H|[H|H]]; [right; left; exact H|left; exact H|right; right; exact H].
      * intros [H|[H|H]]; [right; left; exact H|left; exact H|right; right; exact H].
Qed.

Lemma add_change_NoDup c gs :
  NoDup (map fst gs) -> NoDup (map fst (add_change c gs)).
Proof.
  induction gs as [|[k0 g0] gs IH]; simpl; intros N.
  - constructor; [intros []|constructor].
  - inversion N as [|? ? NI N']; subst.
    destruct (k0 =? ch_id c) eqn:E; simpl.
    + constructor; assumption.
    + constructor; [|auto]. rewrite add_change_keys. intros [H|H]; [|auto].
      apply Z.eqb_neq in E. congruence.
Qed.

Lemma add_change_In c gs k g :
  NoDup (map fst gs) -> In (k, g) (add_change c gs) ->
  (k <> ch_id c /\ In (k, g) gs)
  \/ (k = ch_id c
      /\ ((g = [c] /\ ~ In k (map fst gs))
          \/ exists g0, In (k, g0) gs /\ g = g0 ++ [c])).
Proof.
  induction gs as [|[k0 g0] gs IH]; simpl; intros N I.
  - destruct I as [I|[]]. inversion I; subst. right. split; auto.
  - inversion N as [|? ? NI N']; subst.
    destruct (k0 =? ch_id c) eqn:E.
    + apply Z.eqb_eq in E. destruct I as [I|I].
      * inversion I; subst. right. split; [reflexivity|]. right.
        exists g0. split; [now left|reflexivity].
      * left. split; [|now right]. intros ->. apply NI.
        rewrite E. apply (in_map fst _ _ I).
    + apply Z.eqb_neq in E. destruct I as [I|I].
      * inversion I; subst. left. split; [exact E|now left].
      * destruct (IH N' I) as [(D & J)|(D & [(G & NJ)|(g1 & J & G)])].
        -- left. split; [exact D|now right].
        -- right. split; [exact D|]. left. split; [exact G|].
           intros [H|H]; [congruence|auto].
        -- right. split; [exact D|]. right. exists g1. split; [now right|exact G].
Qed.

Lemma groups_of_add seen gs c :
  groups_of seen gs -> groups_of (seen ++ [c]) (add_change c gs).
Proof.
  intros (N & G & C). split; [now apply add_change_NoDup|]. split.
  - intros k g I. rewrite filter_app. simpl.
    destruct (add_change_In c gs k g N I) as [(D & J)|(D & [(E & NJ)|(g1 & J & E)])].
    + destruct (G k g J) as (E & NE).
      assert (F : (ch_id c =? k) = false) by (apply Z.eqb_neq; congruence).
      rewrite F, app_nil_r. auto.
    + subst k g. rewrite Z.eqb_refl.
      assert (F : filter (fun c0 => ch_id c0 =? ch_id c) seen = []).
      { destruct (filter (fun c0 => ch_id c0 =? ch_id c) seen) as [|a l] eqn:Q;
          [reflexivity|].
        assert (I' : In a (filter (fun c0 => ch_id c0 =? ch_id c) seen))
          by (rewrite Q; now left).
        apply filter_In in I'. destruct I' as [I1 I2]. apply Z.eqb_eq in I2.
        exfalso. apply NJ. rewrite <- I2. apply C, I1. }
      rewrite F. split; [reflexivity|discriminate].
    + subst k g. rewrite Z.eqb_refl. destruct (G _ _ J) as (E & NE).
      rewrite <- E. split; [reflexivity|]. destruct g1; discriminate.
  - intros c0 I. rewrite add_change_keys. apply in_app_or in I.
    destruct I as [I|[I|[]]]; [right; auto|left; congruence].
Qed.

Lemma groups_of_fold changes : forall seen gs,
  groups_of seen gs ->
  groups_of (seen ++ changes)
            (fold_left (fun groups c => add_change c groups) changes gs).
Proof.
  induction changes as [|c changes IH]; intros seen gs G; simpl.
  - now rewrite app_nil_r.
  - replace (seen ++ c :: changes) with ((seen ++ [c]) ++ changes)
      by (rewrite <- app_assoc; reflexivity).
    apply IH, groups_of_add, G.
Qed.

Lemma changes_by_order_groups changes :
  groups_of changes (changes_by_order changes).
Proof.
  apply (groups_of_fold changes [] []).
  split; [constructor|]. split; [intros k g []|intros c []].
Qed.

Lemma latest_change_in g e :
  latest_change g = Some e -> In e g.
Proof.
  unfold latest_change. destruct g as [|x l]; [discriminate|].
  intros H. inversion H; subst. clear H.
  destruct (last_sort_by_latest Py.str_le ch_cdc_timestamp str_le_total
              str_le_trans x l) as (b & a & E & _).
  rewrite E. apply in_or_app. right. now left.
Qed.


Lemma effective_changes_keys changes :
  map ch_id (effective_changes changes) = map fst (changes_by_order changes).
Proof.
  unfold effective_changes.
  destruct (changes_by_order_groups changes) as (_ & G & _).
  revert G. generalize (changes_by_order changes) as gs.
  induction gs as [|[k g] gs IH]; intros G; simpl; [reflexivity|].
  destruct (G k g (or_introl eq_refl)) as (E & NE).
  destruct (latest_change g) as [e|] eqn:L.
  - simpl. rewrite IH by (intros k' g' I; apply G; now right).
    f_equal. apply latest_change_in in L. rewrite E in L.
    apply filter_In in L. destruct L as [_ L]. now apply Z.eqb_eq in L.
  - unfold latest_change in L. destruct g; [congruence|discriminate].
Qed.

(** ** A transition that reports success follows the transition table *)

Lemma insert_change_aborted_fails d c bid w n w' :
  aborted w = true -> _process_insert_change d c bid w <> (Ret (true, n), w').
Proof.
  intros A. destruct d as [|d]; [simpl; unfold raise; congruence|].
  rewrite process_insert_change_eq.
  destruct (fromisoformat (ch_cdc_timestamp c)); [|congruence].
  rewrite (get_current_record_aborted _ _ A), (insert_new_record_aborted _ _ _ A).
  simpl. congruence.
Qed.

Lemma insert_new_record_success c bid w k w' :
  _insert_new_record c bid w = (Ret k, w') -> truthy k = true ->
  exists odate ts,
    working w' = working w ++ [new_row (next_key w) c odate ts bid]
    /\ aborted w' = false.
Proof.
  unfold _insert_new_record, except_psycopg2.
  destruct (fromisoformat (ch_cdc_timestamp c)) as [ts|].
  - unfold bind at 1.
    destruct (sql_insert_cases c ts bid w)
      as [(w1 & E & _)|(od & w1 & E & _ & _ & A & _ & W & _)]; rewrite E.
    + unfold ret. intros H T. inversion H; subst. discriminate T.
    + unfold ret. intros H T. inversion H; subst. eauto.
  - unfold bind, fail_statement.
    destruct (statement_cases w) as [(w1 & E & _)|(w1 & E & _)]; rewrite E;
      unfold ret; intros H T; inversion H; subst; discriminate T.
Qed.

Lemma transitions_success d : forall c bid w n w',
  (_process_insert_change d c bid w = (Ret (true, n), w') ->
   upserted c bid (working w) (working w') /\ aborted w' = false)
  /\ (_process_update_change d c bid w = (Ret (true, n), w') ->
      upserted c bid (working w) (working w') /\ aborted w' = false).
Proof.
  induction d as [|d IH]; intros c bid w n w'.
  - simpl. unfold raise. split; discriminate.
  - rewrite process_insert_change_eq, process_update_change_eq.
    destruct (fromisoformat (ch_cdc_timestamp c)) as [ts|]; [|split; discriminate].
    destruct (get_current_record_cases (ch_id c) w)
      as [(w1 & E & A & A1 & (S1 & S2 & S3) & F)|(w1 & E & A1 & S)]; rewrite E.
    + destruct (current_row (ch_id c) (working w)) as [r|] eqn:C; split.
      * destruct (same_instant r c ts && String.eqb (cdc_operation r) "INSERT").
        -- intros H. inversion H; subst. split; [|exact A1].
           eapply upserted_unchanged; eauto.
        -- destruct (_process_update_change d c bid w1) as [[[b m]|e] w2] eqn:U;
             [|discriminate].
           intros H. inversion H; subst. simpl in *.
           destruct (IH c bid w1 m w') as [_ IHu]. rewrite <- S2. now apply IHu.
      * destruct (has_changes r c).
        -- assert (NC : current_row (ch_id c) (working w1) <> None)
             by (rewrite S2, C; discriminate).
           destruct (expire_and_insert_cases c ts bid w1 NC)
             as (ok & w2 & E2 & A2 & _ & [(K & (od & P & W) & _)|(K & _)]);
             rewrite E2; intros H; inversion H; subst; try discriminate.
           split; [|exact A2]. rewrite S2, S3 in W.
           eapply upserted_next; eauto.
        -- intros H. inversion H; subst. split; [|exact A1].
           eapply upserted_unchanged; eauto.
      * destruct (_insert_new_record c bid w1) as [[k|e] w2] eqn:I; [|discriminate].
        intros H. inversion H; subst.
        destruct (insert_new_record_success _ _ _ _ _ I H1) as (od & ts' & W & A2).
        split; [|exact A2]. rewrite S2 in W.
        eapply upserted_first; eauto.
      * destruct (_process_insert_change d c bid w1) as [[[b m]|e] w2] eqn:U;
          [|discriminate].
        intros H. inversion H; subst. simpl in *.
        destruct (IH c bid w1 m w') as [IHi _]. rewrite <- S2. now apply IHi.
    + split.
      * rewrite (insert_new_record_aborted _ _ _ A1). simpl. discriminate.
      * destruct (_process_insert_change d c bid w1) as [[[b m]|e] w2] eqn:U;
          [|discriminate].
        intros H. inversion H; subst. simpl in *.
        exfalso. exact (insert_change_aborted_fails d c bid w1 m w' A1 U).
Qed.

Lemma with_connection_success {A} (body : M A) w a w' :
  with_connection body w = (Ret a, w') ->
  entered w = false
  /\ exists w1, body (set_entered true w) = (Ret a, w1)
       /\ ((aborted w1 = false /\ working w' = working w1
            /\ committed w' = working w1 /\ aborted w' = false)
           \/ (aborted w1 = true /\ working w' = committed w1)).
Proof.
  intros H. destruct (entered w) eqn:EN.
  { rewrite (with_connection_refused body w EN) in H. discriminate H. }
  split; [reflexivity|].
  destruct (with_connection_cases body w EN)
    as (u1 & w1 & B & [(a1 & w2 & U & E & _ & A2 & _ & K)|(e & w2 & E & _)]);
    rewrite E in H; [|discriminate].
  injection H as <- <-. subst u1. exists w1. split; [exact B|].
  destruct K as [(K1 & _ & K2 & K3)|(K1 & _ & K2)].
  - left. repeat split; auto.
  - right. split; assumption.
Qed.

Lemma delete_change_success c bid w w' :
  _process_delete_change c bid w = (Ret true, w') ->
  exists ts, working w' = expire_rows (ch_id c) ts (working w)
             /\ aborted w' = false.
Proof.
  unfold _process_delete_change.
  destruct (fromisoformat (ch_cdc_timestamp c)) as [ts|]; [|discriminate].
  unfold except_psycopg2.
  destruct (with_connection (sql_expire (ch_id c) ts;;; ret true) w)
    as [[b|e] w1] eqn:W.
  - intros H. inversion H; subst.
    apply with_connection_success in W. destruct W as (_ & w2 & B & K).
    revert B. unfold bind.
    destruct (sql_expire_cases (ch_id c) ts (set_entered true w))
      as [(w3 & E & _)|(w3 & E & _ & _ & A3 & _ & W3 & _)]; rewrite E;
      [discriminate|].
    unfold ret. intros B. inversion B; subst. flat.
    destruct K as [(_ & K1 & _ & K2)|(K & _)]; [|congruence].
    exists ts. split; congruence.
  - destruct e; try discriminate; unfold bind, rollback, ret; simpl; discriminate.
Qed.

Lemma process_change_record_success c bid w w' :
  _process_change_record c bid w = (Ret true, w') ->
  applied c bid (working w) (working w') /\ aborted w' = false.
Proof.
  unfold _process_change_record, except_any.
  destruct (String.eqb (ch_operation_type c) "INSERT") eqn:OI.
  { apply String.eqb_eq in OI. unfold bind.
    destruct (_process_insert_change recursion_limit c bid w)
      as [[[b n]|e] w1] eqn:T; unfold ret; simpl; [|discriminate].
    intros H. inversion H; subst.
    destruct (transitions_success recursion_limit c bid w n w') as [TI _].
    destruct (TI T) as (U & A). split; [|exact A].
    apply applied_upsert; [now left|exact U]. }
  destruct (String.eqb (ch_operation_type c) "UPDATE") eqn:OU.
  { apply String.eqb_eq in OU. unfold bind.
    destruct (_process_update_change recursion_limit c bid w)
      as [[[b n]|e] w1] eqn:T; unfold ret; simpl; [|discriminate].
    intros H. inversion H; subst.
    destruct (transitions_success recursion_limit c bid w n w') as [_ TU].
    destruct (TU T) as (U & A). split; [|exact A].
    apply applied_upsert; [now right|exact U]. }
  destruct (String.eqb (ch_operation_type c) "DELETE") eqn:OD.
  { apply String.eqb_eq in OD.
    destruct (_process_delete_change c bid w) as [[b|e] w1] eqn:T;
      unfold ret; [|discriminate].
    intros H. inversion H; subst.
    destruct (delete_change_success _ _ _ _ T) as (ts & W & A).
    split; [|exact A]. eapply applied_delete; eauto. }
  unfold ret. discriminate.
Qed.

Lemma effective_changes_NoDup changes :
  NoDup (map ch_id (effective_changes changes)).
Proof.
  rewrite effective_changes_keys.
  apply (changes_by_order_groups changes).
Qed.

Lemma effective_changes_nonempty changes :
  changes <> [] -> effective_changes changes <> [].
Proof.
  intros N E. destruct changes as [|c cs]; [congruence|].
  destruct (changes_by_order_groups (c :: cs)) as (_ & _ & K).
  specialize (K c (or_introl eq_refl)).
  rewrite <- effective_changes_keys, E in K. destruct K.
Qed.

(** ** Inside the block of a batch *)

Lemma expire_and_insert_refused c ts bid w :
  entered w = true ->
  expire_and_insert c ts bid w = (Ret false, snd (rollback w)).
Proof.
  intros EN. unfold expire_and_insert, except_psycopg2.
  rewrite (with_connection_refused _ w EN). reflexivity.
Qed.

Lemma delete_change_refused c bid w :
  entered w = true ->
  _process_delete_change c bid w
  = match fromisoformat (ch_cdc_timestamp c) with
    | None => (Raise ValueError, w)
    | Some _ => (Ret false, snd (rollback w))
    end.
Proof.
  intros EN. unfold _process_delete_change.
  destruct (fromisoformat (ch_cdc_timestamp c)); [|reflexivity].
  unfold except_psycopg2. rewrite (with_connection_refused _ w EN). reflexivity.
Qed.

Lemma insert_new_record_taken c bid w k w' :
  _insert_new_record c bid w = (Ret k, w') -> truthy k = true ->
  exists odate ts,
    fromisoformat (ch_cdc_timestamp c) = Some ts
    /\ pg_timestamp (ch_order_date c) = Some odate
    /\ working w' = working w ++ [new_row (next_key w) c odate ts bid]
    /\ committed w' = committed w
    /\ aborted w' = false.
Proof.
  unfold _insert_new_record, except_psycopg2.
  destruct (fromisoformat (ch_cdc_timestamp c)) as [ts|].
  - unfold bind at 1.
    destruct (sql_insert_cases c ts bid w)
      as [(w1 & E & _)|(od & w1 & E & P & _ & A & C & W & _)]; rewrite E.
    + unfold ret. intros H T. inversion H; subst. discriminate T.
    + unfold ret. intros H T. inversion H; subst. exists od, ts. auto.
  - unfold bind, fail_statement.
    destruct (statement_cases w) as [(w1 & E & _)|(w1 & E & _)]; rewrite E;
      unfold ret; intros H T; inversion H; subst; discriminate T.
Qed.

Lemma transitions_taken d : forall c bid w n w',
  entered w = true ->
  (_process_insert_change d c bid w = (Ret (true, n), w') ->
   taken c bid (working w) (working w') /\ aborted w' = false
   /\ entered w' = true /\ committed w' = committed w)
  /\ (_process_update_change d c bid w = (Ret (true, n), w') ->
      taken c bid (working w) (working w') /\ aborted w' = false
      /\ entered w' = true /\ committed w' = committed w).
Proof.
  induction d as [|d IH]; intros c bid w n w' EN.
  - simpl. unfold raise. split; discriminate.
  - rewrite process_insert_change_eq, process_update_change_eq.
    destruct (fromisoformat (ch_cdc_timestamp c)) as [ts|] eqn:T;
      [|split; discriminate].
    pose proof (get_current_record_entered (ch_id c) w) as EN1.
    destruct (get_current_record_cases (ch_id c) w)
      as [(w1 & E & A & A1 & (S1 & S2 & S3) & F)|(w1 & E & A1 & S)];
      rewrite E in *; simpl in EN1; rewrite EN in EN1.
    + destruct (current_row (ch_id c) (working w)) as [r|] eqn:C; split.
      * destruct (same_instant r c ts && String.eqb (cdc_operation r) "INSERT")
          eqn:DUP.
        -- intros H. inversion H; subst. split; [|auto].
           apply (taken_unchanged c bid _ _ r); [exact C|exact S2|].
           right. apply andb_true_iff in DUP. destruct DUP as [D1 D2].
           apply String.eqb_eq in D2. exists ts. auto.
        -- destruct (_process_update_change d c bid w1) as [[[b m]|e] w2] eqn:U;
             [|discriminate].
           intros H. inversion H; subst. simpl in *.
           destruct (IH c bid w1 m w' EN1) as [_ IHu].
           rewrite <- S2, <- S1. now apply IHu.
      * destruct (has_changes r c) eqn:HC.
        -- rewrite (expire_and_insert_refused c ts bid w1 EN1). discriminate.
        -- intros H. inversion H; subst. split; [|auto].
           apply (taken_unchanged c bid _ _ r); [exact C|exact S2|]. now left.
      * destruct (_insert_new_record c bid w1) as [[k|e] w2] eqn:I; [|discriminate].
        intros H. inversion H; subst.
        pose proof (insert_new_record_entered c bid w1) as EN2.
        rewrite I in EN2. simpl in EN2.
        destruct (insert_new_record_taken _ _ _ _ _ I H1)
          as (od & ts' & T' & P & W & CM & A2).
        split; [|repeat split; congruence]. rewrite S2 in W.
        eapply taken_first; eauto.
      * destruct (_process_insert_change d c bid w1) as [[[b m]|e] w2] eqn:U;
          [|discriminate].
        intros H. inversion H; subst. simpl in *.
        destruct (IH c bid w1 m w' EN1) as [IHi _].
        rewrite <- S2, <- S1. now apply IHi.
    + split.
      * rewrite (insert_new_record_aborted _ _ _ A1). simpl. discriminate.
      * destruct (_process_insert_change d c bid w1) as [[[b m]|e] w2] eqn:U;
          [|discriminate].
        intros H. inversion H; subst. simpl in *.
        exfalso. exact (insert_change_aborted_fails d c bid w1 m w' A1 U).
Qed.

Lemma process_change_record_taken c bid w w' :
  entered w = true ->
  _process_change_record c bid w = (Ret true, w') ->
  is_upsert c /\ taken c bid (working w) (working w') /\ aborted w' = false
  /\ entered w' = true /\ committed w' = committed w.
Proof.
  intros EN. unfold _process_change_record, except_any.
  destruct (String.eqb (ch_operation_type c) "INSERT") eqn:OI.
  { apply String.eqb_eq in OI. unfold bind.
    destruct (_process_insert_change recursion_limit c bid w)
      as [[[b n]|e] w1] eqn:T; unfold ret; simpl; [|discriminate].
    intros H. inversion H; subst.
    destruct (transitions_taken recursion_limit c bid w n w' EN) as [TI _].
    split; [now left|]. exact (TI T). }
  destruct (String.eqb (ch_operation_type c) "UPDATE") eqn:OU.
  { apply String.eqb_eq in OU. unfold bind.
    destruct (_process_update_change recursion_limit c bid w)
      as [[[b n]|e] w1] eqn:T; unfold ret; simpl; [|discriminate].
    intros H. inversion H; subst.
    destruct (transitions_taken recursion_limit c bid w n w' EN) as [_ TU].
    split; [now right|]. exact (TU T). }
  destruct (String.eqb (ch_operation_type c) "DELETE") eqn:OD.
  { rewrite (delete_change_refused c bid w EN).
    destruct (fromisoformat (ch_cdc_timestamp c)); unfold ret; discriminate. }
  unfold ret. discriminate.
Qed.

Lemma process_latest_taken bid : forall latest w n w',
  entered w = true ->
  process_latest latest bid w = (Ret n, w') ->
  taken_all bid latest (working w) (working w')
  /\ committed w' = committed w
  /\ (latest <> [] -> aborted w' = false).
Proof.
  induction latest as [|c cs IH]; intros w n w' EN; simpl.
  - unfold ret. intros H. inversion H; subst.
    split; [constructor|]. split; [reflexivity|congruence].
  - unfold bind at 1.
    destruct (_process_change_record c bid w) as [[[|]|e] w1] eqn:P;
      [|unfold raise; discriminate|discriminate].
    unfold bind.
    destruct (process_latest cs bid w1) as [[m|e] w2] eqn:R; [|discriminate].
    unfold ret. intros H. inversion H; subst.
    destruct (process_change_record_taken _ _ _ _ EN P) as (U & TK & A1 & EN1 & C1).
    destruct (IH _ _ _ EN1 R) as (AL & C2 & A2).
    split; [econstructor; eauto|]. split; [congruence|]. intros _.
    destruct cs as [|c' cs']; [|apply A2; discriminate].
    simpl in R. unfold ret in R. inversion R; subst. exact A1.
Qed.

Lemma find_app_none {A : Type} (p : A -> bool) l1 l2 :
  find p l1 = None -> find p (l1 ++ l2) = find p l2.
Proof.
  induction l1 as [|x l1 IH]; simpl; [reflexivity|].
  destruct (p x); [discriminate|exact IH].
Qed.

Lemma find_app_some {A : Type} (p : A -> bool) l1 l2 x :
  find p l1 = Some x -> find p (l1 ++ l2) = Some x.
Proof.
  induction l1 as [|y l1 IH]; simpl; [discriminate|].
  destruct (p y); [auto|exact IH].
Qed.

Lemma current_row_snoc_other k rows r :
  order_key r <> k -> current_row k (rows ++ [r]) = current_row k rows.
Proof.
  intros N. unfold current_row.
  assert (F : current_of k r = false).
  { unfold current_of. apply Z.eqb_neq in N. now rewrite N. }
  destruct (find (current_of k) rows) as [x|] eqn:E.
  - exact (find_app_some _ _ _ _ E).
  - rewrite (find_app_none _ _ _ E). simpl. now rewrite F.
Qed.

Lemma taken_current_other c bid rows rows' k :
  taken c bid rows rows' -> k <> ch_id c ->
  current_row k rows' = current_row k rows.
Proof.
  intros [key od ts C T P E|cur C E _] N; subst rows'; [|reflexivity].
  apply current_row_snoc_other. simpl. congruence.
Qed.

(** The current row of the key after the change was taken. *)
Lemma taken_current_same c bid rows rows' :
  taken c bid rows rows' ->
  exists r, current_row (ch_id c) rows' = Some r
    /\ ((current_row (ch_id c) rows = None /\ materializes c r)
        \/ (current_row (ch_id c) rows = Some r
            /\ (has_changes r c = false \/ redelivered_insert r c))).
Proof.
  intros [key od ts C T P E|cur C E K]; subst rows'.
  - exists (new_row key c od ts bid). split.
    + unfold current_row in *. rewrite (find_app_none _ _ _ C). simpl.
      unfold current_of, new_row. simpl. now rewrite Z.eqb_refl.
    + left. split; [exact C|]. unfold materializes, new_row. simpl.
      repeat split; auto.
  - exists cur. split; [exact C|]. right. split; [exact C|exact K].
Qed.

Lemma taken_all_current_other bid cs rows rows' k :
  taken_all bid cs rows rows' -> ~ In k (map ch_id cs) ->
  current_row k rows' = current_row k rows.
Proof.
  induction 1 as [|c cs rows rows1 rows2 U TK AL IH]; intros N; [reflexivity|].
  simpl in N. rewrite IH by (intros I; apply N; right; exact I).
  apply (taken_current_other _ _ _ _ k TK). intros ->. apply N. now left.
Qed.

Lemma taken_all_current bid cs rows rows' :
  taken_all bid cs rows rows' -> NoDup (map ch_id cs) ->
  forall e, In e cs ->
    is_upsert e
    /\ exists r, current_row (ch_id e) rows' = Some r
         /\ ((current_row (ch_id e) rows = None /\ materializes e r)
             \/ (current_row (ch_id e) rows = Some r
                 /\ (has_changes r e = false \/ redelivered_insert r e))).
Proof.
  induction 1 as [|c cs rows rows1 rows2 U TK AL IH]; intros N e I; [destruct I|].
  inversion N as [|? ? NI N']; subst. destruct I as [<-|I].
  - split; [exact U|].
    rewrite (taken_all_current_other _ _ _ _ (ch_id c) AL NI).
    exact (taken_current_same _ _ _ _ TK).
  - assert (D : ch_id e <> ch_id c).
    { intros Q. apply NI. rewrite <- Q. now apply in_map. }
    rewrite <- (taken_current_other _ _ _ _ (ch_id e) TK D).
    now apply IH.
Qed.

Lemma taken_count_other c bid rows rows' k :
  taken c bid rows rows' -> k <> ch_id c ->
  count_current k rows' = count_current k rows.
Proof.
  intros [key od ts C T P E|cur C E _] N; subst rows'; [|reflexivity].
  assert (Z0 : (ch_id c =? k) = false) by (apply Z.eqb_neq; congruence).
  rewrite count_current_app, count_current_new_row, Z0. lia.
Qed.

Lemma taken_count_same c bid rows rows' :
  taken c bid rows rows' -> (count_current (ch_id c) rows <= 1)%nat ->
  count_current (ch_id c) rows' = 1%nat.
Proof.
  intros [key od ts C T P E|cur C E _] L; subst rows'.
  - apply current_row_none_count in C.
    rewrite count_current_app, count_current_new_row, Z.eqb_refl, C.
    reflexivity.
  - apply current_row_some_count in C. lia.
Qed.

Lemma taken_all_count bid cs rows rows' :
  taken_all bid cs rows rows' -> single_current rows ->
  NoDup (map ch_id cs) ->
  single_current rows'
  /\ forall e, In e cs -> count_current (ch_id e) rows' = 1%nat.
Proof.
  induction 1 as [|c cs rows rows1 rows2 U TK AL IH]; intros S N.
  - split; [exact S|intros e []].
  - inversion N as [|? ? NI N']; subst.
    assert (S1 : single_current rows1).
    { intros k. destruct (Z.eq_dec k (ch_id c)) as [->|D].
      - rewrite (taken_count_same _ _ _ _ TK (S (ch_id c))). lia.
      - rewrite (taken_count_other _ _ _ _ k TK D). apply S. }
    destruct (IH S1 N') as (S2 & C2). split; [exact S2|].
    intros e [<-|I]; [|now apply C2].
    assert (Q : count_current (ch_id c) rows2 = count_current (ch_id c) rows1).
    { clear - AL NI. induction AL as [|c' cs rows rows1 rows2 U TK AL IH];
        [reflexivity|].
      simpl in NI. rewrite IH by (intros I; apply NI; right; exact I).
      apply (taken_count_other _ _ _ _ _ TK). intros Q. apply NI. now left. }
    rewrite Q. exact (taken_count_same _ _ _ _ TK (S (ch_id c))).
Qed.

(** What a batch that was applied leaves in the table. *)
Lemma batch_applied bid changes w n w' :
  changes <> [] ->
  with_connection (process_latest (effective_changes changes) bid) w
    = (Ret n, w') ->
  taken_all bid (effective_changes changes) (working w) (working w')
  /\ committed w' = working w' /\ aborted w' = false.
Proof.
  intros NE W. apply with_connection_success in W.
  destruct W as (EN & w1 & B & K).
  destruct (process_latest_taken bid _ (set_entered true w) n w1 eq_refl B)
    as (AL & _ & A).
  specialize (A (effective_changes_nonempty _ NE)). flat.
  destruct K as [(_ & K1 & K2 & K3)|(K & _)]; [|congruence].
  rewrite K1. split; [exact AL|]. split; [congruence|exact K3].
Qed.

Lemma batch_file_applied f st st' changes :
  file_changes f = Some changes -> changes <> [] ->
  already_processed (_get_processed_files (processed_log st))
                    (file_name f) (_generate_batch_id changes) = Ret false ->
  _process_batch_file f st = (true, st') ->
  taken_all (_generate_batch_id changes) (effective_changes changes)
            (working (db st)) (working (db st'))
  /\ committed (db st') = working (db st') /\ aborted (db st') = false.
Proof.
  intros FC NE AP. unfold _process_batch_file. rewrite FC.
  destruct changes as [|c cs]; [congruence|]. rewrite AP.
  destruct (with_connection
              (process_latest (effective_changes (c :: cs))
                              (_generate_batch_id (c :: cs))) (db st))
    as [[n|e] w] eqn:W; intros H; inversion H; subst.
  cbn [db]. exact (batch_applied _ _ _ _ _ NE W).
Qed.

Lemma taken_all_count_le bid cs rows rows' k :
  taken_all bid cs rows rows' ->
  (count_current k rows <= count_current k rows')%nat.
Proof.
  induction 1 as [|c cs rows rows1 rows2 U TK AL IH]; [lia|].
  apply Nat.le_trans with (2 := IH).
  destruct TK as [key od ts C T P E|cur C E _]; subst rows1; [|lia].
  rewrite count_current_app. lia.
Qed.

(** C2.  After every batch that the loader reports as applied, over a
    table that has at most one current row for every natural key (the
    uniqueness constraint of the table), every natural key has at most
    one current row, and a key that had one before has one still; when
    the batch was not skipped by the ledger its changes are committed,
    none of its effective changes is a DELETE, and every natural key
    that has a change in the batch has exactly one current row. *)
Theorem batch_single_current (f : batch_file) (st st' : loader) :
  single_current (working (db st)) ->
  _process_batch_file f st = (true, st') ->
  single_current (working (db st'))
  /\ (forall k, count_current k (working (db st)) = 1%nat ->
                count_current k (working (db st')) = 1%nat)
  /\ forall changes,
       file_changes f = Some changes -> changes <> [] ->
       already_processed (_get_processed_files (processed_log st))
                         (file_name f) (_generate_batch_id changes) = Ret false ->
       committed (db st') = working (db st')
       /\ (forall e, In e (effective_changes changes) -> is_upsert e)
       /\ forall c, In c changes ->
            count_current (ch_id c) (working (db st')) = 1%nat.
Proof.
  intros S H.
  assert (G : forall changes,
    file_changes f = Some changes -> changes <> [] ->
    already_processed (_get_processed_files (processed_log st))
                      (file_name f) (_generate_batch_id changes) = Ret false ->
    single_current (working (db st'))
    /\ committed (db st') = working (db st')
    /\ (forall e, In e (effective_changes changes) -> is_upsert e)
    /\ forall c, In c changes ->
         count_current (ch_id c) (working (db st')) = 1%nat).
  { intros changes FC NE AP.
    destruct (batch_file_applied f st st' changes FC NE AP H) as (AL & CM & _).
    destruct (taken_all_count _ _ _ _ AL S (effective_changes_NoDup _))
      as (S' & C').
    split; [exact S'|]. split; [exact CM|]. split.
    - intros e I.
      exact (proj1 (taken_all_current _ _ _ _ AL (effective_changes_NoDup _)
                      e I)).
    - intros c I.
      assert (K : In (ch_id c) (map ch_id (effective_changes changes))).
      { rewrite effective_changes_keys.
        now apply (changes_by_order_groups changes). }
      apply in_map_iff in K. destruct K as (e & Q & K). rewrite <- Q.
      now apply C'. }
  assert (B : single_current (working (db st'))
              /\ forall k, (count_current k (working (db st))
                            <= count_current k (working (db st')))%nat).
  { revert H. unfold _process_batch_file.
    destruct (file_changes f) as [[|c cs]|] eqn:FC.
    + intros H. inversion H; subst. split; [exact S|intros k; lia].
    + destruct (already_processed (_get_processed_files (processed_log st))
                  (file_name f) (_generate_batch_id (c :: cs))) as [[|]|e] eqn:AP.
      * intros H. inversion H; subst. split; [exact S|intros k; lia].
      * intros H.
        assert (H' : _process_batch_file f st = (true, st')).
        { unfold _process_batch_file. rewrite FC, AP. exact H. }
        clear H. rename H' into H.
        assert (NE : c :: cs <> []) by discriminate.
        destruct (batch_file_applied f st st' (c :: cs) FC NE AP H)
          as (AL & _).
        split.
        -- exact (proj1 (taken_all_count _ _ _ _ AL S
                           (effective_changes_NoDup _))).
        -- intros k. exact (taken_all_count_le _ _ _ _ k AL).
      * discriminate.
    + discriminate. }
  destruct B as (S' & LE).
  split; [exact S'|]. split.
  - intros k C. specialize (LE k). specialize (S' k). lia.
  - intros changes FC NE AP. exact (proj2 (G changes FC NE AP)).
Qed.

(** ** The ledger *)

Lemma already_processed_recorded lines name bid line :
  In line lines -> Py.split_bar line = (name, Some bid) ->
  already_processed lines name bid <> Ret false.
Proof.
  induction lines as [|l lines IH]; intros I E; [destruct I|].
  simpl. destruct I as [->|I].
  - rewrite E, !String.eqb_refl. simpl. discriminate.
  - destruct (Py.split_bar l) as [fn [pb|]]; [|discriminate].
    destruct (String.eqb fn name && String.eqb pb bid); [discriminate|].
    now apply IH.
Qed.

Lemma already_processed_well_formed lines name bid :
  (forall line, In line lines -> snd (Py.split_bar line) <> None) ->
  exists b, already_processed lines name bid = Ret b.
Proof.
  induction lines as [|l lines IH]; intros WF; simpl; [eauto|].
  pose proof (WF l (or_introl eq_refl)) as B.
  destruct (Py.split_bar l) as [fn [pb|]]; simpl in B; [|congruence].
  destruct (String.eqb fn name && String.eqb pb bid); [eauto|].
  apply IH. intros line I. apply WF. now right.
Qed.

Lemma already_processed_absent lines name bid :
  ~ In name (map (fun line => fst (Py.split_bar line)) lines) ->
  already_processed lines name bid <> Ret true.
Proof.
  induction lines as [|l lines IH]; intros N; simpl; [discriminate|].
  simpl in N. destruct (Py.split_bar l) as [fn [pb|]] eqn:E; [|discriminate].
  destruct (String.eqb fn name) eqn:Q; simpl.
  - apply String.eqb_eq in Q. simpl in N. exfalso. apply N. now left.
  - apply IH. intros I. apply N. right. exact I.
Qed.

Lemma recorded_skip f st changes :
  file_changes f = Some changes ->
  recorded (processed_log st) (file_name f) (_generate_batch_id changes) ->
  exists b, _process_batch_file f st = (b, st)
            /\ (well_formed_ledger (processed_log st) -> b = true).
Proof.
  intros FC (line & I & E). unfold _process_batch_file. rewrite FC.
  destruct changes as [|c cs]; [exists true; auto|].
  pose proof (already_processed_recorded _ _ _ _ I E) as NF.
  destruct (already_processed (_get_processed_files (processed_log st))
              (file_name f) (_generate_batch_id (c :: cs))) as [[|]|e] eqn:AP.
  - exists true. auto.
  - congruence.
  - exists false. split; [reflexivity|]. intros WF.
    destruct (already_processed_well_formed _ (file_name f)
                (_generate_batch_id (c :: cs)) WF) as (b & K).
    congruence.
Qed.

Lemma recorded_name log name bid :
  recorded log name bid -> In name (processed_filenames log).
Proof.
  intros (line & I & E). unfold processed_filenames.
  apply in_map_iff. exists line. split; [|exact I]. now rewrite E.
Qed.

Lemma get_processed_files_app log1 log2 :
  _get_processed_files (log1 ++ log2)
  = _get_processed_files log1 ++ _get_processed_files log2.
Proof. unfold _get_processed_files. now rewrite map_app, filter_app. Qed.

(** Once a batch has been applied and the line written for it reads
    back as its name and batch id, presenting the artifact again changes
    nothing. *)
Lemma replay_is_skipped f st st1 changes :
  file_changes f = Some changes ->
  _process_batch_file f st = (true, st1) ->
  Py.strip (file_name f ++ "|" ++ _generate_batch_id changes)
    = (file_name f ++ "|" ++ _generate_batch_id changes)%string ->
  Py.split_bar (file_name f ++ "|" ++ _generate_batch_id changes)
    = (file_name f, Some (_generate_batch_id changes)) ->
  exists b, _process_batch_file f st1 = (b, st1).
Proof.
  intros FC R S B. revert R. unfold _process_batch_file at 1. rewrite FC.
  destruct changes as [|c cs].
  { intros R. inversion R; subst. unfold _process_batch_file. rewrite FC. eauto. }
  destruct (already_processed (_get_processed_files (processed_log st))
              (file_name f) (_generate_batch_id (c :: cs))) as [[|]|e] eqn:AP;
    try discriminate.
  { intros R. inversion R; subst. unfold _process_batch_file.
    rewrite FC, AP. eauto. }
  destruct (with_connection
              (process_latest (effective_changes (c :: cs))
                              (_generate_batch_id (c :: cs))) (db st))
    as [[n|e] w]; [|discriminate].
  intros R. inversion R; subst.
  destruct (recorded_skip f
              (mkLoader w (_mark_file_processed (file_name f)
                             (_generate_batch_id (c :: cs)) (processed_log st)))
              (c :: cs) FC) as (b & E & _); [|eauto].
  exists (file_name f ++ "|" ++ _generate_batch_id (c :: cs))%string.
  split; [|exact B]. cbn [processed_log]. unfold _mark_file_processed.
  rewrite get_processed_files_app. apply in_or_app. right.
  unfold _get_processed_files. cbn [map filter]. rewrite S.
  destruct (String.eqb (file_name f ++ "|" ++ _generate_batch_id (c :: cs)) "")
    eqn:Q; cbn [negb]; [|now left].
  apply String.eqb_eq in Q. rewrite Q in B. discriminate B.
Qed.

(** C1.  A batch artifact that the ledger records under its name and
    content identity is skipped when it is presented again, to
    [_process_batch_file] or through a run of [load_change_logs]: the
    loader is returned as it was, the rows of the dimension table (as of
    the last commit and as the session sees them), the surrogate-key
    sequence and the ledger; the call reports success when every line of
    the ledger can be read. *)
Theorem recorded_batch_is_skipped (f : batch_file) (st : loader)
    (changes : list change) :
  file_changes f = Some changes ->
  recorded (processed_log st) (file_name f) (_generate_batch_id changes) ->
  (exists b, _process_batch_file f st = (b, st)
             /\ (well_formed_ledger (processed_log st) -> b = true))
  /\ load_change_logs [f] st = st.
Proof.
  intros FC R. split; [exact (recorded_skip f st changes FC R)|].
  apply recorded_name in R.
  unfold load_change_logs, unprocessed_files. simpl.
  assert (E : existsb (String.eqb (file_name f))
                      (processed_filenames (processed_log st)) = true).
  { apply existsb_exists. exists (file_name f).
    split; [exact R|apply String.eqb_refl]. }
  rewrite E. reflexivity.
Qed.

Lemma unprocessed_files_filter log dir :
  unprocessed_files log dir
  = Py.sort_by Py.str_le file_name
      (filter (fun f => negb (existsb (String.eqb (file_name f))
                                      (processed_filenames log))) dir).
Proof.
  unfold unprocessed_files.
  apply (filter_sort_by Py.str_le file_name str_le_total str_le_trans).
Qed.

Lemma existsb_eqb_In name names :
  existsb (String.eqb name) names = true <-> In name names.
Proof.
  rewrite existsb_exists. split.
  - intros (x & I & E). apply String.eqb_eq in E. now subst.
  - intros I. exists name. split; [exact I|apply String.eqb_refl].
Qed.

(** C9.  The loader selects the artifacts by file name alone.  An
    artifact whose name stands in the ledger is not selected, whatever
    batch id the ledger holds for it and whatever the artifact now
    contains, so a run over the directory is the run over the directory
    without that artifact.  For an artifact that is selected, the search
    for its pair of name and batch id in that ledger never succeeds. *)
Theorem selection_by_name_only (st : loader) (dir1 dir2 : list batch_file)
    (f : batch_file) :
  (In (file_name f) (processed_filenames (processed_log st)) ->
   ~ In f (unprocessed_files (processed_log st) (dir1 ++ f :: dir2))
   /\ load_change_logs (dir1 ++ f :: dir2) st = load_change_logs (dir1 ++ dir2) st)
  /\ (In f (unprocessed_files (processed_log st) (dir1 ++ f :: dir2)) ->
      ~ In (file_name f) (processed_filenames (processed_log st))
      /\ forall bid,
           already_processed (_get_processed_files (processed_log st))
                             (file_name f) bid <> Ret true).
Proof.
  split.
  - intros I. apply existsb_eqb_In in I. split.
    + unfold unprocessed_files. rewrite filter_In, I. simpl. intros [_ H].
      discriminate H.
    + unfold load_change_logs. rewrite !unprocessed_files_filter.
      rewrite !filter_app. simpl. rewrite I. reflexivity.
  - unfold unprocessed_files. rewrite filter_In. intros [_ H].
    apply negb_true_iff in H.
    assert (N : ~ In (file_name f) (processed_filenames (processed_log st))).
    { intros I. apply existsb_eqb_In in I. congruence. }
    split; [exact N|]. intros bid. now apply already_processed_absent.
Qed.

(** ** Properties of rows that the loader keeps *)

Section RowInvariant.
Variable P : row -> Prop.
Variable bid : string.
Hypothesis P_close : forall ts r, P r -> P (close_row ts r).




















End RowInvariant.

(** ** Coalescing *)



Lemma materializes_new_row e key odate ts bid :
  fromisoformat (ch_cdc_timestamp e) = Some ts ->
  pg_timestamp (ch_order_date e) = Some odate ->
  materializes e (new_row key e odate ts bid).
Proof. intros T O. unfold materializes, new_row. simpl. repeat split; auto. Qed.





(** ** What an applied batch writes *)

Lemma current_row_app_none k l1 l2 :
  current_row k (l1 ++ l2) = None -> current_row k l1 = None.
Proof.
  unfold current_row. intros H.
  destruct (find (current_of k) l1) eqn:F; [|reflexivity].
  rewrite (find_app_some _ _ _ _ F) in H. discriminate.
Qed.

Lemma taken_all_added bid cs rows rows' :
  taken_all bid cs rows rows' ->
  exists added,
    rows' = rows ++ added
    /\ Forall (fun r => is_current r = true /\ valid_to r = None
                 /\ exists e, In e cs /\ materializes e r
                              /\ current_row (ch_id e) rows = None) added.
Proof.
  induction 1 as [|c cs rows rows1 rows2 U TK AL IH].
  - exists []. split; [now rewrite app_nil_r|constructor].
  - destruct IH as (added & E & F).
    destruct TK as [key od ts C T P E1|cur C E1 _]; subst rows1.
    + exists (new_row key c od ts bid :: added). split.
      * rewrite E, <- app_assoc. reflexivity.
      * constructor.
        -- split; [reflexivity|]. split; [reflexivity|]. exists c.
           split; [now left|]. split; [now apply materializes_new_row|exact C].
        -- apply Forall_impl with (2 := F).
           intros r (I1 & I2 & e & I & M & N).
           split; [exact I1|]. split; [exact I2|]. exists e.
           split; [now right|]. split; [exact M|].
           exact (current_row_app_none _ _ _ N).
    + exists added. split; [exact E|].
      apply Forall_impl with (2 := F).
      intros r (I1 & I2 & e & I & M & N).
      split; [exact I1|]. split; [exact I2|]. exists e.
      split; [now right|]. split; [exact M|exact N].
Qed.

(** X26.  A batch that the loader applies closes no version.  Inside
    the block of the batch the transitions that close a row cannot
    enter their own block, so when [_process_batch_file] reports
    success for a batch that the ledger did not skip, no effective
    change is a DELETE, and an effective change whose key had a current
    row alters none of its attributes or is its INSERT delivered again.
    The table is then the table as it was, followed by the first
    versions, open-ended and current, of the keys that had no current
    row, each made of the effective change of its key; and it is
    committed. *)
Theorem applied_batch_closes_nothing
  (f : batch_file) (st st' : loader) (changes : list change) :
  file_changes f = Some changes ->
  changes <> [] ->
  already_processed (_get_processed_files (processed_log st))
                    (file_name f) (_generate_batch_id changes) = Ret false ->
  _process_batch_file f st = (true, st') ->
  (forall e, In e (effective_changes changes) ->
     is_upsert e
     /\ forall cur, current_row (ch_id e) (working (db st)) = Some cur ->
                    has_changes cur e = false \/ redelivered_insert cur e)
  /\ exists added,
       working (db st') = working (db st) ++ added
       /\ committed (db st') = working (db st')
       /\ Forall (fun r => is_current r = true /\ valid_to r = None
                    /\ exists e, In e (effective_changes changes)
                                 /\ materializes e r
                                 /\ current_row (ch_id e) (working (db st))
                                    = None) added.
Proof.
  intros FC NE AP H.
  destruct (batch_file_applied f st st' changes FC NE AP H) as (T & C & _).
  split.
  - intros e I.
    destruct (taken_all_current _ _ _ _ T (effective_changes_NoDup changes) e I)
      as (U & r & _ & [(N & _)|(S & K)]).
    + split; [exact U|]. intros cur Q. congruence.
    + split; [exact U|]. intros cur Q. rewrite Q in S. inversion S; subst.
      exact K.
  - destruct (taken_all_added _ _ _ _ T) as (added & E & F).
    exists added. split; [exact E|]. split; [exact C|exact F].
Qed.

(** ** The extractor *)

Lemma fold_max_bounds l : forall a,
  a <= fold_left Z.max l a
  /\ Forall (fun x => x <= fold_left Z.max l a) l
  /\ In (fold_left Z.max l a) (a :: l).
Proof.
  induction l as [|x l IH]; intros a; simpl.
  - repeat split; [lia|constructor|now left].
  - destruct (IH (Z.max a x)) as (B1 & B2 & B3). repeat split.
    + lia.
    + constructor; [lia|exact B2].
    + destruct B3 as [B3|B3]; [|now right; right].
      rewrite <- B3. destruct (Z.max_spec a x) as [[_ ->]|[_ ->]]; auto.
Qed.

Lemma save_watermark_text ts file :
  _save_watermark ts file = Some (isoformat ts).
Proof. reflexivity. Qed.

Lemma snapshot_In since rows o :
  In o (snapshot since rows) <->
  In o rows /\ ((since <? o_last_updated o) || (since <? o_created_at o)) = true.
Proof.
  unfold snapshot. rewrite sort_by_In, filter_In. reflexivity.
Qed.

Lemma detect_changes_records since now s changes :
  _detect_changes since now s = Ret changes ->
  forall d, In d changes -> In (d_order d) (snapshot since (orders s)).
Proof.
  unfold _detect_changes, cursor_execute, connection_rollback.
  destruct (link_state s); intros H; inversion H; subst.
  - intros d I. apply in_map_iff in I. destruct I as (o & <- & I). exact I.
  - intros d [].
Qed.

(** C6 (as amended).  A poll that detects changes sets the stored
    watermark exactly to the greatest last-modified time among the
    records of the batch; a poll that detects nothing leaves the
    extractor, the stored watermark included, as it was.  The new
    watermark is later than the one the poll started from when no source
    row was created after it was last modified. *)
Theorem watermark_after_poll (now : Z) (st : extractor) :
  (forall first others,
     _detect_changes (_get_watermark now (watermark_file st)) now (src st)
       = Ret (first :: others) ->
     watermark_file (snd (extract_once now st))
       = Some (isoformat (latest_timestamp first others))
     /\ Forall (fun d => o_last_updated (d_order d)
                         <= latest_timestamp first others) (first :: others)
     /\ Exists (fun d => o_last_updated (d_order d)
                         = latest_timestamp first others) (first :: others)
     /\ ((forall o, In o (orders (src st)) -> o_created_at o <= o_last_updated o) ->
         _get_watermark now (watermark_file st) < latest_timestamp first others))
  /\ (_detect_changes (_get_watermark now (watermark_file st)) now (src st)
        = Ret [] ->
      extract_once now st = (Ret tt, st)).
Proof.
  split.
  - intros first others D. unfold extract_once. rewrite D. simpl snd.
    unfold latest_timestamp.
    destruct (fold_max_bounds
                (map (fun d => o_last_updated (d_order d)) others)
                (o_last_updated (d_order first))) as (B1 & B2 & B3).
    set (m := fold_left Z.max (map (fun d => o_last_updated (d_order d)) others)
                        (o_last_updated (d_order first))) in *.
    split; [reflexivity|]. split; [|split].
    + constructor; [exact B1|].
      rewrite Forall_map in B2. exact B2.
    + destruct B3 as [B3|B3].
      * apply Exists_cons_hd. exact B3.
      * apply Exists_cons_tl. apply Exists_exists.
        apply in_map_iff in B3. destruct B3 as (d & E & I). eauto.
    + intros INV.
      pose proof (detect_changes_records _ _ _ _ D first (or_introl eq_refl)) as I.
      apply snapshot_In in I. destruct I as (I & C).
      specialize (INV _ I). apply orb_true_iff in C.
      destruct C as [C|C]; apply Z.ltb_lt in C; lia.
  - intros D. unfold extract_once. rewrite D. reflexivity.
Qed.

(** C7.  When the source fails during change detection the detect call
    yields no change record: it fails with psycopg2's error when the
    connection is lost, and when only the statement failed on a
    connection that is still open it returns the empty batch.  Either
    way the pass of the extraction loop writes nothing: the watermark
    file and the batch artifacts are what they were, so the next poll
    starts from the same cursor. *)
Theorem source_failure_keeps_watermark (now : Z) (st : extractor) :
  link_state (src st) <> Healthy ->
  (link_state (src st) = ConnectionLost ->
   forall since, _detect_changes since now (src st) = Raise Psycopg2Error)
  /\ (link_state (src st) = StatementFails ->
      forall since, _detect_changes since now (src st) = Ret [])
  /\ snd (extract_once now st) = st
  /\ _get_watermark now (watermark_file (snd (extract_once now st)))
     = _get_watermark now (watermark_file st).
Proof.
  intros NH.
  assert (L : (forall since, _detect_changes since now (src st)
                             = Raise Psycopg2Error)
              \/ (forall since, _detect_changes since now (src st) = Ret [])).
  { unfold _detect_changes, cursor_execute, connection_rollback.
    destruct (link_state (src st)); [congruence|right|left]; reflexivity. }
  split; [|split].
  - intros C since. unfold _detect_changes, cursor_execute, connection_rollback.
    rewrite C. reflexivity.
  - intros C since. unfold _detect_changes, cursor_execute, connection_rollback.
    rewrite C. reflexivity.
  - assert (E : snd (extract_once now st) = st).
    { unfold extract_once. destruct L as [L|L]; rewrite L; reflexivity. }
    split; [exact E|]. rewrite E. reflexivity.
Qed.

(** C8 (as amended).  [set(ts)] overwrites the watermark file in place,
    in two steps: the file is emptied, then the text of the timestamp is
    written to it.  When the call ends the file holds that text; between
    the two steps a reader finds an empty file and takes the default
    watermark. *)
Theorem save_watermark_in_place (ts now : Z) (file : option string) :
  fromisoformat "" = None ->
  _save_watermark_steps ts file = [Some ""; Some (isoformat ts)]
  /\ _save_watermark ts file = Some (isoformat ts)
  /\ _get_watermark now (Some "") = now - five_minutes.
Proof.
  intros E. split; [reflexivity|]. split; [reflexivity|].
  unfold _get_watermark. change (Py.strip "") with "". rewrite E. reflexivity.
Qed.

(** * Further properties of the loader and of the extractor *)

(** ** The statements when nothing fails *)

Lemma fault_free_tl w w' :
  fault_free w -> aborted w' = false -> faults w' = tl (faults w) ->
  fault_free w'.
Proof.
  intros (A & F) A' E. split; [exact A'|]. rewrite E. intros I. apply F.
  destruct (faults w); [exact I|right; exact I].
Qed.

Lemma statement_fault_free w :
  fault_free w ->
  exists w', statement w = (Ret tt, w') /\ fault_free w' /\ same_data w w'.
Proof.
  intros FF.
  destruct (statement_cases w) as [(w' & E & _ & A' & S & F')|(w' & E & A' & S)].
  - exists w'. split; [exact E|]. split; [|exact S].
    exact (fault_free_tl w w' FF A' F').
  - exfalso. destruct FF as (A & F). revert E A'. unfold statement. rewrite A.
    destruct (faults w) as [|[|] fs].
    + intros E; discriminate E.
    + exfalso. apply F. now left.
    + intros E; discriminate E.
Qed.

Lemma sql_insert_fault_free c ts bid w odate :
  fault_free w -> pg_timestamp (ch_order_date c) = Some odate ->
  exists w', sql_insert c ts bid w = (Ret (next_key w), w')
    /\ fault_free w'
    /\ committed w' = committed w
    /\ working w' = working w ++ [new_row (next_key w) c odate ts bid]
    /\ next_key w' = next_key w + 1.
Proof.
  intros FF P. unfold sql_insert, bind.
  destruct (statement_fault_free w FF) as (w1 & E & (A1 & F1) & (S1 & S2 & S3)).
  rewrite E, P, S2, S3. eexists. split; [reflexivity|]. simpl.
  repeat split; auto.
Qed.

Lemma sql_expire_fault_free k ts w :
  fault_free w -> valid_time_check k ts (working w) = true ->
  exists w', sql_expire k ts w
             = (Ret (option_map surrogate_key (current_row k (working w))), w')
    /\ fault_free w'
    /\ committed w' = committed w
    /\ working w' = expire_rows k ts (working w)
    /\ next_key w' = next_key w.
Proof.
  intros FF V. unfold sql_expire, bind.
  destruct (statement_fault_free w FF) as (w1 & E & (A1 & F1) & (S1 & S2 & S3)).
  rewrite E, S2, V. eexists. split; [reflexivity|]. simpl.
  repeat split; auto.
Qed.

Lemma sql_expire_check_fails k ts w :
  fault_free w -> valid_time_check k ts (working w) = false ->
  exists w', sql_expire k ts w = (Raise Psycopg2Error, w') /\ same_data w w'.
Proof.
  intros FF V. unfold sql_expire, bind.
  destruct (statement_fault_free w FF) as (w1 & E & _ & (S1 & S2 & S3)).
  rewrite E, S2, V. unfold fail_statement. eexists. split; [reflexivity|].
  simpl. repeat split; auto.
Qed.

Lemma commit_fault_free w :
  fault_free w -> current_unique (working w) = true ->
  exists w', commit w = (Ret tt, w') /\ fault_free w'
    /\ committed w' = working w /\ working w' = working w
    /\ next_key w' = next_key w.
Proof.
  intros (A & F) U. unfold commit. rewrite A, U.
  assert (H : match faults w with true :: _ => true | _ => false end = false).
  { destruct (faults w) as [|[|] fs]; auto. exfalso. apply F. now left. }
  rewrite H. simpl. eexists. split; [reflexivity|]. simpl.
  repeat split; auto. intros I. apply F.
  destruct (faults w); [exact I|right; exact I].
Qed.

Lemma expire_rows_absent k ts rows :
  current_row k rows = None -> expire_rows k ts rows = rows.
Proof.
  unfold current_row, expire_rows. induction rows as [|r rows IH]; simpl;
    [reflexivity|].
  destruct (current_of k r); [discriminate|]. intros H. now rewrite IH.
Qed.

Lemma expire_rows_closes k ts rows cur :
  current_row k rows = Some cur -> In (close_row ts cur) (expire_rows k ts rows).
Proof.
  intros C. unfold expire_rows. apply in_map_iff. exists cur.
  unfold current_row in C. pose proof (find_some _ _ C) as (I & H).
  rewrite H. auto.
Qed.

Lemma expire_rows_length k ts rows :
  length (expire_rows k ts rows) = length rows.
Proof. unfold expire_rows. apply length_map. Qed.

Lemma valid_time_check_stale k ts rows cur :
  current_row k rows = Some cur -> ts <= valid_from cur ->
  valid_time_check k ts rows = false.
Proof.
  unfold current_row, valid_time_check. intros C L.
  pose proof (find_some _ _ C) as (I & H).
  destruct (forallb (fun r => negb (current_of k r) || (valid_from r <? ts)) rows)
    eqn:V; [|reflexivity].
  rewrite forallb_forall in V. specialize (V cur I). rewrite H in V. simpl in V.
  apply Z.ltb_lt in V. lia.
Qed.

(** ** The transitions when nothing fails *)

Lemma insert_new_record_fault_free c bid w ts odate :
  fault_free w ->
  fromisoformat (ch_cdc_timestamp c) = Some ts ->
  pg_timestamp (ch_order_date c) = Some odate ->
  exists w', _insert_new_record c bid w = (Ret (Some (next_key w)), w')
    /\ fault_free w'
    /\ committed w' = committed w
    /\ working w' = working w ++ [new_row (next_key w) c odate ts bid]
    /\ next_key w' = next_key w + 1.
Proof.
  intros FF T P. unfold _insert_new_record, except_psycopg2. rewrite T.
  unfold bind at 1.
  destruct (sql_insert_fault_free c ts bid w odate FF P) as (w' & E & K).
  rewrite E. unfold ret. exists w'. split; [reflexivity|exact K].
Qed.

(** X1.  An INSERT for a key that has no current row adds the first
    version of the key and nothing else: one row with the attributes of
    the change, valid from the capture time, open-ended and current, its
    surrogate key drawn from the sequence, which advances by one.  The
    row is not committed by the transition itself, and no redirection
    takes place. *)
Theorem insert_on_absent_key (d : nat) (c : change) (bid : string)
    (w : warehouse) (ts odate : Z) :
  fault_free w ->
  current_row (ch_id c) (working w) = None ->
  fromisoformat (ch_cdc_timestamp c) = Some ts ->
  pg_timestamp (ch_order_date c) = Some odate ->
  next_key w <> 0 ->
  exists w',
    _process_insert_change (S d) c bid w = (Ret (true, O), w')
    /\ working w' = working w ++ [new_row (next_key w) c odate ts bid]
    /\ committed w' = committed w
    /\ next_key w' = next_key w + 1
    /\ count_current (ch_id c) (working w') = 1%nat.
Proof.
  intros FF C T P NZ. rewrite process_insert_change_eq, T.
  destruct (get_current_record_fault_free (ch_id c) w FF)
    as (w1 & E & FF1 & (S1 & S2 & S3)).
  rewrite E, C.
  destruct (insert_new_record_fault_free c bid w1 ts odate FF1 T P)
    as (w2 & E2 & _ & K1 & K2 & K3).
  rewrite E2. simpl truthy. rewrite S3.
  assert (Q : (next_key w =? 0) = false) by (apply Z.eqb_neq; exact NZ).
  rewrite Q. simpl negb. exists w2. split; [reflexivity|].
  rewrite K2, K1, K3, S1, S2, S3. repeat split.
  apply current_row_none_count in C.
  rewrite count_current_app, count_current_new_row, Z.eqb_refl, C. reflexivity.
Qed.

(** X2.  An UPDATE for a key that has no current row is handed to the
    INSERT transition, once, and adds the first version of the key
    exactly as an INSERT does; the stored row keeps the operation type
    of the change. *)
Theorem update_on_absent_key (d : nat) (c : change) (bid : string)
    (w : warehouse) (ts odate : Z) :
  fault_free w ->
  current_row (ch_id c) (working w) = None ->
  fromisoformat (ch_cdc_timestamp c) = Some ts ->
  pg_timestamp (ch_order_date c) = Some odate ->
  next_key w <> 0 ->
  exists w',
    _process_update_change (S (S d)) c bid w = (Ret (true, 1%nat), w')
    /\ working w' = working w ++ [new_row (next_key w) c odate ts bid]
    /\ committed w' = committed w
    /\ next_key w' = next_key w + 1
    /\ cdc_operation (new_row (next_key w) c odate ts bid) = ch_operation_type c.
Proof.
  intros FF C T P NZ. rewrite process_update_change_eq, T.
  destruct (get_current_record_fault_free (ch_id c) w FF)
    as (w1 & E & FF1 & (S1 & S2 & S3)).
  rewrite E, C.
  rewrite process_insert_change_eq, T.
  destruct (get_current_record_fault_free (ch_id c) w1 FF1)
    as (w2 & E2 & FF2 & (R1 & R2 & R3)).
  rewrite E2, S2, C.
  destruct (insert_new_record_fault_free c bid w2 ts odate FF2 T P)
    as (w3 & E3 & _ & K1 & K2 & K3).
  rewrite E3. simpl truthy. rewrite R3, S3.
  assert (Q : (next_key w =? 0) = false) by (apply Z.eqb_neq; exact NZ).
  rewrite Q. simpl negb. exists w3. split; [reflexivity|].
  rewrite K2, K1, K3, R1, R2, R3, S1, S2, S3. repeat split.
Qed.

Lemma get_current_record_fault_free_entered k w :
  fault_free w ->
  exists w', _get_current_record k w = (Ret (current_row k (working w)), w')
             /\ fault_free w' /\ same_data w w' /\ entered w' = entered w.
Proof.
  intros FF.
  destruct (get_current_record_fault_free k w FF) as (w' & E & FF' & S).
  exists w'. split; [exact E|]. split; [exact FF'|]. split; [exact S|].
  pose proof (get_current_record_entered k w) as EN. now rewrite E in EN.
Qed.

(** X3.  The duplicate test of the INSERT transition, on a key whose
    current row was made by an INSERT and has the capture time that the
    change reads as.  When the capture timestamp of the change carries
    no UTC offset the change is taken for a duplicate and skipped:
    nothing is written, whatever attribute values it carries.  When it
    carries an offset, as every timestamp that the extractor writes
    does, the test never holds and the change is handed to the UPDATE
    transition: a change that alters no attribute of the current row
    leaves the table alone after one redirection, and one that alters an
    attribute fails inside the block of a batch, where the rows are put
    back as of the last commit. *)
Theorem insert_duplicate_test (d : nat) (c : change) (bid : string)
    (w : warehouse) (cur : row) :
  fault_free w ->
  current_row (ch_id c) (working w) = Some cur ->
  fromisoformat (ch_cdc_timestamp c) = Some (cdc_timestamp cur) ->
  cdc_operation cur = "INSERT" ->
  (tz_aware (ch_cdc_timestamp c) = false ->
   exists w',
     _process_insert_change (S d) c bid w = (Ret (true, O), w')
     /\ same_data w w')
  /\ (tz_aware (ch_cdc_timestamp c) = true ->
      (has_changes cur c = false ->
       exists w',
         _process_insert_change (S (S d)) c bid w = (Ret (true, 1%nat), w')
         /\ same_data w w')
      /\ (has_changes cur c = true -> entered w = true ->
          exists w',
            _process_insert_change (S (S d)) c bid w = (Ret (false, 1%nat), w')
            /\ working w' = committed w
            /\ committed w' = committed w
            /\ next_key w' = next_key w)).
Proof.
  intros FF C T O.
  destruct (get_current_record_fault_free_entered (ch_id c) w FF)
    as (w1 & E & FF1 & S & EN1).
  split.
  - intros NA. rewrite process_insert_change_eq, T, E, C.
    unfold same_instant. rewrite NA, O, Z.eqb_refl. simpl.
    exists w1. split; [reflexivity|exact S].
  - intros AW.
    assert (ND : same_instant cur c (cdc_timestamp cur)
                 && String.eqb (cdc_operation cur) "INSERT" = false).
    { unfold same_instant. rewrite AW. reflexivity. }
    destruct (get_current_record_fault_free_entered (ch_id c) w1 FF1)
      as (w2 & E2 & FF2 & S2 & EN2).
    assert (C1 : current_row (ch_id c) (working w1) = Some cur).
    { destruct S as (_ & S & _). now rewrite S. }
    split.
    + intros HC. rewrite process_insert_change_eq, T, E, C, ND.
      rewrite process_update_change_eq, T, E2, C1, HC.
      exists w2. split; [reflexivity|].
      exact (same_data_trans _ _ _ S S2).
    + intros HC EN. rewrite process_insert_change_eq, T, E, C, ND.
      rewrite process_update_change_eq, T, E2, C1, HC.
      assert (EN' : entered w2 = true) by congruence.
      rewrite (expire_and_insert_refused c (cdc_timestamp cur) bid w2 EN').
      eexists. split; [reflexivity|]. simpl.
      destruct S as (S1 & _ & S3). destruct S2 as (R1 & _ & R3).
      repeat split; congruence.
Qed.

Lemma fault_free_set_entered b w : fault_free w -> fault_free (set_entered b w).
Proof. intros FF. exact FF. Qed.

Lemma expire_and_insert_fault_free c ts bid w cur odate :
  fault_free w ->
  entered w = false ->
  current_row (ch_id c) (working w) = Some cur ->
  valid_time_check (ch_id c) ts (working w) = true ->
  pg_timestamp (ch_order_date c) = Some odate ->
  current_unique (expire_rows (ch_id c) ts (working w)
                  ++ [new_row (next_key w) c odate ts bid]) = true ->
  exists w',
    expire_and_insert c ts bid w = (Ret true, w')
    /\ fault_free w'
    /\ working w' = expire_rows (ch_id c) ts (working w)
                    ++ [new_row (next_key w) c odate ts bid]
    /\ committed w' = working w'
    /\ next_key w' = next_key w + 1.
Proof.
  intros FF EN C V P U. unfold expire_and_insert, except_psycopg2.
  rewrite (with_connection_enter _ w EN). unfold bind at 1.
  destruct (sql_expire_fault_free (ch_id c) ts (set_entered true w)
              (fault_free_set_entered true w FF) V)
    as (w1 & E1 & FF1 & K1 & K2 & K3).
  rewrite E1. flat. rewrite C.
  change (option_map surrogate_key (Some cur)) with (Some (surrogate_key cur)).
  cbv iota. unfold bind at 1.
  destruct (sql_insert_fault_free c ts bid w1 odate FF1 P)
    as (w2 & E2 & FF2 & L1 & L2 & L3).
  rewrite E2. unfold ret at 1.
  assert (W2 : working w2 = expire_rows (ch_id c) ts (working w)
                           ++ [new_row (next_key w) c odate ts bid])
    by (rewrite L2, K2, K3; reflexivity).
  assert (U2 : current_unique (working (set_entered false w2)) = true)
    by (flat; rewrite W2; exact U).
  destruct (commit_fault_free (set_entered false w2)
              (fault_free_set_entered false w2 FF2) U2)
    as (w3 & E3 & FF3 & M1 & M2 & M3).
  rewrite E3. flat. exists w3. split; [reflexivity|]. split; [exact FF3|].
  rewrite M2, M1, M3, L3, K3. repeat split; auto.
Qed.

(** X4.  A change that alters an attribute of the current row of its
    key, when no statement fails.  Called outside any transaction
    block, with the capture time after the start of the current version
    and the uniqueness constraint met by the result, it makes the next
    version in one committed step: the current row is closed at the
    capture time, and the new row is valid from that same instant,
    open-ended and current, so the two intervals meet; an UPDATE does it
    directly, an INSERT that is not a duplicate after one redirection.
    Inside the block of a batch, where the loader calls it, the block of
    the transition cannot be entered: the change fails although no
    statement fails, and the rows are put back as of the last commit. *)
Theorem changed_update_opens_successor (d : nat) (c : change) (bid : string)
    (w : warehouse) (cur : row) (ts odate : Z) :
  fault_free w ->
  current_row (ch_id c) (working w) = Some cur ->
  has_changes cur c = true ->
  fromisoformat (ch_cdc_timestamp c) = Some ts ->
  pg_timestamp (ch_order_date c) = Some odate ->
  valid_time_check (ch_id c) ts (working w) = true ->
  current_unique (expire_rows (ch_id c) ts (working w)
                  ++ [new_row (next_key w) c odate ts bid]) = true ->
  (entered w = false ->
   exists w',
     _process_update_change (S d) c bid w = (Ret (true, O), w')
     /\ (same_instant cur c ts && String.eqb (cdc_operation cur) "INSERT"
           = false ->
         exists w'', _process_insert_change (S (S d)) c bid w
                     = (Ret (true, 1%nat), w'')
                     /\ working w'' = working w' /\ committed w'' = committed w'
                     /\ next_key w'' = next_key w')
     /\ working w' = expire_rows (ch_id c) ts (working w)
                     ++ [new_row (next_key w) c odate ts bid]
     /\ committed w' = working w'
     /\ next_key w' = next_key w + 1
     /\ In (close_row ts cur) (working w')
     /\ valid_to (close_row ts cur) = Some ts
     /\ valid_from (new_row (next_key w) c odate ts bid) = ts
     /\ count_current (ch_id c) (working w') = 1%nat)
  /\ (entered w = true ->
      (exists w',
         _process_update_change (S d) c bid w = (Ret (false, O), w')
         /\ working w' = committed w
         /\ committed w' = committed w
         /\ next_key w' = next_key w)
      /\ (same_instant cur c ts && String.eqb (cdc_operation cur) "INSERT"
            = false ->
          exists w',
            _process_insert_change (S (S d)) c bid w = (Ret (false, 1%nat), w')
            /\ working w' = committed w
            /\ committed w' = committed w
            /\ next_key w' = next_key w)).
Proof.
  intros FF C H T P V U. split.
  - intros EN.
    assert (STEP : forall w0 : warehouse,
              fault_free w0 -> same_data w w0 -> entered w0 = false ->
              exists w', _process_update_change (S d) c bid w0 = (Ret (true, O), w')
                /\ working w' = expire_rows (ch_id c) ts (working w)
                                ++ [new_row (next_key w) c odate ts bid]
                /\ committed w' = working w'
                /\ next_key w' = next_key w + 1).
    { intros w0 FF0 (S1 & S2 & S3) EN0. rewrite process_update_change_eq, T.
      destruct (get_current_record_fault_free_entered (ch_id c) w0 FF0)
        as (w1 & E & FF1 & (R1 & R2 & R3) & EN1).
      rewrite E, S2, C, H.
      assert (C1 : current_row (ch_id c) (working w1) = Some cur)
        by (rewrite R2, S2; exact C).
      assert (V1 : valid_time_check (ch_id c) ts (working w1) = true)
        by (rewrite R2, S2; exact V).
      assert (U1 : current_unique (expire_rows (ch_id c) ts (working w1)
                      ++ [new_row (next_key w1) c odate ts bid]) = true)
        by (rewrite R2, R3, S2, S3; exact U).
      assert (EN1' : entered w1 = false) by congruence.
      destruct (expire_and_insert_fault_free c ts bid w1 cur odate
                  FF1 EN1' C1 V1 P U1)
        as (w2 & E2 & _ & K1 & K2 & K3).
      rewrite E2. exists w2. split; [reflexivity|].
      rewrite K2, K1, K3, R2, R3, S2, S3. repeat split. }
    destruct (STEP w FF (same_data_refl w) EN) as (w' & E & K1 & K2 & K3).
    exists w'. split; [exact E|]. split.
    { intros ND. rewrite process_insert_change_eq, T.
      destruct (get_current_record_fault_free_entered (ch_id c) w FF)
        as (w1 & E1 & FF1 & S & EN1).
      rewrite E1, C, ND.
      assert (EN1' : entered w1 = false) by congruence.
      destruct (STEP w1 FF1 S EN1') as (w2 & E2 & L1 & L2 & L3).
      rewrite E2. exists w2. split; [reflexivity|].
      rewrite L1, L2, L3, L1, K1, K2, K3, K1. repeat split. }
    split; [exact K1|]. split; [exact K2|]. split; [exact K3|].
    split; [rewrite K1; apply in_or_app; left; now apply expire_rows_closes|].
    split; [reflexivity|]. split; [reflexivity|].
    rewrite K1, count_current_app, count_current_expire, count_current_new_row,
      Z.eqb_refl. reflexivity.
  - intros EN.
    assert (STEP : forall w0 : warehouse,
              fault_free w0 -> same_data w w0 -> entered w0 = true ->
              exists w', _process_update_change (S d) c bid w0
                         = (Ret (false, O), w')
                /\ working w' = committed w
                /\ committed w' = committed w
                /\ next_key w' = next_key w).
    { intros w0 FF0 (S1 & S2 & S3) EN0.
      destruct (get_current_record_fault_free_entered (ch_id c) w0 FF0)
        as (w1 & E & FF1 & (R1 & R2 & R3) & EN1).
      rewrite process_update_change_eq, T, E, S2, C, H.
      assert (EN1' : entered w1 = true) by congruence.
      rewrite (expire_and_insert_refused c ts bid w1 EN1').
      eexists. split; [reflexivity|]. simpl. repeat split; congruence. }
    split; [exact (STEP w FF (same_data_refl w) EN)|].
    intros ND. rewrite process_insert_change_eq, T.
    destruct (get_current_record_fault_free_entered (ch_id c) w FF)
      as (w1 & E1 & FF1 & S & EN1).
    rewrite E1, C, ND.
    assert (EN1' : entered w1 = true) by congruence.
    destruct (STEP w1 FF1 S EN1') as (w2 & E2 & L1 & L2 & L3).
    rewrite E2. exists w2. split; [reflexivity|]. auto.
Qed.

(** X5.  A change whose capture time is not later than the start of the
    current version cannot close it: the check on the validity interval
    fails the statement, the UPDATE transition reports failure, and the
    table is left as of the last commit with the sequence where it was. *)
Theorem stale_update_is_refused (d : nat) (c : change) (bid : string)
    (w : warehouse) (cur : row) (ts : Z) :
  fault_free w ->
  current_row (ch_id c) (working w) = Some cur ->
  has_changes cur c = true ->
  fromisoformat (ch_cdc_timestamp c) = Some ts ->
  ts <= valid_from cur ->
  exists w',
    _process_update_change (S d) c bid w = (Ret (false, O), w')
    /\ working w' = committed w
    /\ committed w' = committed w
    /\ next_key w' = next_key w.
Proof.
  intros FF C H T L. rewrite process_update_change_eq, T.
  destruct (get_current_record_fault_free (ch_id c) w FF)
    as (w1 & E & FF1 & (S1 & S2 & S3)).
  rewrite E, C, H.
  assert (V : valid_time_check (ch_id c) ts (working w1) = false).
  { rewrite S2. eapply valid_time_check_stale; eauto. }
  unfold expire_and_insert, except_psycopg2.
  destruct (entered w1) eqn:EN.
  { rewrite (with_connection_refused _ w1 EN). unfold bind, rollback, ret.
    eexists. split; [reflexivity|]. simpl. repeat split; congruence. }
  rewrite (with_connection_enter _ w1 EN). unfold bind at 1.
  destruct (sql_expire_check_fails (ch_id c) ts (set_entered true w1)
              (fault_free_set_entered true w1 FF1) V)
    as (w2 & E2 & (R1 & R2 & R3)).
  rewrite E2. unfold bind, rollback, ret. simpl. flat.
  eexists. split; [reflexivity|]. simpl. rewrite R1, R3, S1, S3.
  repeat split.
Qed.

Lemma valid_time_check_absent k ts rows :
  current_row k rows = None -> valid_time_check k ts rows = true.
Proof.
  intros C. unfold valid_time_check. apply forallb_forall. intros r I.
  destruct (current_of k r) eqn:Q; [|reflexivity].
  exfalso. unfold current_row in C.
  exact (eq_true_false_abs _ Q (find_none _ _ C r I)).
Qed.

(** X6.  A DELETE for a key that has no current row, when no statement
    fails.  Called outside any transaction block on a table that meets
    its uniqueness constraint, it succeeds and changes no row; it
    commits the transaction that is open.  Inside the block of a batch,
    where the loader calls it, its own block cannot be entered: the
    DELETE answers [False] and the rows are put back as of the last
    commit. *)
Theorem delete_on_absent_key (c : change) (bid : string) (w : warehouse)
    (ts : Z) :
  fault_free w ->
  current_row (ch_id c) (working w) = None ->
  fromisoformat (ch_cdc_timestamp c) = Some ts ->
  (entered w = false -> current_unique (working w) = true ->
   exists w',
     _process_delete_change c bid w = (Ret true, w')
     /\ working w' = working w
     /\ committed w' = working w
     /\ next_key w' = next_key w)
  /\ (entered w = true ->
      exists w',
        _process_delete_change c bid w = (Ret false, w')
        /\ working w' = committed w
        /\ committed w' = committed w
        /\ next_key w' = next_key w).
Proof.
  intros FF C T. split.
  - intros EN U. unfold _process_delete_change. rewrite T.
    unfold except_psycopg2. rewrite (with_connection_enter _ w EN).
    unfold bind at 1.
    pose proof (valid_time_check_absent (ch_id c) ts (working w) C) as V.
    destruct (sql_expire_fault_free (ch_id c) ts (set_entered true w)
                (fault_free_set_entered true w FF) V)
      as (w1 & E1 & FF1 & K1 & K2 & K3).
    rewrite E1. unfold ret at 1. flat.
    rewrite (expire_rows_absent _ ts _ C) in K2.
    assert (U1 : current_unique (working (set_entered false w1)) = true)
      by (flat; rewrite K2; exact U).
    destruct (commit_fault_free (set_entered false w1)
                (fault_free_set_entered false w1 FF1) U1)
      as (w2 & E2 & _ & M1 & M2 & M3).
    rewrite E2. flat. exists w2. split; [reflexivity|].
    rewrite M2, M1, M3, K2, K3. repeat split.
  - intros EN. rewrite (delete_change_refused c bid w EN), T.
    eexists. split; [reflexivity|]. simpl. repeat split.
Qed.

(** X7.  A DELETE for a key that has a current row, when no statement
    fails.  Called outside any transaction block, with the capture time
    after the start of the current version and the uniqueness constraint
    met by the result (the key has no closed version yet), it closes
    that row at the capture time and puts nothing in its place: the
    table has as many rows as before, the key has no current row, the
    sequence does not move, and the change is committed.  Inside the
    block of a batch, where the loader calls it, its own block cannot be
    entered: the DELETE answers [False], the rows are put back as of the
    last commit, and a current row that was committed stays current. *)
Theorem delete_closes_current_row (c : change) (bid : string) (w : warehouse)
    (cur : row) (ts : Z) :
  fault_free w ->
  current_row (ch_id c) (working w) = Some cur ->
  fromisoformat (ch_cdc_timestamp c) = Some ts ->
  (entered w = false ->
   valid_time_check (ch_id c) ts (working w) = true ->
   current_unique (expire_rows (ch_id c) ts (working w)) = true ->
   exists w',
     _process_delete_change c bid w = (Ret true, w')
     /\ working w' = expire_rows (ch_id c) ts (working w)
     /\ committed w' = working w'
     /\ next_key w' = next_key w
     /\ In (close_row ts cur) (working w')
     /\ length (working w') = length (working w)
     /\ count_current (ch_id c) (working w') = O)
  /\ (entered w = true ->
      exists w',
        _process_delete_change c bid w = (Ret false, w')
        /\ working w' = committed w
        /\ committed w' = committed w
        /\ next_key w' = next_key w
        /\ (current_row (ch_id c) (committed w) = Some cur ->
            current_row (ch_id c) (working w') = Some cur)).
Proof.
  intros FF C T. split.
  - intros EN V U. unfold _process_delete_change. rewrite T.
    unfold except_psycopg2. rewrite (with_connection_enter _ w EN).
    unfold bind at 1.
    destruct (sql_expire_fault_free (ch_id c) ts (set_entered true w)
                (fault_free_set_entered true w FF) V)
      as (w1 & E1 & FF1 & K1 & K2 & K3).
    rewrite E1. unfold ret at 1. flat.
    assert (U1 : current_unique (working (set_entered false w1)) = true)
      by (flat; rewrite K2; exact U).
    destruct (commit_fault_free (set_entered false w1)
                (fault_free_set_entered false w1 FF1) U1)
      as (w2 & E2 & _ & M1 & M2 & M3).
    rewrite E2. flat. exists w2. split; [reflexivity|].
    rewrite M2, M1, M3, K2, K3. repeat split.
    + now apply expire_rows_closes.
    + apply expire_rows_length.
    + apply count_current_expire.
  - intros EN. rewrite (delete_change_refused c bid w EN), T.
    eexists. split; [reflexivity|]. simpl. repeat split. auto.
Qed.

(** ** What the helpers and the dispatcher let out *)

Lemma expire_current_record_ret k ts w :
  exists b w', _expire_current_record k ts w = (Ret b, w').
Proof.
  unfold _expire_current_record, except_psycopg2. unfold bind.
  destruct (sql_expire_cases k ts w) as [(w' & E & _)|(w' & E & _)]; rewrite E;
    unfold ret; eauto.
Qed.

Lemma process_change_record_ret c bid w :
  exists b w', _process_change_record c bid w = (Ret b, w').
Proof.
  unfold _process_change_record, except_any.
  match goal with
  | |- context [match ?m w with _ => _ end] => destruct (m w) as [[b|e] w']
  end; unfold ret; eauto.
Qed.

(** X8.  The three statement helpers and the dispatcher never raise:
    every error of the database, of the timestamp parser or of the
    redirection is turned into [None] or [False].  A lookup that finds
    nothing although the key has a current row is a lookup that failed,
    and it leaves the transaction in the failed state, in which the
    insert that follows is refused and writes nothing. *)
Theorem helpers_never_raise (k ts : Z) (c : change) (bid : string)
    (w : warehouse) :
  (exists r w', _get_current_record k w = (Ret r, w'))
  /\ (exists b w', _expire_current_record k ts w = (Ret b, w'))
  /\ (exists r w', _insert_new_record c bid w = (Ret r, w'))
  /\ (exists b w', _process_change_record c bid w = (Ret b, w'))
  /\ (forall w', _get_current_record k w = (Ret None, w') ->
                 current_row k (working w) <> None ->
                 aborted w' = true
                 /\ _insert_new_record c bid w' = (Ret None, w')).
Proof.
  split; [apply get_current_record_ret|].
  split; [apply expire_current_record_ret|].
  split; [apply insert_new_record_ret|].
  split; [apply process_change_record_ret|].
  intros w' E C.
  assert (A : aborted w' = true).
  { destruct (get_current_record_cases k w) as [(w1 & E1 & _)|(w1 & E1 & A1 & _)];
      rewrite E1 in E; inversion E; subst; congruence. }
  split; [exact A|now apply insert_new_record_aborted].
Qed.

(** ** Changes that cannot be applied *)

Lemma unusable_change_record c bid w :
  unusable c -> _process_change_record c bid w = (Ret false, w).
Proof.
  intros [T|(N1 & N2 & N3)]; unfold _process_change_record, except_any.
  - destruct (String.eqb (ch_operation_type c) "INSERT").
    { unfold bind. change recursion_limit with (S 999).
      rewrite process_insert_change_eq, T. reflexivity. }
    destruct (String.eqb (ch_operation_type c) "UPDATE").
    { unfold bind. change recursion_limit with (S 999).
      rewrite process_update_change_eq, T. reflexivity. }
    destruct (String.eqb (ch_operation_type c) "DELETE"); [|reflexivity].
    unfold _process_delete_change. rewrite T. reflexivity.
  - apply String.eqb_neq in N1, N2, N3. rewrite N1, N2, N3. reflexivity.
Qed.

Lemma process_latest_unusable bid c : forall latest w,
  In c latest -> unusable c ->
  exists e w', process_latest latest bid w = (Raise e, w').
Proof.
  induction latest as [|c0 cs IH]; intros w I U; [destruct I|].
  simpl. unfold bind at 1.
  destruct (process_change_record_ret c0 bid w) as (b & w1 & E). rewrite E.
  destruct b; [|unfold raise; eauto].
  destruct I as [->|I].
  - rewrite (unusable_change_record c bid w U) in E. discriminate E.
  - destruct (IH w1 I U) as (e & w2 & E2). unfold bind. rewrite E2. eauto.
Qed.

(** X9.  A change record with an operation type other than INSERT,
    UPDATE and DELETE, or with a capture timestamp that does not parse,
    is answered [False] before any statement is sent.  A batch whose
    effective changes include such a record fails, and it is not entered
    in the ledger, so every later run selects it again. *)
Theorem unusable_change_fails_batch (f : batch_file) (st : loader)
    (changes : list change) (c : change) :
  file_changes f = Some changes ->
  In c (effective_changes changes) ->
  unusable c ->
  already_processed (_get_processed_files (processed_log st))
                    (file_name f) (_generate_batch_id changes) = Ret false ->
  (forall bid w, _process_change_record c bid w = (Ret false, w))
  /\ exists st', _process_batch_file f st = (false, st')
                 /\ processed_log st' = processed_log st.
Proof.
  intros FC I U AP. split; [intros bid w; now apply unusable_change_record|].
  unfold _process_batch_file. rewrite FC.
  destruct changes as [|c0 cs]; [destruct I|]. rewrite AP.
  destruct (entered (db st)) eqn:EN.
  { rewrite (with_connection_refused _ (db st) EN). eexists.
    split; reflexivity. }
  rewrite (with_connection_enter _ (db st) EN).
  destruct (process_latest_unusable (_generate_batch_id (c0 :: cs)) c
              (effective_changes (c0 :: cs)) (set_entered true (db st)) I U)
    as (e & w' & E).
  rewrite E. eexists. split; reflexivity.
Qed.

(** ** The ledger and the transaction around a batch *)

(** The summary that ends a run: one statement, whose failure is
    swallowed and leaves the session in the failed state. *)
Lemma log_summary_statistics_cases w :
  exists w', _log_summary_statistics w = (Ret tt, w')
    /\ same_data w w' /\ entered w' = entered w
    /\ (aborted w' = true <-> fst (statement w) = Raise Psycopg2Error).
Proof.
  unfold _log_summary_statistics, except_psycopg2.
  pose proof (statement_entered w) as EN.
  destruct (statement_cases w) as [(w' & E & A & A' & S & F)|(w' & E & A' & S)];
    rewrite E in *; simpl in EN.
  - exists w'. split; [reflexivity|]. split; [exact S|]. split; [exact EN|].
    simpl. split; [congruence|discriminate].
  - exists w'. split; [reflexivity|]. split; [exact S|]. split; [exact EN|].
    simpl. split; auto.
Qed.

Lemma load_change_logs_cases dir st :
  (unprocessed_files (processed_log st) dir = []
   /\ load_change_logs dir st = st)
  \/ (unprocessed_files (processed_log st) dir <> []
      /\ processed_log
           (load_change_logs dir st)
         = processed_log
             (fold_left (fun s f => snd (_process_batch_file f s))
                        (unprocessed_files (processed_log st) dir) st)
      /\ db (load_change_logs dir st)
         = snd (_log_summary_statistics
                  (db (fold_left (fun s f => snd (_process_batch_file f s))
                                 (unprocessed_files (processed_log st) dir)
                                 st)))).
Proof.
  unfold load_change_logs.
  destruct (unprocessed_files (processed_log st) dir) as [|g files].
  - left. split; reflexivity.
  - right. split; [discriminate|]. split; reflexivity.
Qed.

(** X10.  The ledger only grows, and only by applied batches: a call of
    [_process_batch_file] that reports failure leaves the ledger as it
    was, and a call that reports success either leaves it as it was (the
    batch was empty or already recorded) or appends the one line made of
    the file name, a bar and the batch id.  A whole run appends lines
    and removes none. *)
Theorem ledger_grows_by_applied_batches (f : batch_file) (st : loader)
    (dir : list batch_file) :
  (fst (_process_batch_file f st) = false ->
   processed_log (snd (_process_batch_file f st)) = processed_log st)
  /\ (processed_log (snd (_process_batch_file f st)) = processed_log st
      \/ exists changes,
           file_changes f = Some changes
           /\ fst (_process_batch_file f st) = true
           /\ processed_log (snd (_process_batch_file f st))
              = processed_log st
                ++ [(file_name f ++ "|" ++ _generate_batch_id changes)%string])
  /\ exists added,
       processed_log (load_change_logs dir st) = processed_log st ++ added.
Proof.
  assert (ONE : forall g s,
            (fst (_process_batch_file g s) = false ->
             processed_log (snd (_process_batch_file g s)) = processed_log s)
            /\ (processed_log (snd (_process_batch_file g s)) = processed_log s
                \/ exists changes,
                     file_changes g = Some changes
                     /\ fst (_process_batch_file g s) = true
                     /\ processed_log (snd (_process_batch_file g s))
                        = processed_log s
                          ++ [(file_name g ++ "|" ++ _generate_batch_id changes)%string])).
  { intros g s. unfold _process_batch_file.
    destruct (file_changes g) as [[|c cs]|] eqn:FC; try (split; auto; fail).
    destruct (already_processed (_get_processed_files (processed_log s))
                (file_name g) (_generate_batch_id (c :: cs))) as [[|]|e];
      try (split; auto; fail).
    destruct (with_connection
                (process_latest (effective_changes (c :: cs))
                                (_generate_batch_id (c :: cs))) (db s))
      as [[n|e] w]; simpl.
    - split; [discriminate|]. right. exists (c :: cs). auto.
    - split; auto. }
  split; [apply ONE|]. split; [apply ONE|].
  assert (RUN : forall files s, exists added,
            processed_log (fold_left (fun s f => snd (_process_batch_file f s))
                                     files s)
            = processed_log s ++ added).
  { induction files as [|g files IH]; intros s; simpl.
    - exists []. now rewrite app_nil_r.
    - destruct (IH (snd (_process_batch_file g s))) as (added & E). rewrite E.
      destruct (ONE g s) as (_ & [K|(changes & _ & _ & K)]); rewrite K.
      + exists added. reflexivity.
      + eexists. rewrite <- app_assoc. reflexivity. }
  destruct (load_change_logs_cases dir st) as [(_ & E)|(_ & E & _)]; rewrite E.
  - exists []. now rewrite app_nil_r.
  - apply RUN.
Qed.

Lemma with_connection_closed {A} (body : M A) w u w' :
  committed w = working w -> aborted w = false ->
  with_connection body w = (u, w') ->
  committed w' = working w' /\ aborted w' = false.
Proof.
  intros C AB H. destruct (entered w) eqn:EN.
  { rewrite (with_connection_refused body w EN) in H. inversion H; subst.
    auto. }
  destruct (with_connection_cases body w EN)
    as (u1 & w1 & B & [(a & w2 & _ & E & _ & A2 & _ & K)
                      |(e & w2 & E & _ & A2 & _ & K1 & K2 & _)]);
    rewrite E in H; inversion H; subst.
  - split; [|exact A2].
    destruct K as [(_ & _ & K1 & K2)|(_ & K1 & K2)]; congruence.
  - split; [congruence|exact A2].
Qed.

(** X11.  A batch never leaves uncommitted work or a failed transaction
    behind it: when the connection had none before the call of
    [_process_batch_file], it has none after it, whatever the call
    reports.  A run leaves no change of rows uncommitted either, but it
    ends with the SELECT of the summary, which nothing commits or rolls
    back: the session is left in the failed state exactly when the run
    had batches to process and that SELECT failed. *)
Theorem batch_leaves_nothing_uncommitted (f : batch_file) (st : loader)
    (dir : list batch_file) :
  committed (db st) = working (db st) -> aborted (db st) = false ->
  (committed (db (snd (_process_batch_file f st)))
   = working (db (snd (_process_batch_file f st)))
   /\ aborted (db (snd (_process_batch_file f st))) = false)
  /\ committed (db (load_change_logs dir st))
     = working (db (load_change_logs dir st))
  /\ (aborted (db (load_change_logs dir st)) = true <->
      unprocessed_files (processed_log st) dir <> []
      /\ fst (statement
                (db (fold_left (fun s f => snd (_process_batch_file f s))
                               (unprocessed_files (processed_log st) dir) st)))
         = Raise Psycopg2Error).
Proof.
  assert (ONE : forall g s,
            committed (db s) = working (db s) -> aborted (db s) = false ->
            committed (db (snd (_process_batch_file g s)))
            = working (db (snd (_process_batch_file g s)))
            /\ aborted (db (snd (_process_batch_file g s))) = false).
  { intros g s C A. unfold _process_batch_file.
    destruct (file_changes g) as [[|c cs]|]; try (split; assumption).
    destruct (already_processed (_get_processed_files (processed_log s))
                (file_name g) (_generate_batch_id (c :: cs))) as [[|]|e];
      try (split; assumption).
    destruct (with_connection
                (process_latest (effective_changes (c :: cs))
                                (_generate_batch_id (c :: cs))) (db s))
      as [u w] eqn:W.
    apply (with_connection_closed _ _ _ _ C A) in W.
    destruct u; simpl; exact W. }
  intros C A. split; [now apply ONE|].
  assert (RUN : forall files s,
            committed (db s) = working (db s) -> aborted (db s) = false ->
            committed (db (fold_left (fun s f => snd (_process_batch_file f s))
                                     files s))
            = working (db (fold_left (fun s f => snd (_process_batch_file f s))
                                     files s))
            /\ aborted (db (fold_left (fun s f => snd (_process_batch_file f s))
                                      files s)) = false).
  { induction files as [|g files IH]; intros s C0 A0; simpl; [auto|].
    destruct (ONE g s C0 A0) as (C1 & A1). now apply IH. }
  destruct (load_change_logs_cases dir st) as [(N & E)|(N & _ & E)]; rewrite E.
  - split; [exact C|]. rewrite A. split; [discriminate|].
    intros (K & _). congruence.
  - destruct (RUN (unprocessed_files (processed_log st) dir) st C A)
      as (C1 & A1).
    destruct (log_summary_statistics_cases
                (db (fold_left (fun s f => snd (_process_batch_file f s))
                               (unprocessed_files (processed_log st) dir) st)))
      as (w' & E' & (S1 & S2 & _) & _ & AB).
    rewrite E'. simpl. split; [congruence|].
    rewrite AB. split; [intros K; split; assumption|intros (_ & K); exact K].
Qed.

Lemma expire_rows_others k ts rows :
  filter (fun r => negb (order_key r =? k)) (expire_rows k ts rows)
  = filter (fun r => negb (order_key r =? k)) rows.
Proof.
  unfold expire_rows. induction rows as [|r rows IH]; simpl; [reflexivity|].
  destruct (current_of k r) eqn:C.
  - unfold current_of in C. apply andb_true_iff in C. destruct C as [C _].
    simpl. rewrite C. simpl. exact IH.
  - destruct (negb (order_key r =? k)); now rewrite IH.
Qed.

(** X12.  A transition that reports success touches the rows of its own
    key only: the rows of every other key stand in the table as they
    did, in the same order. *)
Theorem transition_keeps_other_keys (c : change) (bid : string)
    (w w' : warehouse) :
  _process_change_record c bid w = (Ret true, w') ->
  filter (fun r => negb (order_key r =? ch_id c)) (working w')
  = filter (fun r => negb (order_key r =? ch_id c)) (working w).
Proof.
  intros H. destruct (process_change_record_success _ _ _ _ H) as (AP & _).
  assert (N : forall key od ts,
            filter (fun r => negb (order_key r =? ch_id c))
                   [new_row key c od ts bid] = []).
  { intros key od ts. simpl. rewrite Z.eqb_refl. reflexivity. }
  destruct AP as [_ [cur C E|key od ts C E|cur key od ts C E]|ts _ E]; rewrite E.
  - reflexivity.
  - rewrite filter_app, N. apply app_nil_r.
  - rewrite filter_app, N, app_nil_r. apply expire_rows_others.
  - apply expire_rows_others.
Qed.

(** ** The single current row, whatever fails *)

Lemma upserted_single_current c bid rows rows' :
  upserted c bid rows rows' -> single_current rows -> single_current rows'.
Proof.
  intros U S k.
  destruct U as [cur C E|key od ts C E|cur key od ts C E]; subst rows'.
  - apply S.
  - rewrite count_current_app, count_current_new_row.
    destruct (ch_id c =? k) eqn:Q.
    + apply Z.eqb_eq in Q. subst k. apply current_row_none_count in C.
      rewrite C. simpl. lia.
    + pose proof (S k). lia.
  - rewrite count_current_app, count_current_new_row.
    destruct (ch_id c =? k) eqn:Q.
    + apply Z.eqb_eq in Q. subst k. rewrite count_current_expire. simpl. lia.
    + apply Z.eqb_neq in Q. rewrite count_current_expire_other by exact Q.
      pose proof (S k). lia.
Qed.

Lemma expire_rows_single_current k ts rows :
  single_current rows -> single_current (expire_rows k ts rows).
Proof.
  intros S k'. destruct (Z.eq_dec k k') as [<-|N].
  - rewrite count_current_expire. lia.
  - rewrite count_current_expire_other by exact N. apply S.
Qed.

Lemma insert_new_record_outcome c bid w u w' :
  _insert_new_record c bid w = (u, w') ->
  committed w' = committed w
  /\ (working w' = working w
      \/ (aborted w = false
          /\ exists odate ts,
               working w' = working w ++ [new_row (next_key w) c odate ts bid])).
Proof.
  unfold _insert_new_record, except_psycopg2.
  destruct (fromisoformat (ch_cdc_timestamp c)) as [ts|].
  - unfold bind at 1.
    destruct (sql_insert_cases c ts bid w)
      as [(w1 & E & _ & (S1 & S2 & _))|(od & w1 & E & _ & A & _ & S1 & S2 & _)];
      rewrite E; unfold ret; intros H; inversion H; subst.
    + split; [exact S1|left; exact S2].
    + split; [exact S1|right]. split; [exact A|]. eauto.
  - unfold bind, fail_statement.
    destruct (statement_cases w)
      as [(w1 & E & _ & _ & (S1 & S2 & _) & _)|(w1 & E & _ & (S1 & S2 & _))];
      rewrite E; unfold ret; intros H; inversion H; subst; simpl; auto.
Qed.

(** Where a transition can leave the rows, whatever it reports. *)
Lemma transitions_outcome d : forall c bid w u w',
  (_process_insert_change d c bid w = (u, w')
   \/ _process_update_change d c bid w = (u, w')) ->
  (working w' = working w \/ working w' = committed w
   \/ upserted c bid (working w) (working w'))
  /\ (committed w' = committed w \/ committed w' = working w').
Proof.
  induction d as [|d IH]; intros c bid w u w'.
  - simpl. unfold raise. intros [H|H]; inversion H; subst; auto.
  - rewrite process_insert_change_eq, process_update_change_eq.
    destruct (fromisoformat (ch_cdc_timestamp c)) as [ts|];
      [|intros [H|H]; inversion H; subst; auto].
    destruct (get_current_record_cases (ch_id c) w)
      as [(w1 & E & A & A1 & (S1 & S2 & S3) & F)|(w1 & E & A1 & (S1 & S2 & S3))];
      rewrite E.
    + destruct (current_row (ch_id c) (working w)) as [r|] eqn:C; intros [H|H].
      * destruct (same_instant r c ts && String.eqb (cdc_operation r) "INSERT").
        { inversion H; subst. auto. }
        destruct (_process_update_change d c bid w1) as [[res|e] w2] eqn:U;
          inversion H; subst;
          destruct (IH c bid w1 _ _ (or_intror U)) as (K1 & K2);
          rewrite S1, S2 in *; auto.
      * destruct (has_changes r c); [|inversion H; subst; auto].
        assert (NC : current_row (ch_id c) (working w1) <> None)
          by (rewrite S2, C; discriminate).
        destruct (expire_and_insert_cases c ts bid w1 NC)
          as (ok & w2 & E2 & _ & CW & [(_ & (od & _ & W) & _)|(_ & W & _)]);
          rewrite E2 in H; inversion H; subst.
        -- split; [|right; exact CW]. right. right.
           rewrite S2, S3 in W. eapply upserted_next; eauto.
        -- split; [|right; exact CW]. right. left. congruence.
      * destruct (_insert_new_record c bid w1) as [[k|e] w2] eqn:I;
          inversion H; subst;
          destruct (insert_new_record_outcome _ _ _ _ _ I) as (K1 & [K2|(_ & od & ts' & K2)]);
          (split; [|left; congruence]); rewrite S2 in K2; auto;
          right; right; eapply upserted_first; eauto.
      * destruct (_process_insert_change d c bid w1) as [[res|e] w2] eqn:U;
          inversion H; subst;
          destruct (IH c bid w1 _ _ (or_introl U)) as (K1 & K2);
          rewrite S1, S2 in *; auto.
    + intros [H|H].
      * rewrite (insert_new_record_aborted _ _ _ A1) in H. inversion H; subst.
        auto.
      * destruct (insert_change_aborted d c bid w1 A1) as (u1 & E1).
        rewrite E1 in H. destruct u1; inversion H; subst; auto.
Qed.

Lemma delete_change_outcome c bid w u w' :
  _process_delete_change c bid w = (u, w') ->
  w' = w
  \/ (working w' = committed w /\ committed w' = committed w)
  \/ (exists ts, working w' = expire_rows (ch_id c) ts (working w)
                 /\ committed w' = working w').
Proof.
  unfold _process_delete_change.
  destruct (fromisoformat (ch_cdc_timestamp c)) as [ts|];
    [|unfold raise; intros H; inversion H; auto].
  unfold except_psycopg2.
  destruct (entered w) eqn:EN.
  { rewrite (with_connection_refused _ w EN). unfold bind, rollback, ret.
    intros H. inversion H; subst. simpl. right. left. auto. }
  assert (BODY : forall u1 w1,
            (sql_expire (ch_id c) ts ;;; ret true) (set_entered true w)
            = (u1, w1) ->
            committed w1 = committed w
            /\ (u1 = Raise Psycopg2Error
                \/ (u1 = Ret true /\ aborted w1 = false
                    /\ working w1 = expire_rows (ch_id c) ts (working w)))).
  { intros u1 w1. unfold bind.
    destruct (sql_expire_cases (ch_id c) ts (set_entered true w))
      as [(w3 & E & _ & (S1 & S2 & S3))|(w3 & E & _ & _ & A1 & S1 & S2 & S3)];
      rewrite E; unfold ret; intros H; inversion H; subst; flat; auto. }
  destruct (with_connection_cases (sql_expire (ch_id c) ts ;;; ret true) w EN)
    as (u1 & w1 & B & [(a & w2 & U & E & _ & _ & _ & K)
                      |(e & w2 & E & _ & _ & _ & K1 & K2 & K3)]);
    rewrite E; destruct (BODY _ _ B) as (CM & Q).
  - intros H. inversion H; subst.
    destruct Q as [Q|(_ & A1 & W1)]; [discriminate|].
    destruct K as [(_ & _ & K1 & K2)|(K & _)]; [|congruence].
    right. right. exists ts. split; congruence.
  - assert (EP : e = Psycopg2Error).
    { destruct K3 as [K3|(a & _ & K3)]; [|exact K3].
      destruct Q as [Q|(Q & _)]; congruence. }
    subst e. unfold bind, rollback, ret. intros H. inversion H; subst. simpl.
    right. left. split; congruence.
Qed.

Lemma process_change_record_single_current c bid w u w' :
  single_current_table w -> _process_change_record c bid w = (u, w') ->
  single_current_table w'.
Proof.
  intros (SW & SC) H.
  assert (UP : forall d v,
            (_process_insert_change d c bid w = (v, w')
             \/ _process_update_change d c bid w = (v, w')) ->
            single_current_table w').
  { intros d v K. destruct (transitions_outcome d c bid w v w' K) as (K1 & K2).
    assert (W : single_current (working w')).
    { destruct K1 as [K1|[K1|K1]]; [rewrite K1; exact SW|rewrite K1; exact SC|].
      eapply upserted_single_current; eauto. }
    split; [exact W|]. destruct K2 as [K2|K2]; rewrite K2; assumption. }
  revert H. unfold _process_change_record, except_any.
  destruct (String.eqb (ch_operation_type c) "INSERT").
  { unfold bind.
    destruct (_process_insert_change recursion_limit c bid w) as [[res|e] w1] eqn:T;
      unfold ret; intros H; inversion H; subst; eapply UP; eauto. }
  destruct (String.eqb (ch_operation_type c) "UPDATE").
  { unfold bind.
    destruct (_process_update_change recursion_limit c bid w) as [[res|e] w1] eqn:T;
      unfold ret; intros H; inversion H; subst; eapply UP; eauto. }
  destruct (String.eqb (ch_operation_type c) "DELETE");
    [|unfold ret; intros H; inversion H; subst; split; assumption].
  destruct (_process_delete_change c bid w) as [[b|e] w1] eqn:T;
    unfold ret; intros H; inversion H; subst;
    (destruct (delete_change_outcome _ _ _ _ _ T)
      as [->|[(K1 & K2)|(ts & K1 & K2)]];
     [split; assumption
     |split; [rewrite K1|rewrite K2]; assumption
     |assert (W : single_current (working w'))
        by (rewrite K1; now apply expire_rows_single_current);
      split; [exact W|rewrite K2; exact W]]).
Qed.

Lemma process_latest_single_current bid : forall latest w u w',
  single_current_table w -> process_latest latest bid w = (u, w') ->
  single_current_table w'.
Proof.
  induction latest as [|c cs IH]; intros w u w' S; simpl.
  - unfold ret. intros H. inversion H; subst. exact S.
  - unfold bind at 1.
    destruct (_process_change_record c bid w) as [[[|]|e] w1] eqn:P;
      pose proof (process_change_record_single_current _ _ _ _ _ S P) as S1.
    + unfold bind.
      destruct (process_latest cs bid w1) as [[n|e] w2] eqn:R; unfold ret;
        intros H; inversion H; subst; eapply IH; eauto.
    + unfold raise. intros H. inversion H; subst. exact S1.
    + intros H. inversion H; subst. exact S1.
Qed.

Lemma with_connection_single_current {A} (body : M A) w u w' :
  single_current_table w ->
  (forall v w1, body (set_entered true w) = (v, w1) ->
                single_current_table w1) ->
  with_connection body w = (u, w') -> single_current_table w'.
Proof.
  intros S0 B H. destruct (entered w) eqn:EN.
  { rewrite (with_connection_refused body w EN) in H. inversion H; subst.
    exact S0. }
  destruct (with_connection_cases body w EN)
    as (u1 & w1 & BE & [(a & w2 & _ & E & _ & _ & _ & K)
                       |(e & w2 & E & _ & _ & _ & K1 & K2 & _)]);
    rewrite E in H; inversion H; subst; destruct (B _ _ BE) as (SW & SC).
  - destruct K as [(_ & _ & K1 & K2)|(_ & K1 & K2)];
      split; [rewrite K2|rewrite K1|rewrite K2|rewrite K1]; assumption.
  - split; [rewrite K2|rewrite K1]; exact SC.
Qed.

(** X13.  No batch and no run of the loader, whatever fails in it and
    whatever it reports, leaves a natural key with two current rows:
    when every key has at most one current row before, in the rows in
    sight and in the committed rows, the same holds after. *)
Theorem never_two_current_rows (f : batch_file) (st : loader)
    (dir : list batch_file) :
  single_current_table (db st) ->
  single_current_table (db (snd (_process_batch_file f st)))
  /\ single_current_table (db (load_change_logs dir st)).
Proof.
  assert (ONE : forall g s, single_current_table (db s) ->
                            single_current_table (db (snd (_process_batch_file g s)))).
  { intros g s S. unfold _process_batch_file.
    destruct (file_changes g) as [[|c cs]|]; try exact S.
    destruct (already_processed (_get_processed_files (processed_log s))
                (file_name g) (_generate_batch_id (c :: cs))) as [[|]|e];
      try exact S.
    destruct (with_connection
                (process_latest (effective_changes (c :: cs))
                                (_generate_batch_id (c :: cs))) (db s))
      as [u w] eqn:W.
    assert (SW : single_current_table w).
    { eapply with_connection_single_current; [exact S| |exact W].
      intros v w1 B. eapply process_latest_single_current; [|exact B].
      exact S. }
    destruct u; exact SW. }
  intros S. split; [now apply ONE|].
  assert (RUN : forall files s, single_current_table (db s) ->
            single_current_table
              (db (fold_left (fun s f => snd (_process_batch_file f s))
                             files s))).
  { induction files as [|g files IH]; intros s S0; simpl; [exact S0|].
    apply IH, ONE, S0. }
  destruct (load_change_logs_cases dir st) as [(_ & E)|(_ & _ & E)]; rewrite E.
  - exact S.
  - destruct (log_summary_statistics_cases
                (db (fold_left (fun s f => snd (_process_batch_file f s))
                               (unprocessed_files (processed_log st) dir) st)))
      as (w' & E' & (S1 & S2 & _) & _).
    rewrite E'. simpl.
    destruct (RUN (unprocessed_files (processed_log st) dir) st S) as (R1 & R2).
    split; [rewrite S2|rewrite S1]; assumption.
Qed.

(** ** Properties of the table that every computation keeps *)

Section TableInvariant.
Variable I : list row -> list row -> Z -> Prop.
Hypothesis I_expire : forall cm wk nk k ts,
  I cm wk nk -> valid_time_check k ts wk = true ->
  I cm (expire_rows k ts wk) nk.
Hypothesis I_insert : forall cm wk nk c odate ts bid,
  I cm wk nk -> I cm (wk ++ [new_row nk c odate ts bid]) (nk + 1).
Hypothesis I_commit : forall cm wk nk, I cm wk nk -> I wk wk nk.
Hypothesis I_rollback : forall cm wk nk, I cm wk nk -> I cm cm nk.

Lemma table_holds_same_data w w' :
  same_data w w' -> table_holds I w -> table_holds I w'.
Proof.
  unfold table_holds. intros (S1 & S2 & S3). now rewrite S1, S2, S3.
Qed.

Lemma keeps_ret {A} (a : A) : keeps I (ret a).
Proof. intros w u w' R H. inversion H; subst. exact R. Qed.

Lemma keeps_raise {A} e : keeps I (@raise A e).
Proof. intros w u w' R H. inversion H; subst. exact R. Qed.

Lemma keeps_bind {A B} (m : M A) (f : A -> M B) :
  keeps I m -> (forall a, keeps I (f a)) -> keeps I (bind m f).
Proof.
  intros PM PF w u w' R. unfold bind.
  destruct (m w) as [[a|e] w1] eqn:E.
  - intros H. exact (PF a w1 u w' (PM _ _ _ R E) H).
  - intros H. inversion H; subst. exact (PM _ _ _ R E).
Qed.

Lemma keeps_except_psycopg2 {A} (m h : M A) :
  keeps I m -> keeps I h -> keeps I (except_psycopg2 m h).
Proof.
  intros PM PH w u w' R. unfold except_psycopg2.
  destruct (m w) as [[a|[| | |]] w1] eqn:E; intros H;
    try (inversion H; subst; exact (PM _ _ _ R E)).
  exact (PH w1 u w' (PM _ _ _ R E) H).
Qed.

Lemma keeps_except_any {A} (m h : M A) :
  keeps I m -> keeps I h -> keeps I (except_any m h).
Proof.
  intros PM PH w u w' R. unfold except_any.
  destruct (m w) as [[a|e] w1] eqn:E; intros H.
  - inversion H; subst. exact (PM _ _ _ R E).
  - exact (PH w1 u w' (PM _ _ _ R E) H).
Qed.

Lemma keeps_commit : keeps I commit.
Proof.
  intros w u w' R H. unfold table_holds in *.
  destruct (commit_cases w)
    as [(w1 & E & _ & _ & U1 & U2 & U3 & _)|(r & w1 & E & _ & U1 & U2 & U3 & _)];
    rewrite E in H; inversion H; subst; rewrite U1, U2, U3.
  - eapply I_commit; eauto.
  - eapply I_rollback; eauto.
Qed.

Lemma keeps_rollback : keeps I rollback.
Proof.
  intros w u w' R H. unfold rollback in H. inversion H; subst.
  unfold table_holds in *. simpl. eapply I_rollback; eauto.
Qed.

Lemma keeps_with_connection {A} (m : M A) :
  keeps I m -> keeps I (with_connection m).
Proof.
  intros PM w u w' R. unfold with_connection.
  destruct (entered w); [intros H; inversion H; subst; exact R|].
  assert (R0 : table_holds I (set_entered true w)) by exact R.
  destruct (m (set_entered true w)) as [[a|e] w1] eqn:E.
  - assert (R1 : table_holds I (set_entered false w1))
      by exact (PM _ _ _ R0 E).
    destruct (commit (set_entered false w1)) as [[[]|e] w2] eqn:C;
      intros H; inversion H; subst; exact (keeps_commit _ _ _ R1 C).
  - intros H. inversion H; subst.
    assert (R1 : table_holds I (set_entered false w1))
      by exact (PM _ _ _ R0 E).
    exact (keeps_rollback (set_entered false w1) (Ret tt) _ R1 eq_refl).
Qed.

Lemma keeps_statement : keeps I statement.
Proof.
  intros w u w' R H.
  destruct (statement_cases w) as [(w1 & E & _ & _ & S & _)|(w1 & E & _ & S)];
    rewrite E in H; inversion H; subst; eapply table_holds_same_data; eauto.
Qed.

Lemma keeps_get_current_record k : keeps I (_get_current_record k).
Proof.
  intros w u w' R H.
  destruct (get_current_record_cases k w) as [(w1 & E & _ & _ & S & _)|(w1 & E & _ & S)];
    rewrite E in H; inversion H; subst; eapply table_holds_same_data; eauto.
Qed.

Lemma keeps_sql_expire k ts : keeps I (sql_expire k ts).
Proof.
  intros w u w' R H.
  destruct (sql_expire_cases k ts w)
    as [(w1 & E & _ & S)|(w1 & E & V & _ & _ & S1 & S2 & S3)];
    rewrite E in H; inversion H; subst.
  - eapply table_holds_same_data; eauto.
  - unfold table_holds in *. rewrite S1, S2, S3. now apply I_expire.
Qed.

Lemma keeps_sql_insert c ts bid : keeps I (sql_insert c ts bid).
Proof.
  intros w u w' R H.
  destruct (sql_insert_cases c ts bid w)
    as [(w1 & E & _ & S)|(od & w1 & E & _ & _ & _ & S1 & S2 & S3)];
    rewrite E in H; inversion H; subst.
  - eapply table_holds_same_data; eauto.
  - unfold table_holds in *. rewrite S1, S2, S3. now apply I_insert.
Qed.

Lemma keeps_expire_current_record k ts : keeps I (_expire_current_record k ts).
Proof.
  unfold _expire_current_record.
  apply keeps_except_psycopg2; [|apply keeps_ret].
  apply keeps_bind; [apply keeps_sql_expire|]. intros r. apply keeps_ret.
Qed.

Lemma keeps_insert_new_record c bid : keeps I (_insert_new_record c bid).
Proof.
  unfold _insert_new_record.
  apply keeps_except_psycopg2; [|apply keeps_ret].
  destruct (fromisoformat (ch_cdc_timestamp c)) as [ts|].
  - apply keeps_bind; [apply keeps_sql_insert|]. intros k. apply keeps_ret.
  - apply keeps_bind; [apply keeps_statement|].
    intros _ w u w' R H. unfold fail_statement in H. inversion H; subst.
    exact R.
Qed.

Lemma keeps_expire_and_insert c ts bid : keeps I (expire_and_insert c ts bid).
Proof.
  unfold expire_and_insert. apply keeps_except_psycopg2.
  - apply keeps_with_connection, keeps_bind; [apply keeps_sql_expire|].
    intros [k|]; [|apply keeps_ret].
    apply keeps_bind; [apply keeps_sql_insert|]. intros _. apply keeps_ret.
  - apply keeps_bind; [apply keeps_rollback|]. intros _. apply keeps_ret.
Qed.

Lemma keeps_transitions c bid :
  forall d, keeps I (_process_insert_change d c bid)
            /\ keeps I (_process_update_change d c bid).
Proof.
  induction d as [|d [IHi IHu]].
  - split; apply keeps_raise.
  - split; simpl; destruct (fromisoformat (ch_cdc_timestamp c)) as [ts|];
      try apply keeps_raise;
      (apply keeps_bind; [apply keeps_get_current_record|]);
      intros [r|].
    + destruct (same_instant r c ts && String.eqb (cdc_operation r) "INSERT");
        [apply keeps_ret|].
      apply keeps_bind; [exact IHu|]. intros res. apply keeps_ret.
    + apply keeps_bind; [apply keeps_insert_new_record|].
      intros k. apply keeps_ret.
    + destruct (has_changes r c); [|apply keeps_ret].
      apply keeps_bind; [apply keeps_expire_and_insert|].
      intros ok. apply keeps_ret.
    + apply keeps_bind; [exact IHi|]. intros res. apply keeps_ret.
Qed.

Lemma keeps_process_delete_change c bid : keeps I (_process_delete_change c bid).
Proof.
  unfold _process_delete_change.
  destruct (fromisoformat (ch_cdc_timestamp c)) as [ts|]; [|apply keeps_raise].
  apply keeps_except_psycopg2.
  - apply keeps_with_connection, keeps_bind; [apply keeps_sql_expire|].
    intros _. apply keeps_ret.
  - apply keeps_bind; [apply keeps_rollback|]. intros _. apply keeps_ret.
Qed.

Lemma keeps_process_change_record c bid : keeps I (_process_change_record c bid).
Proof.
  unfold _process_change_record.
  apply keeps_except_any; [|apply keeps_ret].
  destruct (String.eqb (ch_operation_type c) "INSERT").
  { apply keeps_bind; [apply (keeps_transitions c bid)|].
    intros res. apply keeps_ret. }
  destruct (String.eqb (ch_operation_type c) "UPDATE").
  { apply keeps_bind; [apply (keeps_transitions c bid)|].
    intros res. apply keeps_ret. }
  destruct (String.eqb (ch_operation_type c) "DELETE"); [|apply keeps_ret].
  apply keeps_process_delete_change.
Qed.

Lemma keeps_process_latest bid latest : keeps I (process_latest latest bid).
Proof.
  induction latest as [|c cs IH]; simpl; [apply keeps_ret|].
  apply keeps_bind; [apply keeps_process_change_record|].
  intros [|]; [|apply keeps_raise].
  apply keeps_bind; [exact IH|]. intros n. apply keeps_ret.
Qed.

Lemma batch_keeps f st :
  table_holds I (db st) -> table_holds I (db (snd (_process_batch_file f st))).
Proof.
  intros R. unfold _process_batch_file.
  destruct (file_changes f) as [[|c cs]|]; try exact R.
  destruct (already_processed (_get_processed_files (processed_log st))
              (file_name f) (_generate_batch_id (c :: cs))) as [[|]|e];
    try exact R.
  destruct (with_connection
              (process_latest (effective_changes (c :: cs))
                              (_generate_batch_id (c :: cs))) (db st))
    as [u w] eqn:W.
  assert (RW : table_holds I w).
  { eapply keeps_with_connection; [|exact R|exact W].
    apply keeps_process_latest. }
  destruct u; exact RW.
Qed.

Lemma run_keeps dir st :
  table_holds I (db st) -> table_holds I (db (load_change_logs dir st)).
Proof.
  intros R.
  assert (RUN : forall files s, table_holds I (db s) ->
            table_holds I
              (db (fold_left (fun s f => snd (_process_batch_file f s))
                             files s))).
  { induction files as [|g files IH]; intros s R0; simpl; [exact R0|].
    apply IH, batch_keeps, R0. }
  destruct (load_change_logs_cases dir st) as [(_ & E)|(_ & _ & E)]; rewrite E.
  - exact R.
  - destruct (log_summary_statistics_cases
                (db (fold_left (fun s f => snd (_process_batch_file f s))
                               (unprocessed_files (processed_log st) dir) st)))
      as (w' & E' & S & _).
    rewrite E'. simpl. eapply table_holds_same_data; [exact S|].
    apply RUN, R.
Qed.
End TableInvariant.

(** ** Surrogate keys, validity intervals and kept history *)

Lemma expire_rows_keys k ts rows :
  map surrogate_key (expire_rows k ts rows) = map surrogate_key rows.
Proof.
  unfold expire_rows. rewrite map_map. apply map_ext.
  intros r. destruct (current_of k r); reflexivity.
Qed.

Lemma NoDup_snoc {A} (l : list A) (x : A) :
  NoDup l -> ~ In x l -> NoDup (l ++ [x]).
Proof.
  induction 1 as [|y l NI ND IH]; intros N; simpl.
  - constructor; [intros []|constructor].
  - constructor.
    + intros I. apply in_app_or in I. destruct I as [I|[I|[]]]; [auto|].
      apply N. left. symmetry. exact I.
    + apply IH. intros I. apply N. right. exact I.
Qed.

Lemma keys_drawn_expire nk k ts rows :
  keys_drawn nk rows -> keys_drawn nk (expire_rows k ts rows).
Proof.
  intros (N & F). split; [now rewrite expire_rows_keys|].
  unfold expire_rows. apply Forall_forall. intros r I.
  apply in_map_iff in I. destruct I as (r0 & <- & I).
  rewrite Forall_forall in F. specialize (F r0 I).
  destruct (current_of k r0); exact F.
Qed.

Lemma keys_drawn_later nk rows : keys_drawn nk rows -> keys_drawn (nk + 1) rows.
Proof.
  intros (N & F). split; [exact N|].
  eapply Forall_impl; [|exact F]. intros r H. simpl in H. lia.
Qed.

Lemma keys_drawn_insert nk rows c odate ts bid :
  keys_drawn nk rows ->
  keys_drawn (nk + 1) (rows ++ [new_row nk c odate ts bid]).
Proof.
  intros (N & F). split.
  - rewrite map_app. simpl. apply NoDup_snoc; [exact N|].
    intros I. apply in_map_iff in I. destruct I as (r & E & I).
    rewrite Forall_forall in F. specialize (F r I). lia.
  - apply Forall_app. split.
    + eapply Forall_impl; [|exact F]. intros r H. simpl in H. lia.
    + constructor; [simpl; lia|constructor].
Qed.

(** X14.  Through every batch and every run, whatever fails, the
    surrogate keys stay what a primary key drawn from a sequence must
    be: no two rows of the table share a surrogate key, every key in the
    table is below the next value of the sequence, and the sequence
    never goes back. *)
Theorem surrogate_keys_stay_unique (f : batch_file) (st : loader)
    (dir : list batch_file) :
  keys_drawn (next_key (db st)) (committed (db st)) ->
  keys_drawn (next_key (db st)) (working (db st)) ->
  table_holds (keys_in_order (next_key (db st)))
              (db (snd (_process_batch_file f st)))
  /\ table_holds (keys_in_order (next_key (db st))) (db (load_change_logs dir st)).
Proof.
  intros KC KW.
  assert (R : table_holds (keys_in_order (next_key (db st))) (db st)).
  { unfold table_holds, keys_in_order. repeat split; try apply KC; try apply KW.
    lia. }
  assert (E : forall cm wk nk k ts,
            keys_in_order (next_key (db st)) cm wk nk ->
            valid_time_check k ts wk = true ->
            keys_in_order (next_key (db st)) cm (expire_rows k ts wk) nk).
  { intros cm wk nk k ts (A & B & C) _. split; [exact A|].
    split; [now apply keys_drawn_expire|exact C]. }
  assert (N : forall cm wk nk c odate ts bid,
            keys_in_order (next_key (db st)) cm wk nk ->
            keys_in_order (next_key (db st)) cm
              (wk ++ [new_row nk c odate ts bid]) (nk + 1)).
  { intros cm wk nk c odate ts bid (A & B & C).
    split; [now apply keys_drawn_later|].
    split; [now apply keys_drawn_insert|lia]. }
  assert (CM : forall cm wk nk,
            keys_in_order (next_key (db st)) cm wk nk ->
            keys_in_order (next_key (db st)) wk wk nk).
  { intros cm wk nk (A & B & C). repeat split; try apply B. exact C. }
  assert (RB : forall cm wk nk,
            keys_in_order (next_key (db st)) cm wk nk ->
            keys_in_order (next_key (db st)) cm cm nk).
  { intros cm wk nk (A & B & C). repeat split; try apply A. exact C. }
  split.
  - exact (batch_keeps _ E N CM RB f st R).
  - exact (run_keeps _ E N CM RB dir st R).
Qed.

Lemma interval_ok_expire k ts rows :
  Forall interval_ok rows -> valid_time_check k ts rows = true ->
  Forall interval_ok (expire_rows k ts rows).
Proof.
  intros F V. unfold expire_rows. apply Forall_forall. intros r I.
  apply in_map_iff in I. destruct I as (r0 & <- & I).
  rewrite Forall_forall in F. specialize (F r0 I).
  unfold valid_time_check in V. rewrite forallb_forall in V. specialize (V r0 I).
  destruct (current_of k r0); [|exact F].
  simpl in V. apply Z.ltb_lt in V. split; simpl.
  - split; discriminate.
  - intros t H. inversion H; subst. exact V.
Qed.

Lemma interval_ok_new_row key c odate ts bid :
  interval_ok (new_row key c odate ts bid).
Proof.
  split; simpl; [split; reflexivity|discriminate].
Qed.

(** X15.  Through every batch and every run, whatever fails, every
    version keeps a sound validity interval: it has no end exactly when
    it is current, and when it has an end the end comes after the
    start. *)
Theorem validity_intervals_stay_sound (f : batch_file) (st : loader)
    (dir : list batch_file) :
  Forall interval_ok (committed (db st)) ->
  Forall interval_ok (working (db st)) ->
  table_holds intervals_ok (db (snd (_process_batch_file f st)))
  /\ table_holds intervals_ok (db (load_change_logs dir st)).
Proof.
  intros VC VW.
  assert (R : table_holds intervals_ok (db st)) by (split; assumption).
  assert (E : forall cm wk nk k ts,
            intervals_ok cm wk nk -> valid_time_check k ts wk = true ->
            intervals_ok cm (expire_rows k ts wk) nk).
  { intros cm wk nk k ts (A & B) V. split; [exact A|].
    now apply interval_ok_expire. }
  assert (N : forall cm wk nk c odate ts bid,
            intervals_ok cm wk nk ->
            intervals_ok cm (wk ++ [new_row nk c odate ts bid]) (nk + 1)).
  { intros cm wk nk c odate ts bid (A & B). split; [exact A|].
    apply Forall_app. split; [exact B|].
    constructor; [apply interval_ok_new_row|constructor]. }
  assert (CM : forall cm wk nk, intervals_ok cm wk nk -> intervals_ok wk wk nk).
  { intros cm wk nk (A & B). split; exact B. }
  assert (RB : forall cm wk nk, intervals_ok cm wk nk -> intervals_ok cm cm nk).
  { intros cm wk nk (A & B). split; exact A. }
  split.
  - exact (batch_keeps _ E N CM RB f st R).
  - exact (run_keeps _ E N CM RB dir st R).
Qed.

Lemma history_kept_refl rows : history_kept rows rows.
Proof. intros r I. now left. Qed.

Lemma history_kept_expire old k ts rows :
  history_kept old rows -> history_kept old (expire_rows k ts rows).
Proof.
  intros H r I. unfold expire_rows.
  destruct (H r I) as [J|(C & ts0 & J)].
  - destruct (current_of k r) eqn:Q.
    + right. split.
      * unfold current_of in Q. apply andb_true_iff in Q. apply Q.
      * exists ts. apply in_map_iff. exists r. rewrite Q. auto.
    + left. apply in_map_iff. exists r. rewrite Q. auto.
  - right. split; [exact C|]. exists ts0. apply in_map_iff.
    exists (close_row ts0 r). rewrite current_of_close. auto.
Qed.

Lemma history_kept_app old rows more :
  history_kept old rows -> history_kept old (rows ++ more).
Proof.
  intros H r I. destruct (H r I) as [J|(C & ts0 & J)].
  - left. apply in_or_app. now left.
  - right. split; [exact C|]. exists ts0. apply in_or_app. now left.
Qed.

(** X16.  History is append-only.  Every version that is committed when
    a batch or a run starts is still in the committed table when it
    ends, whatever failed in between: unchanged, or, if it was the
    current version, closed (its end set, its current flag cleared, no
    other column touched).  No version is deleted, and a closed version
    is never altered again. *)
Theorem history_is_append_only (f : batch_file) (st : loader)
    (dir : list batch_file) :
  working (db st) = committed (db st) ->
  history_kept (committed (db st))
               (committed (db (snd (_process_batch_file f st))))
  /\ history_kept (committed (db st)) (committed (db (load_change_logs dir st)))
  /\ forall r, In r (committed (db st)) -> is_current r = false ->
               In r (committed (db (snd (_process_batch_file f st))))
               /\ In r (committed (db (load_change_logs dir st))).
Proof.
  intros W.
  assert (R : table_holds (history_of (committed (db st))) (db st)).
  { split; [|rewrite W]; apply history_kept_refl. }
  assert (E : forall cm wk nk k ts,
            history_of (committed (db st)) cm wk nk ->
            valid_time_check k ts wk = true ->
            history_of (committed (db st)) cm (expire_rows k ts wk) nk).
  { intros cm wk nk k ts (A & B) _. split; [exact A|].
    now apply history_kept_expire. }
  assert (N : forall cm wk nk c odate ts bid,
            history_of (committed (db st)) cm wk nk ->
            history_of (committed (db st)) cm
              (wk ++ [new_row nk c odate ts bid]) (nk + 1)).
  { intros cm wk nk c odate ts bid (A & B). split; [exact A|].
    now apply history_kept_app. }
  assert (CM : forall cm wk nk,
            history_of (committed (db st)) cm wk nk ->
            history_of (committed (db st)) wk wk nk).
  { intros cm wk nk (A & B). split; exact B. }
  assert (RB : forall cm wk nk,
            history_of (committed (db st)) cm wk nk ->
            history_of (committed (db st)) cm cm nk).
  { intros cm wk nk (A & B). split; exact A. }
  pose proof (batch_keeps _ E N CM RB f st R) as (B1 & _).
  pose proof (run_keeps _ E N CM RB dir st R) as (B2 & _).
  split; [exact B1|]. split; [exact B2|].
  intros r I C. split.
  - destruct (B1 r I) as [J|(C' & _)]; [exact J|congruence].
  - destruct (B2 r I) as [J|(C' & _)]; [exact J|congruence].
Qed.

(** ** Batches without repeated keys *)

Lemma add_change_fresh c gs :
  ~ In (ch_id c) (map fst gs) -> add_change c gs = gs ++ [(ch_id c, [c])].
Proof.
  induction gs as [|[k g] gs IH]; simpl; intros N; [reflexivity|].
  destruct (k =? ch_id c) eqn:Q.
  - apply Z.eqb_eq in Q. exfalso. apply N. left. exact Q.
  - rewrite IH; [reflexivity|]. intros I. apply N. right. exact I.
Qed.

Lemma changes_by_order_distinct rest : forall seen,
  NoDup (map ch_id (seen ++ rest)) ->
  fold_left (fun groups c => add_change c groups) rest
            (map (fun c => (ch_id c, [c])) seen)
  = map (fun c => (ch_id c, [c])) (seen ++ rest).
Proof.
  induction rest as [|c rest IH]; intros seen N; simpl.
  - now rewrite app_nil_r.
  - replace (seen ++ c :: rest) with ((seen ++ [c]) ++ rest) in *
      by (rewrite <- app_assoc; reflexivity).
    rewrite <- IH by exact N. f_equal.
    rewrite add_change_fresh; [now rewrite map_app|].
    rewrite map_map. simpl. rewrite map_app, map_app in N. simpl in N.
    apply NoDup_app_remove_r in N. intros I.
    apply NoDup_remove_2 in N. apply N. rewrite app_nil_r.
    replace (map (fun x => ch_id x) seen) with (map ch_id seen) in I
      by reflexivity.
    exact I.
Qed.

(** X17.  Coalescing leaves a batch without repeated keys alone: when
    every natural key occurs once, the changes reach the transitions one
    by one and in the order of detection.  So coalescing applied to its
    own result changes nothing. *)
Theorem distinct_keys_are_not_coalesced (changes : list change) :
  (NoDup (map ch_id changes) -> effective_changes changes = changes)
  /\ effective_changes (effective_changes changes) = effective_changes changes.
Proof.
  assert (D : forall l, NoDup (map ch_id l) -> effective_changes l = l).
  { intros l N. unfold effective_changes, changes_by_order.
    pose proof (changes_by_order_distinct l [] N) as E. simpl in E.
    rewrite E. clear N E. induction l as [|c l IH]; simpl; [reflexivity|].
    now rewrite IH. }
  split; [apply D|]. apply D, effective_changes_NoDup.
Qed.

(** ** The batch id and the ledger line *)

Section SortPermutation.
Context {A K : Type} (le : K -> K -> bool) (key : A -> K).
Hypothesis le_total : forall a b, le a b = true \/ le b a = true.
Hypothesis le_trans :
  forall a b c, le a b = true -> le b c = true -> le a c = true.

Lemma insert_by_perm x l : Permutation (Py.insert_by le key x l) (x :: l).
Proof.
  induction l as [|y l IH]; simpl; [apply Permutation_refl|].
  destruct (le (key x) (key y)); [apply Permutation_refl|].
  eapply Permutation_trans; [apply perm_skip, IH|apply perm_swap].
Qed.

Lemma sort_by_perm l : Permutation (Py.sort_by le key l) l.
Proof.
  induction l as [|x l IH]; simpl; [constructor|].
  eapply Permutation_trans; [apply insert_by_perm|now apply perm_skip].
Qed.

(** Two sorted lists with the same elements are the same list, when
    elements that are below each other are equal. *)
Lemma sorted_perm_unique (l1 : list A) : forall l2,
  (forall x y, le (key x) (key y) = true -> le (key y) (key x) = true -> x = y) ->
  StronglySorted (fun x y => le (key x) (key y) = true) l1 ->
  StronglySorted (fun x y => le (key x) (key y) = true) l2 ->
  Permutation l1 l2 -> l1 = l2.
Proof.
  induction l1 as [|a l1 IH]; intros l2 AS S1 S2 P.
  - apply Permutation_nil in P. now subst.
  - destruct l2 as [|b l2].
    { apply Permutation_sym, Permutation_nil in P. discriminate P. }
    inversion S1 as [|? ? S1' F1]; subst. inversion S2 as [|? ? S2' F2]; subst.
    rewrite Forall_forall in F1, F2.
    assert (E : a = b).
    { assert (Ia : In a (b :: l2))
        by (eapply Permutation_in; [exact P|now left]).
      assert (Ib : In b (a :: l1))
        by (eapply Permutation_in; [apply Permutation_sym; exact P|now left]).
      destruct Ia as [Ia|Ia]; [now subst|].
      destruct Ib as [Ib|Ib]; [now subst|].
      apply AS; [apply F1, Ib|apply F2, Ia]. }
    subst b. f_equal. apply IH; auto. eapply Permutation_cons_inv; eauto.
Qed.

Lemma sort_by_perm_eq l1 l2 :
  (forall x y, le (key x) (key y) = true -> le (key y) (key x) = true -> x = y) ->
  Permutation l1 l2 -> Py.sort_by le key l1 = Py.sort_by le key l2.
Proof.
  intros AS P. apply sorted_perm_unique; auto.
  - apply (sort_by_sorted le key le_total le_trans).
  - apply (sort_by_sorted le key le_total le_trans).
  - eapply Permutation_trans; [apply sort_by_perm|].
    eapply Permutation_trans; [exact P|apply Permutation_sym, sort_by_perm].
Qed.
End SortPermutation.

(** X18.  The batch id is a function of the natural keys of the batch,
    counted with their repetitions, and of nothing else: two lists of
    changes with the same keys, in any order and with any attribute
    values, operations and timestamps, have the same batch id. *)
Theorem batch_id_depends_on_keys_only (a b : list change) :
  Permutation (map ch_id a) (map ch_id b) ->
  _generate_batch_id a = _generate_batch_id b.
Proof.
  intros P. unfold _generate_batch_id. do 2 f_equal.
  apply sort_by_perm_eq; [| | |exact P].
  - intros x y. destruct (Z.leb_spec x y); [now left|right].
    apply Z.leb_le. lia.
  - intros x y z H1 H2. apply Z.leb_le in H1, H2. apply Z.leb_le. lia.
  - intros x y H1 H2. apply Z.leb_le in H1, H2. lia.
Qed.

Lemma split_bar_join name rest :
  no_bar name = true ->
  Py.split_bar (name ++ "|" ++ rest) = (name, Some rest).
Proof.
  induction name as [|ch name IH]; simpl; intros N; [reflexivity|].
  apply andb_true_iff in N. destruct N as [N1 N2].
  apply negb_true_iff in N1. rewrite N1.
  change (name ++ String "|" rest)%string with (name ++ "|" ++ rest)%string.
  now rewrite (IH N2).
Qed.

Lemma already_processed_app lines more name bid :
  already_processed lines name bid = Ret false ->
  already_processed (lines ++ more) name bid = already_processed more name bid.
Proof.
  induction lines as [|l lines IH]; simpl; [reflexivity|].
  destruct (Py.split_bar l) as [fn [pb|]]; [|discriminate].
  destruct (String.eqb fn name && String.eqb pb bid); [discriminate|exact IH].
Qed.

Lemma joined_line_not_empty name rest :
  String.eqb (name ++ "|" ++ rest) "" = false.
Proof. destruct name; reflexivity. Qed.

(** X19.  Replay is idempotent.  Once [_process_batch_file] has
    reported success for an artifact whose file name has no bar in it
    (and whose ledger line has no white space at its ends), presenting
    the same artifact again, directly or through a run, reports success
    and changes nothing: not the rows, not the sequence, not the
    ledger.  When the artifact holds changes the run does not select it
    and returns the loader as it is; an artifact without changes is
    never recorded, so the run selects it again and sends the SELECT of
    its summary. *)
Theorem replay_changes_nothing (f : batch_file) (st st1 : loader)
    (changes : list change) :
  file_changes f = Some changes ->
  _process_batch_file f st = (true, st1) ->
  no_bar (file_name f) = true ->
  Py.strip (file_name f ++ "|" ++ _generate_batch_id changes)
    = (file_name f ++ "|" ++ _generate_batch_id changes)%string ->
  _process_batch_file f st1 = (true, st1)
  /\ (changes <> [] -> load_change_logs [f] st1 = st1)
  /\ same_data (db st1) (db (load_change_logs [f] st1))
  /\ processed_log (load_change_logs [f] st1) = processed_log st1.
Proof.
  intros FC R NB S.
  assert (B := split_bar_join (file_name f) (_generate_batch_id changes) NB).
  assert (ONE : _process_batch_file f st1 = (true, st1)).
  { revert R. unfold _process_batch_file at 1. rewrite FC.
    destruct changes as [|c cs].
    { intros R. inversion R; subst. unfold _process_batch_file. now rewrite FC. }
    destruct (already_processed (_get_processed_files (processed_log st))
                (file_name f) (_generate_batch_id (c :: cs))) as [[|]|e] eqn:AP;
      try discriminate.
    { intros R. inversion R; subst. unfold _process_batch_file.
      now rewrite FC, AP. }
    destruct (with_connection
                (process_latest (effective_changes (c :: cs))
                                (_generate_batch_id (c :: cs))) (db st))
      as [[n|e] w]; [|discriminate].
    intros R. inversion R; subst. unfold _process_batch_file. rewrite FC.
    cbn [processed_log]. unfold _mark_file_processed.
    rewrite get_processed_files_app, (already_processed_app _ _ _ _ AP).
    unfold _get_processed_files. cbn [map filter]. rewrite S.
    rewrite joined_line_not_empty. cbn [negb already_processed].
    rewrite B, !String.eqb_refl. reflexivity. }
  split; [exact ONE|].
  assert (SEL : changes <> [] ->
                unprocessed_files (processed_log st1) [f] = []).
  { intros NE. unfold unprocessed_files.
    cbn [Py.sort_by Py.insert_by filter].
    assert (I : In (file_name f) (processed_filenames (processed_log st1))).
    { revert R. unfold _process_batch_file. rewrite FC.
      destruct changes as [|c cs]; [congruence|].
      destruct (already_processed (_get_processed_files (processed_log st))
                  (file_name f) (_generate_batch_id (c :: cs)))
        as [[|]|e] eqn:AP; try discriminate.
      - intros R. inversion R; subst. clear - AP.
        unfold processed_filenames.
        induction (_get_processed_files (processed_log st1)) as [|l ls IH];
          [discriminate|].
        simpl in AP. destruct (Py.split_bar l) as [fn [pb|]] eqn:Q;
          [|discriminate].
        destruct (String.eqb fn (file_name f)
                  && String.eqb pb (_generate_batch_id (c :: cs))) eqn:K.
        + apply andb_true_iff in K. destruct K as [K _].
          apply String.eqb_eq in K. left. simpl. now rewrite Q.
        + right. now apply IH.
      - destruct (with_connection
                    (process_latest (effective_changes (c :: cs))
                                    (_generate_batch_id (c :: cs))) (db st))
          as [[n|e] w]; [|discriminate].
        intros R. inversion R; subst. cbn [processed_log].
        unfold processed_filenames, _mark_file_processed.
        rewrite get_processed_files_app, map_app. apply in_or_app. right.
        unfold _get_processed_files. cbn [map filter]. rewrite S.
        rewrite joined_line_not_empty. cbn [negb map]. rewrite B. now left. }
    apply existsb_eqb_In in I. rewrite I. reflexivity. }
  split.
  { intros NE. unfold load_change_logs. now rewrite (SEL NE). }
  destruct (load_change_logs_cases [f] st1) as [(_ & E)|(_ & E1 & E2)].
  { rewrite E. split; [apply same_data_refl|reflexivity]. }
  assert (G : fold_left (fun s g => snd (_process_batch_file g s))
                        (unprocessed_files (processed_log st1) [f]) st1 = st1).
  { unfold unprocessed_files. cbn [Py.sort_by Py.insert_by filter].
    destruct (negb (existsb (String.eqb (file_name f))
                            (processed_filenames (processed_log st1))));
      cbn [fold_left]; [now rewrite ONE|reflexivity]. }
  rewrite E1, E2, G.
  destruct (log_summary_statistics_cases (db st1)) as (w' & E' & K & _).
  rewrite E'. split; [exact K|reflexivity].
Qed.

(** X20.  A run selects exactly the artifacts of the directory whose
    file name is not the first field of a ledger line, each as often as
    the directory lists it, and applies them in the order of their file
    names. *)
Theorem run_applies_in_name_order (log : list string) (dir : list batch_file) :
  StronglySorted (fun a b => Py.str_le (file_name a) (file_name b) = true)
                 (unprocessed_files log dir)
  /\ Permutation (unprocessed_files log dir)
       (filter (fun f => negb (existsb (String.eqb (file_name f))
                                       (processed_filenames log))) dir)
  /\ forall f, In f (unprocessed_files log dir) <->
               In f dir /\ ~ In (file_name f) (processed_filenames log).
Proof.
  rewrite unprocessed_files_filter. split; [|split].
  - apply (sort_by_sorted Py.str_le file_name str_le_total str_le_trans).
  - apply sort_by_perm.
  - intros f. rewrite sort_by_In, filter_In, negb_true_iff. split.
    + intros (I & E). split; [exact I|]. intros J.
      apply existsb_eqb_In in J. congruence.
    + intros (I & N). split; [exact I|].
      destruct (existsb (String.eqb (file_name f)) (processed_filenames log))
        eqn:Q; [|reflexivity].
      exfalso. apply N. now apply existsb_eqb_In.
Qed.

(** ** The report of a run *)

Lemma process_batches_counts sd files : forall i cs st,
  let r := process_batches sd i files cs st in
  total_records (fst r) - successful_records (fst r)
    = total_records cs - successful_records cs
  /\ successful_batches cs <= successful_batches (fst r)
  /\ failed_batches cs <= failed_batches (fst r)
  /\ total_records cs <= total_records (fst r)
  /\ (successful_batches (fst r) - successful_batches cs)
     + (failed_batches (fst r) - failed_batches cs)
     <= Z.of_nat (length files)
  /\ ((forall j, sd j = false) ->
      (successful_batches (fst r) - successful_batches cs)
      + (failed_batches (fst r) - failed_batches cs)
      = Z.of_nat (length files)
      /\ snd r = fold_left (fun s f => snd (_process_batch_file f s)) files st).
Proof.
  induction files as [|f files IH]; intros i cs st.
  - cbn. do 5 (split; [lia|]). intros _. split; [lia|reflexivity].
  - cbn [process_batches].
    assert (R : 0 <= batch_records f).
    { unfold batch_records. destruct (file_changes f); lia. }
    destruct (sd i) eqn:SD.
    + cbn [fst snd length].
      do 5 (split; [lia|]).
      intros N. rewrite N in SD. discriminate SD.
    + destruct (_process_batch_file f st) as [[|] st'] eqn:E.
      * specialize (IH (S i)
          (mkCounters (successful_batches cs + 1) (failed_batches cs)
                      (total_records cs + batch_records f)
                      (successful_records cs + batch_records f)) st').
        cbn zeta in IH. cbn [successful_batches failed_batches total_records
                             successful_records] in IH.
        destruct IH as (I1 & I2 & I3 & I4 & I5 & I6).
        cbn zeta. cbn [length fold_left]. rewrite E. cbn [snd].
        do 5 (split; [lia|]).
        intros N. destruct (I6 N) as (J1 & J2). split; [lia|exact J2].
      * specialize (IH (S i)
          (mkCounters (successful_batches cs) (failed_batches cs + 1)
                      (total_records cs) (successful_records cs)) st').
        cbn zeta in IH. cbn [successful_batches failed_batches total_records
                             successful_records] in IH.
        destruct IH as (I1 & I2 & I3 & I4 & I5 & I6).
        cbn zeta. cbn [length fold_left]. rewrite E. cbn [snd].
        do 5 (split; [lia|]).
        intros N. destruct (I6 N) as (J1 & J2). split; [lia|exact J2].
Qed.

(** X21.  What a run of [load_change_logs] reports.  The count of
    failed records is always zero and the count of successful records is
    the count of processed records, whatever failed in the run: the
    records of a failed batch are counted nowhere.  The status is
    "completed" exactly when no batch failed.  The batches counted as
    processed and as failed are never more than the batches selected,
    and they are all of them when no shutdown is requested; the loader is
    then left as [load_change_logs] leaves it. *)
Theorem run_report_accounting (should_shutdown : nat -> bool)
    (dir : list batch_file) (st : loader) :
  let (r, st') := load_change_logs_report should_shutdown dir st in
  records_failed r = 0
  /\ records_successful r = records_processed r
  /\ 0 <= records_processed r
  /\ (status r = "completed" <->
      files_failed r = None \/ files_failed r = Some 0)
  /\ (forall failed total, files_failed r = Some failed ->
        total_files r = Some total ->
        0 <= files_processed r /\ 0 <= failed
        /\ files_processed r + failed <= total)
  /\ ((forall i, should_shutdown i = false) ->
      st' = load_change_logs dir st
      /\ forall failed total, files_failed r = Some failed ->
           total_files r = Some total ->
           files_processed r + failed = total).
Proof.
  unfold load_change_logs_report, load_change_logs.
  destruct (unprocessed_files (processed_log st) dir) as [|f files] eqn:U.
  { cbn. repeat split; try lia; try discriminate; auto. }
  pose proof (process_batches_counts should_shutdown (f :: files) O
                (mkCounters 0 0 0 0) st) as P.
  destruct (process_batches should_shutdown O (f :: files)
              (mkCounters 0 0 0 0) st) as [cs st'].
  cbn zeta in P. cbn [fst snd successful_batches failed_batches total_records
                      successful_records] in P.
  destruct P as (P1 & P2 & P3 & P4 & P5 & P6).
  cbn [records_failed records_successful records_processed status files_failed
       total_files files_processed].
  split; [lia|]. split; [lia|]. split; [lia|]. split; [|split].
  - destruct (failed_batches cs =? 0) eqn:Z0.
    + apply Z.eqb_eq in Z0. rewrite Z0. split; auto.
    + split; [discriminate|]. intros [H|H]; [discriminate|].
      injection H as H. apply Z.eqb_neq in Z0. contradiction.
  - intros failed total F T. injection F as F.
    assert (T' : Z.of_nat (length (f :: files)) = total)
      by (injection T as T; exact T).
    lia.
  - intros N. destruct (P6 N) as (Q1 & Q2). split; [now rewrite Q2|].
    intros failed total F T. injection F as F.
    assert (T' : Z.of_nat (length (f :: files)) = total)
      by (injection T as T; exact T).
    lia.
Qed.

(** ** What a poll detects *)

Lemma snapshot_le_total a b : snapshot_le a b = true \/ snapshot_le b a = true.
Proof.
  unfold snapshot_le.
  destruct (Z.ltb_spec (fst a) (fst b)); [now left|].
  destruct (Z.ltb_spec (fst b) (fst a)); [now right|].
  assert (E : fst a = fst b) by lia. rewrite E, Z.eqb_refl. cbn [orb andb].
  destruct (Z.leb_spec (snd a) (snd b)); [now left|right].
  apply Z.leb_le. lia.
Qed.

Lemma snapshot_le_spec a b :
  snapshot_le a b = true <->
  fst a < fst b \/ (fst a = fst b /\ snd a <= snd b).
Proof.
  unfold snapshot_le.
  rewrite orb_true_iff, andb_true_iff, Z.ltb_lt, Z.eqb_eq, Z.leb_le.
  reflexivity.
Qed.

Lemma snapshot_le_trans a b c :
  snapshot_le a b = true -> snapshot_le b c = true -> snapshot_le a c = true.
Proof. rewrite !snapshot_le_spec. lia. Qed.

Lemma StronglySorted_weaken {A : Type} (R S : A -> A -> Prop) l :
  (forall x y, R x y -> S x y) -> StronglySorted R l -> StronglySorted S l.
Proof.
  intros W. induction 1 as [|x l H IH F]; constructor; [exact IH|].
  rewrite Forall_forall in *. intros y I. apply W, F, I.
Qed.

Lemma map_d_order_classify since now l :
  map d_order (map (classify since now) l) = l.
Proof.
  induction l as [|o l IH]; simpl; [reflexivity|]. now rewrite IH.
Qed.

(** X22.  What [_detect_changes] returns on a source that answers.  The
    records are the source rows modified or created after [since], each
    once per row, in the order of last-modified time and then of id.  A
    row created after [since] is an INSERT, any other is an UPDATE of a
    row modified after [since]; no record is a DELETE. *)
Theorem detected_changes_of_a_poll (since now : Z) (s : source) :
  link_state s = Healthy ->
  exists changes,
    _detect_changes since now s = Ret changes
    /\ Permutation (map d_order changes)
         (filter (fun o => (since <? o_last_updated o)
                           || (since <? o_created_at o)) (orders s))
    /\ StronglySorted
         (fun a b => o_last_updated a < o_last_updated b
                     \/ (o_last_updated a = o_last_updated b
                         /\ o_id a <= o_id b))
         (map d_order changes)
    /\ Forall (fun d =>
                 (since < o_created_at (d_order d)
                  /\ d_operation_type d = "INSERT")
                 \/ (o_created_at (d_order d) <= since
                     /\ since < o_last_updated (d_order d)
                     /\ d_operation_type d = "UPDATE"))
              changes.
Proof.
  intros H. unfold _detect_changes, cursor_execute. rewrite H.
  eexists. split; [reflexivity|]. rewrite map_d_order_classify.
  split; [|split].
  - unfold snapshot. apply sort_by_perm.
  - unfold snapshot.
    eapply StronglySorted_weaken;
      [|apply (sort_by_sorted snapshot_le
                 (fun o => (o_last_updated o, o_id o))
                 snapshot_le_total snapshot_le_trans)].
    intros x y L. apply snapshot_le_spec in L. exact L.
  - apply Forall_forall. intros d I. apply in_map_iff in I.
    destruct I as (o & <- & I). apply snapshot_In in I. destruct I as (_ & C).
    unfold classify. cbn [d_order d_operation_type].
    destruct (Z.ltb_spec since (o_created_at o)) as [L|L].
    + left. split; [exact L|reflexivity].
    + right. split; [exact L|]. split; [|reflexivity].
      rewrite orb_false_r in C. apply Z.ltb_lt in C. exact C.
Qed.

Lemma filter_none {A : Type} (p : A -> bool) l :
  (forall x, In x l -> p x = false) -> filter p l = [].
Proof.
  induction l as [|x l IH]; intros N; simpl; [reflexivity|].
  rewrite (N x (or_introl eq_refl)). apply IH. intros y I. apply N. now right.
Qed.

(** X23.  A source that has not changed is polled once.  When no source
    row was created after it was last modified and the watermark that a
    poll writes reads back as the timestamp it was written from, then
    after a poll that found changes the next poll of the same source, at
    any later clock reading, finds nothing: it writes no artifact and
    leaves the watermark where it is. *)
Theorem unchanged_source_is_polled_once (now now' : Z) (st : extractor)
    (first : detected) (others : list detected) :
  _detect_changes (_get_watermark now (watermark_file st)) now (src st)
    = Ret (first :: others) ->
  link_state (src st) = Healthy ->
  (forall o, In o (orders (src st)) -> o_created_at o <= o_last_updated o) ->
  fromisoformat (Py.strip (isoformat (latest_timestamp first others)))
    = Some (latest_timestamp first others) ->
  extract_once now' (snd (extract_once now st))
    = (Ret tt, snd (extract_once now st)).
Proof.
  intros D H INV RT.
  set (since := _get_watermark now (watermark_file st)) in *.
  set (m := latest_timestamp first others) in *.
  assert (ST : snd (extract_once now st)
               = mkExtractor (src st) (Some (isoformat m))
                   (_write_change_logs now (first :: others) (cdc_logs st))).
  { unfold extract_once. fold since. rewrite D. reflexivity. }
  rewrite ST. unfold extract_once at 1. cbn [watermark_file src].
  unfold _get_watermark. rewrite RT.
  assert (B : forall o, In o (orders (src st)) -> o_last_updated o <= m).
  { intros o I.
    destruct (Z.ltb_spec since (o_last_updated o)) as [L|L].
    - assert (J : In o (snapshot since (orders (src st)))).
      { apply snapshot_In. split; [exact I|].
        apply orb_true_iff. left. apply Z.ltb_lt. exact L. }
      revert D J. unfold _detect_changes, cursor_execute. rewrite H.
      intros D J. injection D as D.
      assert (K : In (classify since now o) (first :: others)).
      { rewrite <- D. apply in_map. exact J. }
      unfold m, latest_timestamp.
      destruct (fold_max_bounds
                  (map (fun d => o_last_updated (d_order d)) others)
                  (o_last_updated (d_order first))) as (B1 & B2 & _).
      destruct K as [K|K].
      + assert (E : o_last_updated (d_order first) = o_last_updated o)
          by (rewrite K; reflexivity).
        rewrite <- E. exact B1.
      + rewrite Forall_forall in B2.
        apply (B2 (o_last_updated o)).
        apply in_map_iff. exists (classify since now o). split; [reflexivity|exact K].
    - pose proof (detect_changes_records _ _ _ _ D first (or_introl eq_refl)) as J.
      apply snapshot_In in J. destruct J as (J & C).
      specialize (INV _ J). apply orb_true_iff in C.
      assert (since < o_last_updated (d_order first))
        by (destruct C as [C|C]; apply Z.ltb_lt in C; lia).
      unfold m, latest_timestamp.
      destruct (fold_max_bounds
                  (map (fun d => o_last_updated (d_order d)) others)
                  (o_last_updated (d_order first))) as (B1 & _ & _).
      lia. }
  unfold _detect_changes, cursor_execute. rewrite H. unfold snapshot.
  rewrite filter_none; [reflexivity|].
  intros o I. specialize (B o I). specialize (INV o I).
  apply orb_false_iff. split; apply Z.ltb_ge; lia.
Qed.

(** ** The connection loops *)

Lemma connect_loop_retries refused : forall n start slept,
  (start + n < max_retries)%nat ->
  (forall i, (start <= i < start + n)%nat -> refused i = true) ->
  connect_loop true refused (seq start (max_retries - start)) slept
  = connect_loop true refused (seq (start + n) (max_retries - (start + n)))
                 (slept + n).
Proof.
  assert (M : max_retries = 5%nat) by reflexivity.
  induction n as [|n IH]; intros start slept B R.
  - now rewrite !Nat.add_0_r.
  - assert (E : (max_retries - start = S (max_retries - S start))%nat) by lia.
    rewrite E. cbn [seq connect_loop]. rewrite (R start) by lia.
    assert (L : Nat.ltb start (max_retries - 1) = true)
      by (apply Nat.ltb_lt; lia).
    rewrite L. rewrite (IH (S start) (S slept)).
    + replace (S start + n)%nat with (start + S n)%nat by lia.
      replace (S slept + n)%nat with (slept + S n)%nat by lia.
      reflexivity.
    + lia.
    + intros i I. apply R. lia.
Qed.

(** X24.  The extractor connects with up to five attempts.  When the
    first [n] attempts are refused and the next one, still among the
    five, is accepted, [_connect] returns with that connection after
    having slept [n] times.  When all five attempts are refused it
    raises the [OperationalError] of the fifth after having slept four
    times.  It never leaves the loop without a connection or an
    exception. *)
Theorem extractor_connect_retries (refused : nat -> bool) :
  (forall n, (n < max_retries)%nat ->
     (forall i, (i < n)%nat -> refused i = true) -> refused n = false ->
     CDCLogExtractor_connect refused = (Connected n, n))
  /\ ((forall i, (i < max_retries)%nat -> refused i = true) ->
      CDCLogExtractor_connect refused = (ConnectRaise OperationalError, 4%nat))
  /\ fst (CDCLogExtractor_connect refused) <> LoopEnds
  /\ fst (CDCLogExtractor_connect refused) <> ConnectRaise NameError.
Proof.
  assert (M : max_retries = 5%nat) by reflexivity.
  unfold CDCLogExtractor_connect.
  change (seq 0 max_retries) with (seq 0 (max_retries - 0)).
  split; [|split].
  - intros n B R A.
    rewrite (connect_loop_retries refused n 0 0); [|exact B|intros i I; apply R; lia].
    cbn [Nat.add].
    assert (E : (max_retries - n = S (max_retries - S n))%nat) by lia.
    rewrite E. cbn [seq connect_loop]. rewrite A. reflexivity.
  - intros R.
    rewrite (connect_loop_retries refused 4 0 0);
      [|unfold max_retries; lia|intros i I; apply R; unfold max_retries; lia].
    cbn. rewrite (R 4%nat) by (unfold max_retries; lia). reflexivity.
  - unfold max_retries. cbn.
    destruct (refused 0%nat), (refused 1%nat), (refused 2%nat),
      (refused 3%nat), (refused 4%nat); cbn; split; discriminate.
Qed.

(** X25.  The loader never makes a second attempt.  Its [_connect] has
    the loop of the extractor, but its module does not import [time]:
    when the first attempt is refused the call of [time.sleep] raises
    [NameError], which the handler for [OperationalError] lets through.
    So the loader connects at the first attempt or not at all, whatever
    the later attempts would have met, and it never sleeps. *)
Theorem loader_connect_never_retries (refused : nat -> bool) :
  SCD2Loader_connect refused
  = (if refused 0%nat then ConnectRaise NameError else Connected 0, 0%nat)
  /\ forall refused', refused' 0%nat = refused 0%nat ->
       SCD2Loader_connect refused' = SCD2Loader_connect refused.
Proof.
  unfold SCD2Loader_connect, max_retries. cbn. split.
  - destruct (refused 0%nat); reflexivity.
  - intros r E. rewrite E. destruct (refused 0%nat); reflexivity.
Qed.

End Pipeline.

(** * Worked instances

    The library functions are given stand-ins: a timestamp is written as
    the decimal number of its microseconds and counts as one that
    carries an offset, as those that the extractor writes do, and the
    digest of a text is the text. *)

Module Demo.

Definition parse (s : string) : option Z :=
  option_map Z.of_int (NilZero.int_of_string s).

Definition print (z : Z) : string := Py.str_of_int z.

Definition digest (s : string) : string := s.

Definition aware (s : string) : bool := true.

(** Order 7, bought by customer 100. *)
Definition order7 (op : string) (qty : Z) (status ts : string) : change :=
  mkChange 7 100 200 qty 1000 (qty * 1000) status "5" op ts.

(** Its current version in the warehouse, captured at time 30. *)
Definition shipped : row :=
  mkRow 1 7 100 200 3 1000 3000 "shipped" 5 30 None true "UPDATE" 30 "b0".

Definition table : warehouse :=
  mkWarehouse [shipped] [shipped] 2 false [] false.

Definition delivered : list change := [order7 "UPDATE" 4 "delivered" "40"].

Definition batch (changes : list change) : batch_file :=
  mkBatchFile "changes_1.json" (Some changes).

Definition fresh : loader := mkLoader table [].
Definition replayed : loader := mkLoader table ["changes_1.json|[7]"].

Definition after (changes : list change) : loader :=
  snd (_process_batch_file digest parse aware parse print (batch changes) fresh).

(** A source row that was created at time 10 and carries the
    last-modified time 3. *)
Definition backdated : order := mkOrder 7 100 200 3 1000 3000 "shipped" 5 3 10.

Definition polling : extractor :=
  mkExtractor (mkSource [backdated] Healthy) (Some "5") [].

Definition cut_off : extractor :=
  mkExtractor (mkSource [backdated] ConnectionLost) (Some "5") [].

(** The scenarios of the specification: an empty warehouse, three
    rapid mutations of order 7 in one batch, then later changes. *)
Definition empty : loader := mkLoader (mkWarehouse [] [] 1 false [] false) [].

Definition rapid : list change :=
  [order7 "INSERT" 1 "pending" "10";
   order7 "UPDATE" 2 "confirmed" "11";
   order7 "UPDATE" 3 "shipped" "12"].

Definition run (name : string) (changes : list change) (st : loader)
  : bool * loader :=
  _process_batch_file digest parse aware parse print
    (mkBatchFile name (Some changes)) st.

(** The UPDATE transition called on its own, outside any block. *)
Definition direct (c : change) (w : warehouse)
  : outcome (bool * nat) * warehouse :=
  _process_update_change parse aware parse print 1 c "b" w.

(** Quantity, validity interval and current flag of every version. *)
Definition versions (w : warehouse) : list (Z * Z * option Z * bool) :=
  map (fun r => (quantity r, valid_from r, valid_to r, is_current r))
      (working w).

Definition loaded1 : loader := snd (run "changes_1.json" rapid empty).

End Demo.

(** Further instances, for the properties of the transitions, of the
    run and of the extractor. *)
Module Cases.

Definition blank : warehouse := mkWarehouse [] [] 1 false [] false.

Definition placed : change := Demo.order7 "INSERT" 1 "pending" "10".
Definition amended : change := Demo.order7 "UPDATE" 4 "delivered" "40".
Definition late : change := Demo.order7 "UPDATE" 4 "delivered" "20".
Definition dropped : change := Demo.order7 "DELETE" 3 "shipped" "40".
Definition merged : change := Demo.order7 "MERGE" 3 "shipped" "40".

(** The first version of order 7, made by an INSERT captured at 10. *)
Definition pending : row :=
  mkRow 1 7 100 200 1 1000 1000 "pending" 5 10 None true "INSERT" 10 "b0".

Definition opened : warehouse :=
  mkWarehouse [pending] [pending] 2 false [] false.

(** The same INSERT delivered again, with another quantity. *)
Definition repeated : change := Demo.order7 "INSERT" 9 "pending" "10".

(** Order 8, bought by customer 101. *)
Definition order8 (op : string) (ts : string) : change :=
  mkChange 8 101 200 1 500 500 "pending" "6" op ts.

(** A batch that leaves order 7 as it is and brings order 8. *)
Definition mixed : list change :=
  [Demo.order7 "UPDATE" 3 "shipped" "50"; order8 "INSERT" "40"].

(** The connection inside the block of a batch. *)
Definition inside (w : warehouse) : warehouse := set_entered true w.

(** A source row created at 10 and last modified at 30. *)
Definition modified : order := mkOrder 7 100 200 3 1000 3000 "shipped" 5 30 10.

Definition polling : extractor :=
  mkExtractor (mkSource [modified] Healthy) (Some "5") [].

End Cases.

(** ** ISO 8601 texts

    For the instances in which the notation of a timestamp matters the
    library functions are given stand-ins that read and write the texts
    of Python's [datetime]: [isoformat] and [str] write
    [YYYY-MM-DD], [T] or a blank, [HH:MM:SS], the microseconds when
    there are some, and the offset [+HH:MM] or [-HH:MM] when the
    datetime has one; [fromisoformat] reads these texts.  An instant is
    the number of microseconds since 1970-01-01 00:00:00, of UTC when
    the text has an offset and of the wall clock when it has none. *)

Module Iso.

Definition digit (ch : ascii) : option Z :=
  let n := Z.of_nat (nat_of_ascii ch) in
  if (48 <=? n) && (n <=? 57) then Some (n - 48) else None.

Fixpoint digits (acc : Z) (s : string) : option Z :=
  match s with
  | EmptyString => Some acc
  | String ch rest =>
      match digit ch with
      | Some d => digits (acc * 10 + d) rest
      | None => None
      end
  end.

(** The number written by the [len] digits of [s] from position [from]. *)
Definition field (s : string) (from len : nat) : option Z :=
  let t := substring from len s in
  if Nat.eqb (String.length t) len then digits 0 t else None.

Definition is_leap (y : Z) : bool :=
  ((y mod 4 =? 0) && negb (y mod 100 =? 0)) || (y mod 400 =? 0).

Definition days_in_month (y m : Z) : Z :=
  if m =? 2 then (if is_leap y then 29 else 28)
  else if (m =? 4) || (m =? 6) || (m =? 9) || (m =? 11) then 30 else 31.

(** Days from 1970-01-01 to the day [d] of month [m] of year [y]. *)
Definition days_from_civil (y m d : Z) : Z :=
  let y' := if m <=? 2 then y - 1 else y in
  let era := y' / 400 in
  let yoe := y' - era * 400 in
  let doy := (153 * (if 2 <? m then m - 3 else m + 9) + 2) / 5 + d - 1 in
  let doe := yoe * 365 + yoe / 4 - yoe / 100 + doy in
  era * 146097 + doe - 719468.

(** Year, month and day of the day that is [z] days after 1970-01-01. *)
Definition civil_from_days (z : Z) : Z * Z * Z :=
  let z' := z + 719468 in
  let era := z' / 146097 in
  let doe := z' - era * 146097 in
  let yoe := (doe - doe / 1460 + doe / 36524 - doe / 146096) / 365 in
  let doy := doe - (365 * yoe + yoe / 4 - yoe / 100) in
  let mp := (5 * doy + 2) / 153 in
  let d := doy - (153 * mp + 2) / 5 + 1 in
  let m := if mp <? 10 then mp + 3 else mp - 9 in
  let y := yoe + era * 400 in
  (if m <=? 2 then y + 1 else y, m, d).

Definition is_char (s : string) (n : nat) (ch : ascii) : bool :=
  match get n s with
  | Some x => Ascii.eqb x ch
  | None => false
  end.

(** The microseconds of a tail [.ffffff], and what follows it. *)
Definition fraction (rest : string) : option (Z * string) :=
  if is_char rest 0 "." then
    match field rest 1 6 with
    | Some us => Some (us, substring 7 (String.length rest - 7) rest)
    | None => None
    end
  else Some (0, rest).

(** The minutes east of UTC of a tail [+HH:MM] or [-HH:MM]. *)
Definition offset (rest : string) : option (option Z) :=
  match rest with
  | EmptyString => Some None
  | String sign _ =>
      if (Nat.eqb (String.length rest) 6 && is_char rest 3 ":")%bool then
        match field rest 1 2, field rest 4 2 with
        | Some h, Some m =>
            if (h <? 24) && (m <? 60) then
              if Ascii.eqb sign "+" then Some (Some (h * 60 + m))
              else if Ascii.eqb sign "-" then Some (Some (- (h * 60 + m)))
              else None
            else None
        | _, _ => None
        end
      else None
  end.

(** The wall-clock microseconds of a text and its offset, if it has
    one. *)
Definition read (s : string) : option (Z * option Z) :=
  match field s 0 4, field s 5 2, field s 8 2,
        field s 11 2, field s 14 2, field s 17 2 with
  | Some y, Some m, Some d, Some hh, Some mi, Some ss =>
      if is_char s 4 "-" && is_char s 7 "-"
         && (is_char s 10 "T" || is_char s 10 " ")
         && is_char s 13 ":" && is_char s 16 ":"
         && (1 <=? y) && (1 <=? m) && (m <=? 12)
         && (1 <=? d) && (d <=? days_in_month y m)
         && (hh <? 24) && (mi <? 60) && (ss <? 60)
      then
        match fraction (substring 19 (String.length s - 19) s) with
        | Some (us, rest) =>
            match offset rest with
            | Some off =>
                Some ((((days_from_civil y m d * 24 + hh) * 60 + mi) * 60 + ss)
                      * 1000000 + us, off)
            | None => None
            end
        | None => None
        end
      else None
  | _, _, _, _, _, _ => None
  end.

(** [str.replace('Z', '+00:00')] *)
Fixpoint replace_z (s : string) : string :=
  match s with
  | EmptyString => EmptyString
  | String ch rest =>
      if Ascii.eqb ch "Z" then "+00:00" ++ replace_z rest
      else String ch (replace_z rest)
  end.

(** [datetime.fromisoformat] after the replacement, as an instant. *)
Definition parse (s : string) : option Z :=
  match read (replace_z s) with
  | Some (t, Some off) => Some (t - off * 60000000)
  | Some (t, None) => Some t
  | None => None
  end.

(** Whether the datetime that it reads has an offset. *)
Definition aware (s : string) : bool :=
  match read (replace_z s) with
  | Some (_, Some _) => true
  | _ => false
  end.

(** The server reading the literal of a [TIMESTAMP], which is without
    time zone: an offset in the literal is ignored. *)
Definition literal (s : string) : option Z := option_map fst (read s).

Definition digit_char (n : Z) : ascii := ascii_of_nat (48 + Z.to_nat n).

Definition two (n : Z) : string :=
  String (digit_char (n / 10)) (String (digit_char (n mod 10)) "").

Definition four (n : Z) : string := two (n / 100) ++ two (n mod 100).

Definition six (n : Z) : string :=
  two (n / 10000) ++ two (n / 100 mod 100) ++ two (n mod 100).

(** [str] of the datetime without offset at the instant [t]. *)
Definition str (t : Z) : string :=
  let day := t / 86400000000 in
  let us := t mod 86400000000 in
  let '(y, m, d) := civil_from_days day in
  let s := us / 1000000 in
  four y ++ "-" ++ two m ++ "-" ++ two d ++ " "
  ++ two (s / 3600) ++ ":" ++ two (s / 60 mod 60) ++ ":" ++ two (s mod 60)
  ++ (if us mod 1000000 =? 0 then "" else "." ++ six (us mod 1000000)).

End Iso.

(** Instances in which the notation of a timestamp matters. *)
Module Zones.

Definition late : change :=
  mkChange 7 100 200 2 1000 2000 "confirmed" "2024-01-01 09:00:00"
           "UPDATE" "2024-01-01T10:00:01.500000+00:00".

Definition empty : loader := mkLoader (mkWarehouse [] [] 1 false [] false) [].

Definition run (name : string) (changes : list change) (st : loader)
  : bool * loader :=
  _process_batch_file Demo.digest Iso.parse Iso.aware Iso.literal Iso.str
    (mkBatchFile name (Some changes)) st.

(** The current version of order 7, ordered on 2024-01-15 at 10:30 and
    captured the same day at 11:00 UTC. *)
Definition shipped : row :=
  mkRow 1 7 100 200 3 1000 3000 "shipped" 1705314600000000
        1705316400000000 None true "INSERT" 1705316400000000 "b0".

Definition table : warehouse :=
  mkWarehouse [shipped] [shipped] 2 false [] false.


(** The first version of order 7, made by an INSERT whose capture
    timestamp has no offset. *)
Definition pending : row :=
  mkRow 1 7 100 200 1 1000 1000 "pending" 1705314600000000
        1705316400000000 None true "INSERT" 1705316400000000 "b0".

Definition opened : warehouse :=
  mkWarehouse [pending] [pending] 2 false [] false.

(** That INSERT delivered again, with another quantity. *)
Definition repeated : change :=
  mkChange 7 100 200 9 1000 9000 "pending" "2024-01-15 10:30:00"
           "INSERT" "2024-01-15T11:00:00".

End Zones.

Lemma recorded_batch_is_skipped_witness :
  file_changes (Demo.batch Demo.delivered) = Some Demo.delivered
  /\ recorded (processed_log Demo.replayed)
              (file_name (Demo.batch Demo.delivered))
              (_generate_batch_id Demo.digest Demo.delivered)
  /\ load_change_logs Demo.digest Demo.parse Demo.aware Demo.parse Demo.print
       [Demo.batch Demo.delivered] Demo.replayed = Demo.replayed.
Proof.
  assert (H1 : file_changes (Demo.batch Demo.delivered) = Some Demo.delivered)
    by reflexivity.
  assert (H2 : recorded (processed_log Demo.replayed)
                 (file_name (Demo.batch Demo.delivered))
                 (_generate_batch_id Demo.digest Demo.delivered)).
  { exists "changes_1.json|[7]". split; [vm_compute; left|]; reflexivity. }
  split; [exact H1|]. split; [exact H2|].
  exact (proj2 (recorded_batch_is_skipped Demo.digest Demo.parse Demo.aware
                  Demo.parse Demo.print (Demo.batch Demo.delivered)
                  Demo.replayed Demo.delivered H1 H2)).
Defined.

Lemma batch_single_current_witness :
  single_current (working (db Demo.fresh))
  /\ _process_batch_file Demo.digest Demo.parse Demo.aware Demo.parse Demo.print
       (Demo.batch Cases.mixed) Demo.fresh = (true, Demo.after Cases.mixed)
  /\ single_current (working (db (Demo.after Cases.mixed)))
  /\ count_current 7 (working (db (Demo.after Cases.mixed))) = 1%nat
  /\ count_current 8 (working (db (Demo.after Cases.mixed))) = 1%nat.
Proof.
  assert (H1 : single_current (working (db Demo.fresh))).
  { intros k. change (working (db Demo.fresh)) with [Demo.shipped].
    unfold count_current. cbn [filter].
    destruct (current_of k Demo.shipped); simpl; lia. }
  assert (H2 : _process_batch_file Demo.digest Demo.parse Demo.aware Demo.parse
                 Demo.print (Demo.batch Cases.mixed) Demo.fresh
               = (true, Demo.after Cases.mixed))
    by (vm_compute; reflexivity).
  split; [exact H1|]. split; [exact H2|].
  destruct (batch_single_current Demo.digest Demo.parse Demo.aware Demo.parse
              Demo.print (Demo.batch Cases.mixed) Demo.fresh
              (Demo.after Cases.mixed) H1 H2) as (S & _ & K).
  split; [exact S|].
  assert (NE : Cases.mixed <> []) by discriminate.
  destruct (K Cases.mixed eq_refl NE eq_refl) as (_ & _ & N).
  split; [apply (N (Demo.order7 "UPDATE" 3 "shipped" "50")); now left|].
  apply (N (Cases.order8 "INSERT" "40")). right. now left.
Defined.

Lemma update_pair_atomic_witness :
  current_row (ch_id (Demo.order7 "UPDATE" 4 "delivered" "40"))
              (working Demo.table) <> None
  /\ exists ok w',
       expire_and_insert Demo.parse (Demo.order7 "UPDATE" 4 "delivered" "40")
                         40 "b1" Demo.table = (Ret ok, w')
       /\ aborted w' = false /\ committed w' = working w'.
Proof.
  assert (H : current_row (ch_id (Demo.order7 "UPDATE" 4 "delivered" "40"))
                          (working Demo.table) <> None)
    by (vm_compute; discriminate).
  split; [exact H|].
  destruct (update_pair_atomic Demo.parse
              (Demo.order7 "UPDATE" 4 "delivered" "40") 40 "b1" Demo.table H)
    as (ok & w' & E & A & C & _).
  exists ok, w'. split; [exact E|]. split; [exact A|exact C].
Defined.





(** The claim C6 as it is written fails on a source row that was
    created after the watermark and last modified before it: the poll
    persists the row and moves the stored watermark from 5 back to 3. *)
Lemma watermark_can_decrease :
  fst (extract_once Demo.parse Demo.print Demo.print 1000 Demo.polling) = Ret tt
  /\ _get_watermark Demo.parse 1000 (watermark_file Demo.polling) = 5
  /\ cdc_logs (snd (extract_once Demo.parse Demo.print Demo.print 1000
                                 Demo.polling)) <> []
  /\ _get_watermark Demo.parse 1000
       (watermark_file (snd (extract_once Demo.parse Demo.print Demo.print 1000
                                          Demo.polling))) = 3.
Proof. vm_compute. repeat split. discriminate. Qed.

Lemma source_failure_keeps_watermark_witness :
  link_state (src Demo.cut_off) <> Healthy
  /\ snd (extract_once Demo.parse Demo.print Demo.print 1000 Demo.cut_off)
     = Demo.cut_off.
Proof.
  assert (H : link_state (src Demo.cut_off) <> Healthy) by (simpl; discriminate).
  split; [exact H|].
  exact (proj1 (proj2 (proj2
    (source_failure_keeps_watermark Demo.parse Demo.print Demo.print 1000
       Demo.cut_off H)))).
Defined.

Lemma save_watermark_in_place_witness :
  Demo.parse "" = None
  /\ _save_watermark_steps Demo.print 7 (Some "5") = [Some ""; Some (Demo.print 7)].
Proof.
  assert (H : Demo.parse "" = None) by reflexivity.
  split; [exact H|].
  exact (proj1 (save_watermark_in_place Demo.parse Demo.print 7 1000 (Some "5") H)).
Defined.

(** The claim C8 as it is written fails: while the watermark 7 replaces
    the watermark 5 the file is, for one step, neither of the two. *)
Lemma truncated_watermark_is_visible :
  exists seen,
    In seen (_save_watermark_steps Demo.print 7 (Some "5"))
    /\ seen <> Some "5"
    /\ seen <> _save_watermark Demo.print 7 (Some "5").
Proof.
  exists (Some ""). split; [now left|]. split; vm_compute; discriminate.
Qed.

(** The claim C10 as it is written fails when the second lookup fails:
    the INSERT for order 7, whose current row is in the table all along,
    is handed to the UPDATE transition and handed back. *)
Lemma insert_redirected_twice :
  let w := mkWarehouse [Demo.shipped] [Demo.shipped] 2 false [false; true]
                       false in
  let run := _process_insert_change Demo.parse Demo.aware Demo.parse Demo.print
               recursion_limit (Demo.order7 "INSERT" 4 "delivered" "40") "b1" w in
  fst run = Ret (false, 2%nat)
  /\ working (snd run) = working w
  /\ committed (snd run) = committed w.
Proof. vm_compute. repeat split. Qed.

(** ** The scenarios of the specification on the model *)

(** Coalescing: the three mutations of one batch leave one version. *)
Example rapid_updates_leave_one_version :
  fst (Demo.run "changes_1.json" Demo.rapid Demo.empty) = true
  /\ Demo.versions (db Demo.loaded1) = [(3, 12, None, true)].
Proof. vm_compute. split; reflexivity. Qed.

(** Sequential update: a later batch brings an update that changes
    order 7.  The UPDATE transition cannot enter its block inside the
    block of the batch; the batch fails, the version stays as it is and
    the artifact is not recorded. *)
Example later_update_fails_in_a_batch :
  let '(ok, st) := Demo.run "changes_2.json"
                     [Demo.order7 "UPDATE" 4 "delivered" "13"] Demo.loaded1 in
  ok = false
  /\ db st = db Demo.loaded1
  /\ processed_log st = processed_log Demo.loaded1.
Proof. vm_compute. repeat split. Qed.

(** Called on its own, the UPDATE transition closes the version, and
    its successor starts where it ends. *)
Example later_update_adds_a_version :
  let '(u, w) := Demo.direct (Demo.order7 "UPDATE" 4 "delivered" "13")
                             (db Demo.loaded1) in
  u = Ret (true, O)
  /\ Demo.versions w = [(3, 12, Some 13, false); (4, 13, None, true)].
Proof. vm_compute. split; reflexivity. Qed.

(** No-op on unchanged value: an update that carries the values of the
    current version, in a later artifact, adds no row and draws no
    surrogate key; the artifact is recorded. *)
Example redelivered_update_changes_nothing :
  let '(ok, st) := Demo.run "changes_2.json"
                     [Demo.order7 "UPDATE" 3 "shipped" "12"] Demo.loaded1 in
  ok = true
  /\ db st = db Demo.loaded1
  /\ processed_log st
     = (processed_log Demo.loaded1 ++ ["changes_2.json|[7]"])%list.
Proof. vm_compute. repeat split. Qed.

(** The table constraint [UNIQUE (order_key, is_current)] also holds
    the closed rows of a key to one: the update that would close a
    second version of order 7 fails when its transaction commits, and
    the rows stay as they were. *)
Example second_closed_version_is_refused :
  let w1 := snd (Demo.direct (Demo.order7 "UPDATE" 4 "delivered" "13")
                             (db Demo.loaded1)) in
  let '(u, w2) := Demo.direct (Demo.order7 "UPDATE" 5 "returned" "14") w1 in
  u = Ret (false, O)
  /\ Demo.versions w2 = Demo.versions w1
  /\ committed w2 = committed w1.
Proof. vm_compute. repeat split. Qed.

(** ** Instances of the further properties *)

Lemma insert_on_absent_key_witness :
  fault_free Cases.blank
  /\ current_row (ch_id Cases.placed) (working Cases.blank) = None
  /\ Demo.parse (ch_cdc_timestamp Cases.placed) = Some 10
  /\ Demo.parse (ch_order_date Cases.placed) = Some 5
  /\ next_key Cases.blank <> 0
  /\ exists w',
       _process_insert_change Demo.parse Demo.aware Demo.parse Demo.print 1
         Cases.placed "b1" Cases.blank = (Ret (true, O), w')
       /\ next_key w' = 2.
Proof.
  assert (H1 : fault_free Cases.blank)
    by (split; [reflexivity|intros []]).
  assert (H2 : current_row (ch_id Cases.placed) (working Cases.blank) = None)
    by reflexivity.
  assert (H3 : Demo.parse (ch_cdc_timestamp Cases.placed) = Some 10)
    by (vm_compute; reflexivity).
  assert (H4 : Demo.parse (ch_order_date Cases.placed) = Some 5)
    by (vm_compute; reflexivity).
  assert (H5 : next_key Cases.blank <> 0) by (simpl; discriminate).
  do 5 (split; [assumption|]).
  destruct (insert_on_absent_key Demo.parse Demo.aware Demo.parse Demo.print O
              Cases.placed "b1" Cases.blank 10 5 H1 H2 H3 H4 H5)
    as (w' & E & _ & _ & N & _).
  exists w'. split; [exact E|exact N].
Defined.

Lemma update_on_absent_key_witness :
  fault_free Cases.blank
  /\ current_row (ch_id Cases.amended) (working Cases.blank) = None
  /\ Demo.parse (ch_cdc_timestamp Cases.amended) = Some 40
  /\ Demo.parse (ch_order_date Cases.amended) = Some 5
  /\ next_key Cases.blank <> 0
  /\ exists w',
       _process_update_change Demo.parse Demo.aware Demo.parse Demo.print 2
         Cases.amended "b1" Cases.blank = (Ret (true, 1%nat), w')
       /\ next_key w' = 2.
Proof.
  assert (H1 : fault_free Cases.blank)
    by (split; [reflexivity|intros []]).
  assert (H2 : current_row (ch_id Cases.amended) (working Cases.blank) = None)
    by reflexivity.
  assert (H3 : Demo.parse (ch_cdc_timestamp Cases.amended) = Some 40)
    by (vm_compute; reflexivity).
  assert (H4 : Demo.parse (ch_order_date Cases.amended) = Some 5)
    by (vm_compute; reflexivity).
  assert (H5 : next_key Cases.blank <> 0) by (simpl; discriminate).
  do 5 (split; [assumption|]).
  destruct (update_on_absent_key Demo.parse Demo.aware Demo.parse Demo.print O
              Cases.amended "b1" Cases.blank 40 5 H1 H2 H3 H4 H5)
    as (w' & E & _ & _ & N & _).
  exists w'. split; [exact E|exact N].
Defined.

(** An INSERT whose capture timestamp has no offset, delivered again,
    is skipped; one whose timestamp has an offset is taken for an
    update, which inside a batch fails when it alters a value. *)
Lemma insert_duplicate_test_witness :
  (fault_free Zones.opened
   /\ current_row (ch_id Zones.repeated) (working Zones.opened)
      = Some Zones.pending
   /\ Iso.parse (ch_cdc_timestamp Zones.repeated)
      = Some (cdc_timestamp Zones.pending)
   /\ cdc_operation Zones.pending = "INSERT"
   /\ Iso.aware (ch_cdc_timestamp Zones.repeated) = false
   /\ exists w',
        _process_insert_change Iso.parse Iso.aware Iso.literal Iso.str 1
          Zones.repeated "b1" Zones.opened = (Ret (true, O), w')
        /\ same_data Zones.opened w')
  /\ (fault_free (Cases.inside Cases.opened)
      /\ current_row (ch_id Cases.repeated)
                     (working (Cases.inside Cases.opened)) = Some Cases.pending
      /\ Demo.parse (ch_cdc_timestamp Cases.repeated)
         = Some (cdc_timestamp Cases.pending)
      /\ cdc_operation Cases.pending = "INSERT"
      /\ Demo.aware (ch_cdc_timestamp Cases.repeated) = true
      /\ has_changes Demo.print Cases.pending Cases.repeated = true
      /\ entered (Cases.inside Cases.opened) = true
      /\ exists w',
           _process_insert_change Demo.parse Demo.aware Demo.parse Demo.print 2
             Cases.repeated "b1" (Cases.inside Cases.opened)
           = (Ret (false, 1%nat), w')
           /\ working w' = committed Cases.opened).
Proof.
  split.
  - assert (H1 : fault_free Zones.opened)
      by (split; [reflexivity|intros []]).
    assert (H2 : current_row (ch_id Zones.repeated) (working Zones.opened)
                 = Some Zones.pending) by reflexivity.
    assert (H3 : Iso.parse (ch_cdc_timestamp Zones.repeated)
                 = Some (cdc_timestamp Zones.pending))
      by (vm_compute; reflexivity).
    assert (H4 : cdc_operation Zones.pending = "INSERT") by reflexivity.
    assert (H5 : Iso.aware (ch_cdc_timestamp Zones.repeated) = false)
      by (vm_compute; reflexivity).
    do 5 (split; [assumption|]).
    exact (proj1 (insert_duplicate_test Iso.parse Iso.aware Iso.literal
                    Iso.str O Zones.repeated "b1" Zones.opened Zones.pending
                    H1 H2 H3 H4) H5).
  - assert (H1 : fault_free (Cases.inside Cases.opened))
      by (split; [reflexivity|intros []]).
    assert (H2 : current_row (ch_id Cases.repeated)
                   (working (Cases.inside Cases.opened)) = Some Cases.pending)
      by reflexivity.
    assert (H3 : Demo.parse (ch_cdc_timestamp Cases.repeated)
                 = Some (cdc_timestamp Cases.pending))
      by (vm_compute; reflexivity).
    assert (H4 : cdc_operation Cases.pending = "INSERT") by reflexivity.
    assert (H5 : Demo.aware (ch_cdc_timestamp Cases.repeated) = true)
      by reflexivity.
    assert (H6 : has_changes Demo.print Cases.pending Cases.repeated = true)
      by (vm_compute; reflexivity).
    assert (H7 : entered (Cases.inside Cases.opened) = true) by reflexivity.
    do 7 (split; [assumption|]).
    destruct (proj2 (proj2 (insert_duplicate_test Demo.parse Demo.aware
                Demo.parse Demo.print O Cases.repeated "b1"
                (Cases.inside Cases.opened) Cases.pending H1 H2 H3 H4) H5)
                H6 H7) as (w' & E & W & _).
    exists w'. split; [exact E|exact W].
Defined.

Lemma changed_update_opens_successor_witness :
  fault_free Demo.table
  /\ current_row (ch_id Cases.amended) (working Demo.table) = Some Demo.shipped
  /\ has_changes Demo.print Demo.shipped Cases.amended = true
  /\ Demo.parse (ch_cdc_timestamp Cases.amended) = Some 40
  /\ Demo.parse (ch_order_date Cases.amended) = Some 5
  /\ valid_time_check (ch_id Cases.amended) 40 (working Demo.table) = true
  /\ current_unique
       (expire_rows (ch_id Cases.amended) 40 (working Demo.table)
        ++ [new_row (next_key Demo.table) Cases.amended 5 40 "b1"]) = true
  /\ entered Demo.table = false
  /\ entered (Cases.inside Demo.table) = true
  /\ (exists w',
        _process_update_change Demo.parse Demo.aware Demo.parse Demo.print 1
          Cases.amended "b1" Demo.table = (Ret (true, O), w')
        /\ committed w' = working w'
        /\ count_current (ch_id Cases.amended) (working w') = 1%nat)
  /\ (exists w',
        _process_update_change Demo.parse Demo.aware Demo.parse Demo.print 1
          Cases.amended "b1" (Cases.inside Demo.table) = (Ret (false, O), w')
        /\ working w' = committed Demo.table).
Proof.
  assert (H1 : fault_free Demo.table)
    by (split; [reflexivity|intros []]).
  assert (H2 : current_row (ch_id Cases.amended) (working Demo.table)
               = Some Demo.shipped) by reflexivity.
  assert (H3 : has_changes Demo.print Demo.shipped Cases.amended = true)
    by (vm_compute; reflexivity).
  assert (H4 : Demo.parse (ch_cdc_timestamp Cases.amended) = Some 40)
    by (vm_compute; reflexivity).
  assert (H5 : Demo.parse (ch_order_date Cases.amended) = Some 5)
    by (vm_compute; reflexivity).
  assert (H6 : valid_time_check (ch_id Cases.amended) 40 (working Demo.table)
               = true) by (vm_compute; reflexivity).
  assert (H7 : current_unique
                 (expire_rows (ch_id Cases.amended) 40 (working Demo.table)
                  ++ [new_row (next_key Demo.table) Cases.amended 5 40 "b1"])
               = true) by (vm_compute; reflexivity).
  assert (H8 : entered Demo.table = false) by reflexivity.
  assert (H9 : entered (Cases.inside Demo.table) = true) by reflexivity.
  assert (G1 : fault_free (Cases.inside Demo.table))
    by (split; [reflexivity|intros []]).
  do 9 (split; [assumption|]).
  split.
  - destruct (proj1 (changed_update_opens_successor Demo.parse Demo.aware
                Demo.parse Demo.print O Cases.amended "b1" Demo.table
                Demo.shipped 40 5 H1 H2 H3 H4 H5 H6 H7) H8)
      as (w' & E & _ & _ & C & _ & _ & _ & _ & N).
    exists w'. split; [exact E|]. split; [exact C|exact N].
  - destruct (proj1 (proj2 (changed_update_opens_successor Demo.parse
                Demo.aware Demo.parse Demo.print O Cases.amended "b1"
                (Cases.inside Demo.table) Demo.shipped 40 5
                G1 H2 H3 H4 H5 H6 H7) H9))
      as (w' & E & W & _).
    exists w'. split; [exact E|exact W].
Defined.

Lemma stale_update_is_refused_witness :
  fault_free Demo.table
  /\ current_row (ch_id Cases.late) (working Demo.table) = Some Demo.shipped
  /\ has_changes Demo.print Demo.shipped Cases.late = true
  /\ Demo.parse (ch_cdc_timestamp Cases.late) = Some 20
  /\ 20 <= valid_from Demo.shipped
  /\ exists w',
       _process_update_change Demo.parse Demo.aware Demo.parse Demo.print 1
         Cases.late "b1" Demo.table = (Ret (false, O), w')
       /\ working w' = committed Demo.table.
Proof.
  assert (H1 : fault_free Demo.table)
    by (split; [reflexivity|intros []]).
  assert (H2 : current_row (ch_id Cases.late) (working Demo.table)
               = Some Demo.shipped) by reflexivity.
  assert (H3 : has_changes Demo.print Demo.shipped Cases.late = true)
    by (vm_compute; reflexivity).
  assert (H4 : Demo.parse (ch_cdc_timestamp Cases.late) = Some 20)
    by (vm_compute; reflexivity).
  assert (H5 : 20 <= valid_from Demo.shipped) by (simpl; lia).
  do 5 (split; [assumption|]).
  destruct (stale_update_is_refused Demo.parse Demo.aware Demo.parse Demo.print
              O Cases.late "b1" Demo.table Demo.shipped 20 H1 H2 H3 H4 H5)
    as (w' & E & W & _).
  exists w'. split; [exact E|exact W].
Defined.

Lemma delete_on_absent_key_witness :
  fault_free Cases.blank
  /\ current_row (ch_id Cases.dropped) (working Cases.blank) = None
  /\ Demo.parse (ch_cdc_timestamp Cases.dropped) = Some 40
  /\ entered Cases.blank = false
  /\ current_unique (working Cases.blank) = true
  /\ entered (Cases.inside Cases.blank) = true
  /\ (exists w',
        _process_delete_change Demo.parse Cases.dropped "b1" Cases.blank
        = (Ret true, w')
        /\ working w' = working Cases.blank)
  /\ (exists w',
        _process_delete_change Demo.parse Cases.dropped "b1"
          (Cases.inside Cases.blank) = (Ret false, w')
        /\ working w' = committed Cases.blank).
Proof.
  assert (H1 : fault_free Cases.blank)
    by (split; [reflexivity|intros []]).
  assert (H2 : current_row (ch_id Cases.dropped) (working Cases.blank) = None)
    by reflexivity.
  assert (H3 : Demo.parse (ch_cdc_timestamp Cases.dropped) = Some 40)
    by (vm_compute; reflexivity).
  assert (H4 : entered Cases.blank = false) by reflexivity.
  assert (H5 : current_unique (working Cases.blank) = true) by reflexivity.
  assert (H6 : entered (Cases.inside Cases.blank) = true) by reflexivity.
  assert (G1 : fault_free (Cases.inside Cases.blank))
    by (split; [reflexivity|intros []]).
  do 6 (split; [assumption|]).
  split.
  - destruct (proj1 (delete_on_absent_key Demo.parse Cases.dropped "b1"
                Cases.blank 40 H1 H2 H3) H4 H5) as (w' & E & W & _).
    exists w'. split; [exact E|exact W].
  - destruct (proj2 (delete_on_absent_key Demo.parse Cases.dropped "b1"
                (Cases.inside Cases.blank) 40 G1 H2 H3) H6)
      as (w' & E & W & _).
    exists w'. split; [exact E|exact W].
Defined.

Lemma delete_closes_current_row_witness :
  fault_free Demo.table
  /\ current_row (ch_id Cases.dropped) (working Demo.table) = Some Demo.shipped
  /\ Demo.parse (ch_cdc_timestamp Cases.dropped) = Some 40
  /\ entered Demo.table = false
  /\ valid_time_check (ch_id Cases.dropped) 40 (working Demo.table) = true
  /\ current_unique (expire_rows (ch_id Cases.dropped) 40 (working Demo.table))
     = true
  /\ entered (Cases.inside Demo.table) = true
  /\ (exists w',
        _process_delete_change Demo.parse Cases.dropped "b1" Demo.table
        = (Ret true, w')
        /\ count_current (ch_id Cases.dropped) (working w') = O)
  /\ (exists w',
        _process_delete_change Demo.parse Cases.dropped "b1"
          (Cases.inside Demo.table) = (Ret false, w')
        /\ current_row (ch_id Cases.dropped) (working w') = Some Demo.shipped).
Proof.
  assert (H1 : fault_free Demo.table)
    by (split; [reflexivity|intros []]).
  assert (H2 : current_row (ch_id Cases.dropped) (working Demo.table)
               = Some Demo.shipped) by reflexivity.
  assert (H3 : Demo.parse (ch_cdc_timestamp Cases.dropped) = Some 40)
    by (vm_compute; reflexivity).
  assert (H4 : entered Demo.table = false) by reflexivity.
  assert (H5 : valid_time_check (ch_id Cases.dropped) 40 (working Demo.table)
               = true) by (vm_compute; reflexivity).
  assert (H6 : current_unique
                 (expire_rows (ch_id Cases.dropped) 40 (working Demo.table))
               = true) by (vm_compute; reflexivity).
  assert (H7 : entered (Cases.inside Demo.table) = true) by reflexivity.
  assert (G1 : fault_free (Cases.inside Demo.table))
    by (split; [reflexivity|intros []]).
  do 7 (split; [assumption|]).
  split.
  - destruct (proj1 (delete_closes_current_row Demo.parse Cases.dropped "b1"
                Demo.table Demo.shipped 40 H1 H2 H3) H4 H5 H6)
      as (w' & E & _ & _ & _ & _ & _ & N).
    exists w'. split; [exact E|exact N].
  - destruct (proj2 (delete_closes_current_row Demo.parse Cases.dropped "b1"
                (Cases.inside Demo.table) Demo.shipped 40 G1 H2 H3) H7)
      as (w' & E & _ & _ & _ & K).
    exists w'. split; [exact E|]. apply K. reflexivity.
Defined.

Lemma unusable_change_fails_batch_witness :
  file_changes (Demo.batch [Cases.merged]) = Some [Cases.merged]
  /\ In Cases.merged (effective_changes [Cases.merged])
  /\ unusable Demo.parse Cases.merged
  /\ already_processed (_get_processed_files (processed_log Demo.fresh))
       (file_name (Demo.batch [Cases.merged]))
       (_generate_batch_id Demo.digest [Cases.merged]) = Ret false
  /\ exists st',
       _process_batch_file Demo.digest Demo.parse Demo.aware Demo.parse
         Demo.print (Demo.batch [Cases.merged]) Demo.fresh = (false, st')
       /\ processed_log st' = processed_log Demo.fresh.
Proof.
  assert (H1 : file_changes (Demo.batch [Cases.merged]) = Some [Cases.merged])
    by reflexivity.
  assert (H2 : In Cases.merged (effective_changes [Cases.merged]))
    by (vm_compute; left; reflexivity).
  assert (H3 : unusable Demo.parse Cases.merged)
    by (right; repeat split; vm_compute; discriminate).
  assert (H4 : already_processed
                 (_get_processed_files (processed_log Demo.fresh))
                 (file_name (Demo.batch [Cases.merged]))
                 (_generate_batch_id Demo.digest [Cases.merged]) = Ret false)
    by reflexivity.
  do 4 (split; [assumption|]).
  exact (proj2 (unusable_change_fails_batch Demo.digest Demo.parse Demo.aware
                  Demo.parse Demo.print (Demo.batch [Cases.merged]) Demo.fresh
                  [Cases.merged] Cases.merged H1 H2 H3 H4)).
Defined.

Lemma batch_leaves_nothing_uncommitted_witness :
  committed (db Demo.fresh) = working (db Demo.fresh)
  /\ aborted (db Demo.fresh) = false
  /\ committed (db (Demo.after Cases.mixed))
     = working (db (Demo.after Cases.mixed))
  /\ aborted (db (Demo.after Cases.mixed)) = false
  /\ committed (db (load_change_logs Demo.digest Demo.parse Demo.aware
                      Demo.parse Demo.print [Demo.batch Cases.mixed] Demo.fresh))
     = working (db (load_change_logs Demo.digest Demo.parse Demo.aware
                      Demo.parse Demo.print [Demo.batch Cases.mixed] Demo.fresh)).
Proof.
  assert (H1 : committed (db Demo.fresh) = working (db Demo.fresh))
    by reflexivity.
  assert (H2 : aborted (db Demo.fresh) = false) by reflexivity.
  do 2 (split; [assumption|]).
  destruct (batch_leaves_nothing_uncommitted Demo.digest Demo.parse Demo.aware
              Demo.parse Demo.print (Demo.batch Cases.mixed) Demo.fresh
              [Demo.batch Cases.mixed] H1 H2) as ((B1 & B2) & R & _).
  split; [exact B1|]. split; [exact B2|exact R].
Defined.

Lemma transition_keeps_other_keys_witness :
  let w' := snd (_process_change_record Demo.parse Demo.aware Demo.parse
                   Demo.print (Cases.order8 "INSERT" "40") "b1" Demo.table) in
  _process_change_record Demo.parse Demo.aware Demo.parse Demo.print
    (Cases.order8 "INSERT" "40") "b1" Demo.table = (Ret true, w')
  /\ filter (fun r => negb (order_key r =? 8)) (working w') = [Demo.shipped].
Proof.
  intros w'.
  assert (H : _process_change_record Demo.parse Demo.aware Demo.parse Demo.print
                (Cases.order8 "INSERT" "40") "b1" Demo.table = (Ret true, w'))
    by (vm_compute; reflexivity).
  split; [exact H|].
  exact (transition_keeps_other_keys Demo.parse Demo.aware Demo.parse Demo.print
           (Cases.order8 "INSERT" "40") "b1" Demo.table w' H).
Defined.

Lemma never_two_current_rows_witness :
  single_current_table (db Demo.fresh)
  /\ single_current_table (db (Demo.after Cases.mixed)).
Proof.
  assert (S : single_current [Demo.shipped]).
  { intros k. unfold count_current. cbn [filter].
    destruct (current_of k Demo.shipped); simpl; lia. }
  assert (H : single_current_table (db Demo.fresh)) by (split; exact S).
  split; [exact H|].
  exact (proj1 (never_two_current_rows Demo.digest Demo.parse Demo.aware
                  Demo.parse Demo.print (Demo.batch Cases.mixed) Demo.fresh
                  [] H)).
Defined.

Lemma surrogate_keys_stay_unique_witness :
  keys_drawn (next_key (db Demo.fresh)) (committed (db Demo.fresh))
  /\ keys_drawn (next_key (db Demo.fresh)) (working (db Demo.fresh))
  /\ table_holds (keys_in_order (next_key (db Demo.fresh)))
       (db (Demo.after Cases.mixed)).
Proof.
  assert (K : keys_drawn 2 [Demo.shipped]).
  { split.
    - constructor; [intros []|constructor].
    - constructor; [simpl; lia|constructor]. }
  split; [exact K|]. split; [exact K|].
  exact (proj1 (surrogate_keys_stay_unique Demo.digest Demo.parse Demo.aware
                  Demo.parse Demo.print (Demo.batch Cases.mixed) Demo.fresh
                  [] K K)).
Defined.

Lemma validity_intervals_stay_sound_witness :
  Forall interval_ok (committed (db Demo.fresh))
  /\ Forall interval_ok (working (db Demo.fresh))
  /\ table_holds intervals_ok (db (Demo.after Cases.mixed)).
Proof.
  assert (K : Forall interval_ok [Demo.shipped]).
  { constructor; [|constructor]. split.
    - split; reflexivity.
    - intros t E. discriminate E. }
  split; [exact K|]. split; [exact K|].
  exact (proj1 (validity_intervals_stay_sound Demo.digest Demo.parse Demo.aware
                  Demo.parse Demo.print (Demo.batch Cases.mixed) Demo.fresh
                  [] K K)).
Defined.

Lemma history_is_append_only_witness :
  working (db Demo.fresh) = committed (db Demo.fresh)
  /\ history_kept (committed (db Demo.fresh))
                  (committed (db (Demo.after Cases.mixed))).
Proof.
  assert (H : working (db Demo.fresh) = committed (db Demo.fresh))
    by reflexivity.
  split; [exact H|].
  exact (proj1 (history_is_append_only Demo.digest Demo.parse Demo.aware
                  Demo.parse Demo.print (Demo.batch Cases.mixed) Demo.fresh
                  [] H)).
Defined.

Lemma batch_id_depends_on_keys_only_witness :
  Permutation (map ch_id [Cases.placed; Cases.order8 "INSERT" "10"])
              (map ch_id [Cases.order8 "DELETE" "90"; Cases.dropped])
  /\ _generate_batch_id Demo.digest [Cases.placed; Cases.order8 "INSERT" "10"]
     = _generate_batch_id Demo.digest
         [Cases.order8 "DELETE" "90"; Cases.dropped].
Proof.
  assert (H : Permutation
                (map ch_id [Cases.placed; Cases.order8 "INSERT" "10"])
                (map ch_id [Cases.order8 "DELETE" "90"; Cases.dropped]))
    by (apply perm_swap).
  split; [exact H|].
  exact (batch_id_depends_on_keys_only Demo.digest _ _ H).
Defined.

Lemma replay_changes_nothing_witness :
  file_changes (Demo.batch Cases.mixed) = Some Cases.mixed
  /\ _process_batch_file Demo.digest Demo.parse Demo.aware Demo.parse Demo.print
       (Demo.batch Cases.mixed) Demo.fresh
     = (true, Demo.after Cases.mixed)
  /\ no_bar (file_name (Demo.batch Cases.mixed)) = true
  /\ Py.strip (file_name (Demo.batch Cases.mixed) ++ "|"
               ++ _generate_batch_id Demo.digest Cases.mixed)
     = (file_name (Demo.batch Cases.mixed) ++ "|"
        ++ _generate_batch_id Demo.digest Cases.mixed)%string
  /\ _process_batch_file Demo.digest Demo.parse Demo.aware Demo.parse Demo.print
       (Demo.batch Cases.mixed) (Demo.after Cases.mixed)
     = (true, Demo.after Cases.mixed)
  /\ load_change_logs Demo.digest Demo.parse Demo.aware Demo.parse Demo.print
       [Demo.batch Cases.mixed] (Demo.after Cases.mixed)
     = Demo.after Cases.mixed.
Proof.
  assert (H1 : file_changes (Demo.batch Cases.mixed) = Some Cases.mixed)
    by reflexivity.
  assert (H2 : _process_batch_file Demo.digest Demo.parse Demo.aware Demo.parse
                 Demo.print (Demo.batch Cases.mixed) Demo.fresh
               = (true, Demo.after Cases.mixed))
    by (vm_compute; reflexivity).
  assert (H3 : no_bar (file_name (Demo.batch Cases.mixed)) = true)
    by (vm_compute; reflexivity).
  assert (H4 : Py.strip (file_name (Demo.batch Cases.mixed) ++ "|"
                         ++ _generate_batch_id Demo.digest Cases.mixed)
               = (file_name (Demo.batch Cases.mixed) ++ "|"
                  ++ _generate_batch_id Demo.digest Cases.mixed)%string)
    by (vm_compute; reflexivity).
  do 4 (split; [assumption|]).
  destruct (replay_changes_nothing Demo.digest Demo.parse Demo.aware Demo.parse
              Demo.print (Demo.batch Cases.mixed) Demo.fresh
              (Demo.after Cases.mixed) Cases.mixed H1 H2 H3 H4)
    as (R1 & R2 & _).
  split; [exact R1|]. apply R2. discriminate.
Defined.

Lemma applied_batch_closes_nothing_witness :
  file_changes (Demo.batch Cases.mixed) = Some Cases.mixed
  /\ Cases.mixed <> []
  /\ already_processed (_get_processed_files (processed_log Demo.fresh))
       (file_name (Demo.batch Cases.mixed))
       (_generate_batch_id Demo.digest Cases.mixed) = Ret false
  /\ _process_batch_file Demo.digest Demo.parse Demo.aware Demo.parse Demo.print
       (Demo.batch Cases.mixed) Demo.fresh = (true, Demo.after Cases.mixed)
  /\ exists added,
       working (db (Demo.after Cases.mixed)) = working (db Demo.fresh) ++ added
       /\ committed (db (Demo.after Cases.mixed))
          = working (db (Demo.after Cases.mixed)).
Proof.
  assert (H1 : file_changes (Demo.batch Cases.mixed) = Some Cases.mixed)
    by reflexivity.
  assert (H2 : Cases.mixed <> []) by discriminate.
  assert (H3 : already_processed
                 (_get_processed_files (processed_log Demo.fresh))
                 (file_name (Demo.batch Cases.mixed))
                 (_generate_batch_id Demo.digest Cases.mixed) = Ret false)
    by reflexivity.
  assert (H4 : _process_batch_file Demo.digest Demo.parse Demo.aware Demo.parse
                 Demo.print (Demo.batch Cases.mixed) Demo.fresh
               = (true, Demo.after Cases.mixed))
    by (vm_compute; reflexivity).
  do 4 (split; [assumption|]).
  destruct (applied_batch_closes_nothing Demo.digest Demo.parse Demo.aware
              Demo.parse Demo.print (Demo.batch Cases.mixed) Demo.fresh
              (Demo.after Cases.mixed) Cases.mixed H1 H2 H3 H4)
    as (_ & added & E & C & _).
  exists added. split; [exact E|exact C].
Defined.

Lemma detected_changes_of_a_poll_witness :
  link_state (src Cases.polling) = Healthy
  /\ exists changes,
       _detect_changes Demo.print 5 1000 (src Cases.polling) = Ret changes
       /\ Permutation (map d_order changes) [Cases.modified].
Proof.
  assert (H : link_state (src Cases.polling) = Healthy) by reflexivity.
  split; [exact H|].
  destruct (detected_changes_of_a_poll Demo.print 5 1000 (src Cases.polling) H)
    as (changes & E & P & _).
  exists changes. split; [exact E|exact P].
Defined.

Lemma unchanged_source_is_polled_once_witness :
  _detect_changes Demo.print
    (_get_watermark Demo.parse 1000 (watermark_file Cases.polling)) 1000
    (src Cases.polling)
  = Ret [classify Demo.print 5 1000 Cases.modified]
  /\ link_state (src Cases.polling) = Healthy
  /\ (forall o, In o (orders (src Cases.polling)) ->
                o_created_at o <= o_last_updated o)
  /\ Demo.parse (Py.strip (Demo.print
       (latest_timestamp (classify Demo.print 5 1000 Cases.modified) [])))
     = Some (latest_timestamp (classify Demo.print 5 1000 Cases.modified) [])
  /\ extract_once Demo.parse Demo.print Demo.print 2000
       (snd (extract_once Demo.parse Demo.print Demo.print 1000 Cases.polling))
     = (Ret tt,
        snd (extract_once Demo.parse Demo.print Demo.print 1000 Cases.polling)).
Proof.
  assert (H1 : _detect_changes Demo.print
                 (_get_watermark Demo.parse 1000 (watermark_file Cases.polling))
                 1000 (src Cases.polling)
               = Ret [classify Demo.print 5 1000 Cases.modified])
    by (vm_compute; reflexivity).
  assert (H2 : link_state (src Cases.polling) = Healthy) by reflexivity.
  assert (H3 : forall o, In o (orders (src Cases.polling)) ->
                         o_created_at o <= o_last_updated o).
  { intros o [<-|[]]. simpl. lia. }
  assert (H4 : Demo.parse (Py.strip (Demo.print
                 (latest_timestamp (classify Demo.print 5 1000 Cases.modified)
                                   [])))
               = Some (latest_timestamp
                         (classify Demo.print 5 1000 Cases.modified) []))
    by (vm_compute; reflexivity).
  do 4 (split; [assumption|]).
  exact (unchanged_source_is_polled_once Demo.parse Demo.print Demo.print
           1000 2000 Cases.polling _ _ H1 H2 H3 H4).
Defined.
